(** * Email verification pipeline and bulk-result orchestrator

  A shallow embedding of
  - the verification route [app/api/verify-email/route.ts] in its two
    versions (the full pipeline and the basic one),
  - the AWS error classifier [handleAWSError], and
  - the callbacks of [BulkResultsDisplay.tsx] (verify one, verify all,
    retry, and the row buttons of the filtered table),
  followed by the properties of the specification that concern them.

  JavaScript strings are modelled as [string]: sequences of code units
  in the range 0..255 (Latin-1).  Network collaborators (DNS, SES, the
  browser's [fetch]) are oracles of an environment record; every call
  is recorded in a trace. *)

From Stdlib Require Import Ascii String NArith Sorted.
From stdpp Require Import base list strings gmap pretty.

Local Open Scope stdpp_scope.

(** ** JavaScript values and string primitives *)

Module JS.

(** A field that may be absent ([undefined]), [null], or defined. *)
Inductive opt (A : Type) : Type :=
| Undefined
| Null
| Def (a : A).
Arguments Undefined {A}.
Arguments Null {A}.
Arguments Def {A} a.

Definition code (c : ascii) : N := N_of_ascii c.

Definition in_range (lo hi c : ascii) : bool :=
  (code lo <=? code c)%N && (code c <=? code hi)%N.

Definition eqc (a b : ascii) : bool := Ascii.eqb a b.

Fixpoint one_of (cs : string) (c : ascii) : bool :=
  match cs with
  | EmptyString => false
  | String d cs' => eqc c d || one_of cs' c
  end.

(** [String.prototype.toLowerCase] on one code unit below 256:
    A-Z, and the Latin-1 capitals U+00C0..U+00DE except U+00D7. *)
Definition toLowerCase_char (c : ascii) : ascii :=
  let n := code c in
  if ((65 <=? n)%N && (n <=? 90)%N)
     || ((192 <=? n)%N && (n <=? 222)%N && negb (n =? 215)%N)
  then ascii_of_N (n + 32) else c.

Fixpoint toLowerCase (s : string) : string :=
  match s with
  | EmptyString => EmptyString
  | String c s' => String (toLowerCase_char c) (toLowerCase s')
  end.

(** [s.split(sep)] for a one-character separator: never empty. *)
Fixpoint split (sep : ascii) (s : string) : list string :=
  match s with
  | EmptyString => [EmptyString]
  | String c s' =>
      if eqc c sep then EmptyString :: split sep s'
      else match split sep s' with
           | p :: ps => String c p :: ps
           | [] => [String c EmptyString]
           end
  end.

(** [parts.pop()]: the last element and the array that remains. *)
Fixpoint pop (parts : list string) : option (string * list string) :=
  match parts with
  | [] => None
  | [p] => Some (p, [])
  | p :: ps =>
      match pop ps with
      | Some (x, rest) => Some (x, p :: rest)
      | None => None
      end
  end.

(** [parts.join(sep)]. *)
Fixpoint join (sep : string) (parts : list string) : string :=
  match parts with
  | [] => ""
  | [p] => p
  | p :: ps => p +:+ sep +:+ join sep ps
  end.

(** [s.startsWith(p)]. *)
Fixpoint startsWith (s p : string) : bool :=
  match p, s with
  | EmptyString, _ => true
  | String _ _, EmptyString => false
  | String a p', String b s' => eqc a b && startsWith s' p'
  end.

(** [s.includes(p)] on strings. *)
Fixpoint includes (s p : string) : bool :=
  startsWith s p ||
  match s with
  | EmptyString => false
  | String _ s' => includes s' p
  end.

Definition eqs (a b : string) : bool := String.eqb a b.

(** [arr.includes(x)] on an array of strings. *)
Definition array_includes (arr : list string) (x : string) : bool :=
  existsb (eqs x) arr.

(** Truthiness of a string: only the empty string is falsy. *)
Definition truthy (s : string) : bool :=
  match s with EmptyString => false | _ => true end.

(** What a property read on an object literal can yield. *)
Inductive value : Type :=
| VString (s : string)
| VFunction (name : string)
| VObjectPrototype.

Definition value_truthy (v : value) : bool :=
  match v with
  | VString s => truthy s
  | VFunction _ | VObjectPrototype => true
  end.

(** Conversion to string, as a template literal does it. *)
Definition value_to_string (v : value) : string :=
  match v with
  | VString s => s
  | VFunction name => "function " +:+ name +:+ "() { [native code] }"
  | VObjectPrototype => "[object Object]"
  end.

(** The properties every object literal inherits from [Object.prototype]. *)
Definition object_prototype : gmap string value :=
  list_to_map
    [ ("constructor", VFunction "Object");
      ("__proto__", VObjectPrototype);
      ("hasOwnProperty", VFunction "hasOwnProperty");
      ("isPrototypeOf", VFunction "isPrototypeOf");
      ("propertyIsEnumerable", VFunction "propertyIsEnumerable");
      ("toLocaleString", VFunction "toLocaleString");
      ("toString", VFunction "toString");
      ("valueOf", VFunction "valueOf");
      ("__defineGetter__", VFunction "__defineGetter__");
      ("__defineSetter__", VFunction "__defineSetter__");
      ("__lookupGetter__", VFunction "__lookupGetter__");
      ("__lookupSetter__", VFunction "__lookupSetter__") ].

(** [obj[key]] on an object literal with string-valued own properties:
    own properties first, then the prototype. *)
Definition get (own : gmap string string) (key : string) : option value :=
  match own !! key with
  | Some s => Some (VString s)
  | None => object_prototype !! key
  end.

End JS.

(** ** Regular expressions, as far as the two routes use them *)

Module Regex.

Inductive regex : Type :=
| Fail
| Eps
| Class (p : ascii -> bool)
| Seq (r1 r2 : regex)
| Alt (r1 r2 : regex)
| Star (r : regex).

Definition Chr (c : ascii) : regex := Class (fun d => JS.eqc d c).
Definition Plus (r : regex) : regex := Seq r (Star r).
(** [r{2,}] *)
Definition AtLeast2 (r : regex) : regex := Seq r (Seq r (Star r)).

Fixpoint nullable (r : regex) : bool :=
  match r with
  | Fail => false
  | Eps => true
  | Class _ => false
  | Seq r1 r2 => nullable r1 && nullable r2
  | Alt r1 r2 => nullable r1 || nullable r2
  | Star _ => true
  end.

(** Brzozowski derivative. *)
Fixpoint deriv (c : ascii) (r : regex) : regex :=
  match r with
  | Fail => Fail
  | Eps => Fail
  | Class p => if p c then Eps else Fail
  | Seq r1 r2 =>
      if nullable r1 then Alt (Seq (deriv c r1) r2) (deriv c r2)
      else Seq (deriv c r1) r2
  | Alt r1 r2 => Alt (deriv c r1) (deriv c r2)
  | Star r1 => Seq (deriv c r1) (Star r1)
  end.

(** [/^r$/.test(s)] *)
Fixpoint test (r : regex) (s : string) : bool :=
  match s with
  | EmptyString => nullable r
  | String c s' => test (deriv c r) s'
  end.

(** The language of a regular expression. *)
Inductive Matches : regex -> string -> Prop :=
| MEps : Matches Eps ""
| MClass p c : p c = true -> Matches (Class p) (String c "")
| MSeq r1 r2 s1 s2 :
    Matches r1 s1 -> Matches r2 s2 -> Matches (Seq r1 r2) (s1 +:+ s2)
| MAltL r1 r2 s : Matches r1 s -> Matches (Alt r1 r2) s
| MAltR r1 r2 s : Matches r2 s -> Matches (Alt r1 r2) s
| MStarNil r : Matches (Star r) ""
| MStarCons r s1 s2 :
    Matches r s1 -> Matches (Star r) s2 -> Matches (Star r) (s1 +:+ s2).

End Regex.

(** ** [handleAWSError] (AWS error handler middleware) *)

Module AwsErrorHandler.

Inductive AWSErrorType : Type :=
| CREDENTIALS
| PERMISSIONS
| RESOURCE_NOT_FOUND
| CONFIGURATION
| NETWORK
| THROTTLING
| UNKNOWN.

(** A thrown [Error]; the handler only reads its [name]. *)
Record Error : Type := mkError { name : string }.

Record AWSErrorResponse : Type := mkAWSErrorResponse {
  type : AWSErrorType;
  message : string;
  service : string;
  originalError : Error;
  timestamp : string
}.

Definition name_is (error : Error) (names : list string) : bool :=
  JS.array_includes names (name error).

Definition classify (error : Error) : AWSErrorType * string :=
  if name_is error ["CredentialsProviderError"; "InvalidAccessKeyId"] then
    (CREDENTIALS, "Invalid AWS credentials. Please check your access keys.")
  else if name_is error ["AccessDenied"; "UnauthorizedOperation"] then
    (PERMISSIONS, "Insufficient permissions to perform this operation.")
  else if name_is error ["NoSuchBucket"; "NoSuchKey"; "ResourceNotFoundException"] then
    (RESOURCE_NOT_FOUND, "The requested AWS resource was not found.")
  else if name_is error ["ValidationException"; "InvalidParameter"] then
    (CONFIGURATION, "Invalid configuration for AWS service.")
  else if name_is error ["NetworkingError"; "TimeoutError"] then
    (NETWORK, "Network error when connecting to AWS services.")
  else if name_is error ["ThrottlingException"; "TooManyRequestsException"] then
    (THROTTLING, "Request was throttled by AWS. Please try again later.")
  else (UNKNOWN, "An unknown error occurred with AWS services").

Definition service_context (service : string) : string :=
  if JS.eqs service "S3" then " This may affect file storage and history features."
  else if JS.eqs service "SES" then " This may affect email verification features."
  else if JS.eqs service "Athena" then " This may affect bulk email lookup features."
  else if JS.eqs service "DynamoDB" then " This may affect caching and performance."
  else "".

(** [now] is the value of [new Date().toISOString()] at the call. *)
Definition handleAWSError (now : string) (error : Error) (service : string)
  : AWSErrorResponse :=
  let '(type, message) := classify error in
  {| type := type;
     message := message +:+ service_context service;
     service := service;
     originalError := error;
     timestamp := now |}.

End AwsErrorHandler.

(** ** Server side effects: oracles, trace, exceptions *)

Module Server.

Import AwsErrorHandler.

Record MxRecord : Type := mkMx { exchange : string; priority : nat }.

(** The calls a handler can make to its collaborators: the DNS lookup, the
    creation of the provider client, and the provider request. *)
Inductive Event : Type :=
| ResolveMx (domain : string)
| InitSES
| SesSend (address : string).

(** What the outside world answers.  [inl e] is a rejected promise or a
    thrown exception. *)
Record Env : Type := mkEnv {
  auth : option string;
  resolveMx : string -> Error + list MxRecord;
  initSESClient : Error + unit;
  sesSend : string -> Error + unit;
  clock : string
}.

Inductive result (A : Type) : Type :=
| Ok (a : A)
| Throw (e : Error).
Arguments Ok {A} a.
Arguments Throw {A} e.

(** Computations that may throw and that log their network calls. *)
Definition IO (A : Type) : Type := list Event -> result A * list Event.

Definition ret {A} (a : A) : IO A := fun tr => (Ok a, tr).

Definition bind {A B} (m : IO A) (k : A -> IO B) : IO B :=
  fun tr =>
    match m tr with
    | (Ok a, tr') => k a tr'
    | (Throw e, tr') => (Throw e, tr')
    end.

Definition try_catch {A} (m : IO A) (handler : Error -> IO A) : IO A :=
  fun tr =>
    match m tr with
    | (Ok a, tr') => (Ok a, tr')
    | (Throw e, tr') => handler e tr'
    end.

(** Perform a call: log it, then deliver the oracle's answer. *)
Definition call {A} (ev : Event) (answer : Error + A) : IO A :=
  fun tr =>
    match answer with
    | inr a => (Ok a, tr ++ [ev])
    | inl e => (Throw e, tr ++ [ev])
    end.

Declare Scope io_scope.
Delimit Scope io_scope with io.
Notation "'let*' x ':=' m 'in' k" := (bind m (fun x => k))
  (at level 10, x name, m at level 100, k at level 200) : io_scope.

End Server.

(** ** The verification route, full pipeline *)

Module VerifyEmail.

Import AwsErrorHandler Server Regex.
Local Open Scope io_scope.

Definition commonDomainTypos : gmap string string :=
  list_to_map
    [ ("gamil.com", "gmail.com");
      ("gmial.com", "gmail.com");
      ("gmai.com", "gmail.com");
      ("gmal.com", "gmail.com");
      ("hotmal.com", "hotmail.com");
      ("hotmial.com", "hotmail.com");
      ("hotmil.com", "hotmail.com");
      ("outlok.com", "outlook.com");
      ("outllok.com", "outlook.com");
      ("yahho.com", "yahoo.com");
      ("yaho.com", "yahoo.com") ].

Definition commonTldTypos : gmap string string :=
  list_to_map
    [ ("con", "com");
      ("cmo", "com");
      ("ocm", "com");
      ("om", "com");
      ("nte", "net");
      ("ogr", "org") ].

(** [if (table[key]) ...]: the value read, when it is truthy. *)
Definition truthy_entry (table : gmap string string) (key : string)
  : option JS.value :=
  match JS.get table key with
  | Some v => if JS.value_truthy v then Some v else None
  | None => None
  end.

Definition suggestEmailCorrection (email : string) : option string :=
  match JS.split "@" email with
  | [localPart; domainPart] =>
      match truthy_entry commonDomainTypos (JS.toLowerCase domainPart) with
      | Some v => Some (localPart +:+ "@" +:+ JS.value_to_string v)
      | None =>
          let domainParts := JS.split "." domainPart in
          if (2 <=? length domainParts)%nat then
            match JS.pop domainParts with
            | Some (tld, rest) =>
                let mainDomain := JS.join "." rest in
                match truthy_entry commonTldTypos (JS.toLowerCase tld) with
                | Some v =>
                    Some (localPart +:+ "@" +:+ mainDomain +:+ "."
                            +:+ JS.value_to_string v)
                | None => None
                end
            | None => None
            end
          else None
      end
  | _ => None
  end.

Definition rolePrefixes : list string :=
  [ "admin"; "administrator"; "webmaster"; "postmaster"; "hostmaster";
    "support"; "help"; "contact"; "info"; "information"; "sales"; "marketing";
    "abuse"; "security"; "privacy"; "legal"; "billing"; "hr"; "jobs";
    "careers"; "feedback"; "media"; "press"; "noreply"; "no-reply";
    "dev"; "test"; "demo"; "office"; "team"; "hello"; "mail" ].

Definition isRoleBasedEmail (email : string) : bool :=
  match JS.split "@" email !! 0%nat with
  | Some part =>
      let localPart := JS.toLowerCase part in
      if JS.truthy localPart
      then existsb (fun prefix => JS.startsWith localPart prefix) rolePrefixes
      else false
  | None => false
  end.

Definition is_alpha (c : ascii) : bool :=
  JS.in_range "a" "z" c || JS.in_range "A" "Z" c.
Definition is_digit (c : ascii) : bool := JS.in_range "0" "9" c.

(** [[a-zA-Z0-9._%+-]] *)
Definition local_class (c : ascii) : bool :=
  is_alpha c || is_digit c || JS.one_of "._%+-" c.
(** [[a-zA-Z0-9.-]] *)
Definition domain_class (c : ascii) : bool :=
  is_alpha c || is_digit c || JS.one_of ".-" c.

(** [/^[a-zA-Z0-9._%+-]+@[a-zA-Z0-9.-]+\.[a-zA-Z]{2,}$/] *)
Definition emailRegex : regex :=
  Seq (Plus (Class local_class))
    (Seq (Chr "@")
       (Seq (Plus (Class domain_class))
          (Seq (Chr ".") (AtLeast2 (Class is_alpha))))).

Definition isValidEmail (email : string) : bool := test emailRegex email.

Definition disposableDomains : list string :=
  [ "mailinator.com"; "tempmail.com"; "temp-mail.org"; "guerrillamail.com";
    "throwawaymail.com"; "10minutemail.com"; "yopmail.com"; "trashmail.com";
    "dispostable.com"; "sharklasers.com"; "grr.la"; "guerrillamail.info";
    "fakeinbox.com"; "mailnesia.com"; "mailcatch.com"; "tempr.email";
    "tempmail.net"; "discard.email"; "maildrop.cc"; "getairmail.com" ].

Definition isDisposableEmail (email : string) : bool :=
  match JS.split "@" email !! 1%nat with
  | Some part => JS.array_includes disposableDomains (JS.toLowerCase part)
  | None => false
  end.

Definition hasMxRecords (env : Env) (domain : string) : IO bool :=
  try_catch
    (let* records := call (ResolveMx domain) (resolveMx env domain) in
     ret (0 <? length records)%nat)
    (fun _ => ret false).

Definition verifyEmailWithSES (env : Env) (email : string) : IO bool :=
  if negb (isValidEmail email) then ret false
  else
    try_catch
      (let* _ := call (SesSend email) (sesSend env email) in ret true)
      (fun _ => ret false).

Definition personalDomains : list string :=
  ["gmail.com"; "outlook.com"; "hotmail.com"; "yahoo.com"].

Definition classifyQuality (domain : string) : string :=
  if JS.array_includes personalDomains (JS.toLowerCase domain)
  then "personal" else "business".

Record Details : Type := mkDetails {
  format : option bool;
  domain : option bool;
  disposable : option bool;
  mxRecords : option bool;
  roleBased : option bool;
  verified : option bool;
  quality : option string;
  error : option string;
  errorType : option AWSErrorType;
  timestamp : option string
}.

Record Response : Type := mkResponse {
  status : nat;
  unauthorized : option string;
  valid : option bool;
  message : option string;
  email : option string;
  isVerified : option bool;
  emailQuality : option string;
  suggestion : JS.opt string;
  details : option Details;
  verifiedAt : option string;
  confidence : option string
}.

(** The [return] statement a response comes from. *)
Inductive Exit : Type :=
| Unauthorized
| EmailRequired
| InvalidFormat
| InvalidDomain
| NoMailServers
| Disposable
| FullPipeline
| ServerError.

Definition nullable_string (o : option string) : JS.opt string :=
  match o with Some s => JS.Def s | None => JS.Null end.

Definition checks (f d disp mx : bool) (role : option bool) : Details :=
  {| format := Some f; domain := Some d; disposable := Some disp;
     mxRecords := Some mx; roleBased := role; verified := None;
     quality := None; error := None; errorType := None;
     timestamp := None |}.

(** The body of the [try] block, after the request body was read. *)
Definition pipeline (env : Env) (address : string) : IO (Exit * Response) :=
  if negb (JS.truthy address) then
    ret (EmailRequired,
         {| status := 400; unauthorized := None;
            valid := Some false; message := Some "Email is required";
            email := None; isVerified := None; emailQuality := None;
            suggestion := JS.Undefined; details := None;
            verifiedAt := None; confidence := None |})
  else if negb (isValidEmail address) then
    let suggested := suggestEmailCorrection address in
    ret (InvalidFormat,
         {| status := 200; unauthorized := None;
            valid := Some false; message := Some "Invalid email format";
            email := None; isVerified := None; emailQuality := None;
            suggestion := nullable_string suggested;
            details := Some (checks false false false false
                               (Some (isRoleBasedEmail address)));
            verifiedAt := None; confidence := None |})
  else
    match JS.split "@" address !! 1%nat with
    | Some (String c d) =>
        let domainName := String c d in
        let isDisposable := isDisposableEmail address in
        let isRole := isRoleBasedEmail address in
        let suggested := suggestEmailCorrection address in
        let* hasMx := hasMxRecords env domainName in
        let quality := classifyQuality domainName in
        if negb hasMx then
          ret (NoMailServers,
               {| status := 200; unauthorized := None;
                  valid := Some false;
                  message := Some "Email domain does not have valid mail servers";
                  email := None; isVerified := Some false;
                  emailQuality := Some quality;
                  suggestion := nullable_string suggested;
                  details := Some (checks true true isDisposable false
                                     (Some isRole));
                  verifiedAt := None; confidence := None |})
        else if isDisposable then
          ret (Disposable,
               {| status := 200; unauthorized := None;
                  valid := Some false;
                  message := Some "Disposable email addresses are not allowed";
                  email := None; isVerified := Some false;
                  emailQuality := Some quality;
                  suggestion := nullable_string suggested;
                  details := Some (checks true true true hasMx (Some isRole));
                  verifiedAt := None; confidence := None |})
        else
          let* _ := call InitSES (initSESClient env) in
          let* verifiedBySES := verifyEmailWithSES env address in
          let verificationDetails :=
            {| format := Some true; domain := Some true;
               disposable := Some isDisposable; mxRecords := Some hasMx;
               roleBased := Some isRole; verified := Some verifiedBySES;
               quality := Some quality; error := None; errorType := None;
               timestamp := None |} in
          let isValid := verifiedBySES && negb isDisposable in
          let text :=
            if isValid then "Email appears to be valid and deliverable"
            else if isDisposable then
              "Email appears to be from a disposable domain"
            else if negb verifiedBySES then
              "Email verification failed. The email address may not exist or may be unreachable."
            else "" in
          ret (FullPipeline,
               {| status := 200; unauthorized := None;
                  valid := Some isValid; message := Some text;
                  email := Some address; isVerified := Some verifiedBySES;
                  emailQuality := Some quality;
                  suggestion := nullable_string suggested;
                  details := Some verificationDetails;
                  verifiedAt := Some (clock env);
                  confidence :=
                    Some (if verifiedBySES then "high"
                          else if hasMx then "medium" else "low") |})
    | _ =>
        ret (InvalidDomain,
             {| status := 200; unauthorized := None;
                valid := Some false; message := Some "Invalid email domain";
                email := None; isVerified := None; emailQuality := None;
                suggestion := JS.Undefined;
                details := Some (checks true false false false None);
                verifiedAt := None; confidence := None |})
    end.

(** [POST], for a request whose JSON body has the string [address] in its
    [email] field (an absent field is falsy like the empty string).
    The result is the response, the [return] it came from, and the
    network calls made, in order. *)
Definition POST (env : Env) (address : string)
  : (Exit * Response) * list Event :=
  match auth env with
  | Some (String _ _) =>
      match pipeline env address [] with
      | (Ok out, tr) => (out, tr)
      | (Throw e, tr) =>
          let handledError := handleAWSError (clock env) e "SES" in
          ((ServerError,
            {| status := 500; unauthorized := None;
               valid := Some false;
               message := Some "An error occurred while verifying the email";
               email := None; isVerified := None; emailQuality := None;
               suggestion := JS.Undefined;
               details :=
                 Some {| format := Some (isValidEmail address);
                         domain := None; disposable := None;
                         mxRecords := None;
                         roleBased := Some (isRoleBasedEmail address);
                         verified := None; quality := None;
                         error := Some (AwsErrorHandler.message handledError);
                         errorType := Some (AwsErrorHandler.type handledError);
                         timestamp :=
                           Some (AwsErrorHandler.timestamp handledError) |};
               verifiedAt := None; confidence := None |}), tr)
      end
  | _ =>
      ((Unauthorized,
        {| status := 401; unauthorized := Some "Unauthorized";
           valid := None; message := None; email := None;
           isVerified := None; emailQuality := None;
           suggestion := JS.Undefined; details := None;
           verifiedAt := None; confidence := None |}), [])
  end.

Definition response_of (out : (Exit * Response) * list Event) : Response :=
  snd (fst out).
Definition exit_of (out : (Exit * Response) * list Event) : Exit :=
  fst (fst out).
Definition calls_of (out : (Exit * Response) * list Event) : list Event :=
  snd out.

End VerifyEmail.

(** ** The verification route, basic version *)

Module VerifyEmailBasic.

Import AwsErrorHandler Server Regex.
Local Open Scope io_scope.

(** [\s] on code units below 256. *)
Definition is_space (c : ascii) : bool :=
  JS.in_range "009" "013" c || JS.eqc c " " || JS.eqc c "160".

(** [[^\s@]] *)
Definition plain (c : ascii) : bool := negb (is_space c || JS.eqc c "@").

(** [/^[^\s@]+@[^\s@]+\.[^\s@]+$/] *)
Definition emailRegex : regex :=
  Seq (Plus (Class plain))
    (Seq (Chr "@")
       (Seq (Plus (Class plain)) (Seq (Chr ".") (Plus (Class plain))))).

Definition isValidEmail (email : string) : bool := test emailRegex email.

Definition verifyEmailWithSES (env : Env) (email : string) : IO bool :=
  if negb (isValidEmail email) then ret false
  else
    try_catch
      (let* _ := call (SesSend email) (sesSend env email) in ret true)
      (fun _ => ret false).

Definition personalDomains : list string :=
  ["gmail.com"; "outlook.com"; "hotmail.com"; "yahoo.com"].

(** No lower-casing here. *)
Definition classifyQuality (domain : string) : string :=
  if JS.array_includes personalDomains domain
  then "personal" else "business".

Record Response : Type := mkResponse {
  status : nat;
  error : option string;
  details : option string;
  errorType : option AWSErrorType;
  timestamp : option string;
  email : option string;
  isVerified : option bool;
  emailQuality : JS.opt string;
  verifiedAt : option string
}.

Definition failure (st : nat) (text : string) : Response :=
  {| status := st; error := Some text; details := None; errorType := None;
     timestamp := None; email := None; isVerified := None;
     emailQuality := JS.Undefined; verifiedAt := None |}.

Definition pipeline (env : Env) (address : string) : IO Response :=
  if negb (JS.truthy address) then ret (failure 400 "Email is required")
  else if negb (isValidEmail address) then
    ret (failure 400 "Invalid email format")
  else
    let* _ := call InitSES (initSESClient env) in
    let* verifiedBySES := verifyEmailWithSES env address in
    let quality :=
      match JS.split "@" address !! 1%nat with
      | Some (String c d) => JS.Def (classifyQuality (String c d))
      | _ => JS.Null
      end in
    ret {| status := 200; error := None; details := None;
           errorType := None; timestamp := None;
           email := Some address; isVerified := Some verifiedBySES;
           emailQuality := quality; verifiedAt := Some (clock env) |}.

Definition POST (env : Env) (address : string) : Response * list Event :=
  match auth env with
  | Some (String _ _) =>
      match pipeline env address [] with
      | (Ok response, tr) => (response, tr)
      | (Throw e, tr) =>
          let handledError := handleAWSError (clock env) e "SES" in
          ({| status := 500;
              error := Some "An error occurred while verifying the email";
              details := Some (AwsErrorHandler.message handledError);
              errorType := Some (AwsErrorHandler.type handledError);
              timestamp := Some (AwsErrorHandler.timestamp handledError);
              email := None; isVerified := None;
              emailQuality := JS.Undefined; verifiedAt := None |}, tr)
      end
  | _ => (failure 401 "Unauthorized", [])
  end.

End VerifyEmailBasic.

(** ** The bulk-result table: records, effects, callbacks *)

Module BulkResults.

Record BulkResultRecord : Type := mkRecord {
  firstName : string;
  lastName : string;
  linkedin : string;
  companyName : string;
  foundEmail : option string;
  personalEmails : option (list string);
  isVerified : JS.opt bool;
  emailQuality : JS.opt string;
  retryCount : option nat;
  lastRetry : option N
}.

(** JSON bodies of the two endpoints, as far as the callbacks read them. *)
Record VerifyData : Type := mkVerifyData {
  data_isVerified : JS.opt bool;
  data_emailQuality : JS.opt string;
  data_error : JS.opt string
}.

Record FindData : Type := mkFindData {
  data_email : JS.opt string;
  data_personalEmails : JS.opt (list string)
}.

(** [fetch] followed by [response.json()]: either of them throws, or
    there is a response with its [ok] flag and its body. *)
Inductive Fetched (D : Type) : Type :=
| Throws
| Responds (ok : bool) (data : D).
Arguments Throws {D}.
Arguments Responds {D} ok data.

Inductive Body : Type :=
| VerifyBody (email : string)
| FindBody (firstName lastName linkedin companyName : string).

Inductive ToastKind : Type := Plain | Info | Success | Failure.

(** What a callback does to the outside, in order. *)
Inductive Effect : Type :=
| Fetch (url : string) (body : Body)
| SetResults (rs : list BulkResultRecord)
| SetResultsBeyondEnd (index : nat)
| SetVerifyingEmail (i : option nat)
| SetVerifyingBatch (b : bool)
| SetRetryingEmail (i : option nat)
| Toast (kind : ToastKind) (text : string).

(** The servers behind [fetch] and the clock.  [verifyApi i email] is the
    answer to the request for [email] made in iteration [i] of a run. *)
Record Net : Type := mkNet {
  verifyApi : nat -> string -> Fetched VerifyData;
  findApi : Body -> Fetched FindData;
  today : N
}.

Definition truthy_opt (o : JS.opt string) : bool :=
  match o with JS.Def s => JS.truthy s | _ => false end.

Definition truthy_email (o : option string) : bool :=
  match o with Some s => JS.truthy s | None => false end.

Definition is_true (o : JS.opt bool) : bool :=
  match o with JS.Def true => true | _ => false end.

Definition is_undefined {A} (o : JS.opt A) : bool :=
  match o with JS.Undefined => true | _ => false end.

(** [data.emailQuality || current] *)
Definition or_else (o current : JS.opt string) : JS.opt string :=
  if truthy_opt o then o else current.

(** [{ ...r, isVerified: data.isVerified,
       emailQuality: data.emailQuality || r.emailQuality }] *)
Definition with_verification (data : VerifyData) (r : BulkResultRecord)
  : BulkResultRecord :=
  {| firstName := firstName r; lastName := lastName r;
     linkedin := linkedin r; companyName := companyName r;
     foundEmail := foundEmail r; personalEmails := personalEmails r;
     isVerified := data_isVerified data;
     emailQuality := or_else (data_emailQuality data) (emailQuality r);
     retryCount := retryCount r; lastRetry := lastRetry r |}.

(** [arr[index] = f(arr[index])] for an index inside the array. *)
Definition write_at (rs : list BulkResultRecord) (index : nat)
    (f : BulkResultRecord -> BulkResultRecord)
  : option (list BulkResultRecord) :=
  match rs !! index with
  | Some cur => Some (<[index := f cur]> rs)
  | None => None
  end.

(** [setResults] of an array written at [index].  A write beyond the end
    makes a sparse array whose new element lacks the identity fields;
    it is recorded as such, not as a list of records. *)
Definition publish_written (rs : list BulkResultRecord) (index : nat)
    (f : BulkResultRecord -> BulkResultRecord) : Effect :=
  match write_at rs index f with
  | Some rs' => SetResults rs'
  | None => SetResultsBeyondEnd index
  end.

(** [verifyEmail(email, index)] with [results] as the callback closed
    over it. *)
Definition verifyEmail (net : Net) (results : option (list BulkResultRecord))
    (email : string) (index : nat) : list Effect :=
  if negb (JS.truthy email) then []
  else
    [SetVerifyingEmail (Some index);
     Fetch "/api/verify-email" (VerifyBody email)] ++
    match verifyApi net 0 email, results with
    | Responds true data, Some rs =>
        [publish_written rs index (with_verification data);
         Toast Plain (if is_true (data_isVerified data)
                      then "Email verified successfully"
                      else "Email verification failed")]
    | Responds _ data, _ =>
        [Toast Failure (match data_error data with
                        | JS.Def (String c e) => String c e
                        | _ => "Failed to verify email"
                        end)]
    | Throws, _ => [Toast Failure "Verification error. Please try again."]
    end ++
    [SetVerifyingEmail None].

(** [record.foundEmail && record.isVerified === undefined] *)
Definition awaits_verification (r : BulkResultRecord) : bool :=
  truthy_email (foundEmail r) && is_undefined (isVerified r).

Definition emailsToVerify (rs : list BulkResultRecord) : list string :=
  omap foundEmail (List.filter awaits_verification rs).

(** [arr.findIndex(p)]; [None] stands for -1. *)
Fixpoint findIndex {A} (p : A -> bool) (l : list A) : option nat :=
  match l with
  | [] => None
  | x :: l' => if p x then Some 0 else S <$> findIndex p l'
  end.

Definition has_email (email : string) (r : BulkResultRecord) : bool :=
  match foundEmail r with
  | Some e => JS.eqs e email
  | None => false
  end.

(** The variables of the loop of [verifyAllEmails]. *)
Record Batch : Type := mkBatch {
  updatedResults : list BulkResultRecord;
  verifiedCount : nat;
  failedCount : nat;
  effects : list Effect
}.

Definition emit (e : Effect) (b : Batch) : Batch :=
  {| updatedResults := updatedResults b; verifiedCount := verifiedCount b;
     failedCount := failedCount b; effects := effects b ++ [e] |}.

Definition count_failed (b : Batch) : Batch :=
  {| updatedResults := updatedResults b; verifiedCount := verifiedCount b;
     failedCount := S (failedCount b); effects := effects b |}.

Definition count_verified (b : Batch) : Batch :=
  {| updatedResults := updatedResults b;
     verifiedCount := S (verifiedCount b);
     failedCount := failedCount b; effects := effects b |}.

(** [updatedResults[recordIndex] = {...}].  [recordIndex] is an index of
    [results], of which [updatedResults] is a copy of the same length, so
    the write is always inside the array. *)
Definition store (recordIndex : nat) (data : VerifyData) (b : Batch) : Batch :=
  {| updatedResults :=
       match write_at (updatedResults b) recordIndex (with_verification data) with
       | Some rs' => rs'
       | None => updatedResults b
       end;
     verifiedCount := verifiedCount b; failedCount := failedCount b;
     effects := effects b |}.

(** One iteration of the loop, for [email = emailsToVerify[i]]. *)
Definition iteration (net : Net) (results : list BulkResultRecord)
    (total i : nat) (email : string) (b : Batch) : Batch :=
  match findIndex (has_email email) results with
  | None => b
  | Some recordIndex =>
      let b1 := emit (Fetch "/api/verify-email" (VerifyBody email)) b in
      let b2 :=
        match verifyApi net i email with
        | Responds true data =>
            let b' := store recordIndex data b1 in
            if is_true (data_isVerified data) then count_verified b'
            else count_failed b'
        | Responds false _ => count_failed b1
        | Throws => count_failed b1
        end in
      if (i mod 5 =? 0)%nat || (i =? total - 1)%nat
      then emit (SetResults (updatedResults b2)) b2
      else b2
  end.

(** [for (let i = ...; i < emailsToVerify.length; i++)], from index [i]
    on, with [emails] the addresses not yet visited. *)
Fixpoint loop (net : Net) (results : list BulkResultRecord)
    (total i : nat) (emails : list string) (b : Batch) : Batch :=
  match emails with
  | [] => b
  | email :: rest =>
      loop net results total (S i) rest (iteration net results total i email b)
  end.

Definition pretty_nat (n : nat) : string := pretty n.

(** [verifyAllEmails()].  The result is the state of the loop variables
    when the function returns; [None] when it returns before the loop. *)
Definition verifyAllEmails (net : Net) (results : option (list BulkResultRecord))
  : list Effect * option Batch :=
  match results with
  | None | Some [] => ([], None)
  | Some rs =>
      let emails := emailsToVerify rs in
      match emails with
      | [] => ([Toast Info "No unverified emails to process"], None)
      | _ =>
          let total := length emails in
          let start :=
            {| updatedResults := rs; verifiedCount := 0; failedCount := 0;
               effects :=
                 [SetVerifyingBatch true;
                  Toast Info ("Verifying " +:+ pretty_nat total +:+ " emails...")] |} in
          let b := loop net rs total 0 emails start in
          let b := emit (SetResults (updatedResults b)) b in
          let b := emit (SetVerifyingBatch false) b in
          let b :=
            if (0 <? verifiedCount b)%nat then
              emit (Toast Success
                      ("Verified " +:+ pretty_nat (verifiedCount b) +:+ " emails" +:+
                       (if (0 <? failedCount b)%nat
                        then ", " +:+ pretty_nat (failedCount b) +:+ " failed"
                        else ""))) b
            else if (0 <? failedCount b)%nat then
              emit (Toast Failure
                      ("Failed to verify " +:+ pretty_nat (failedCount b) +:+ " emails")) b
            else b in
          (effects b, Some b)
      end
  end.

(** [data.email || null] *)
Definition email_or_null (o : JS.opt string) : option string :=
  match o with
  | JS.Def (String c e) => Some (String c e)
  | _ => None
  end.

(** [data.personalEmails || []] *)
Definition emails_or_empty (o : JS.opt (list string)) : list string :=
  match o with JS.Def l => l | _ => [] end.

(** [{ ...cur, foundEmail: ..., personalEmails: ..., isVerified: undefined,
       emailQuality: undefined, retryCount: (record.retryCount || 0) + 1,
       lastRetry: new Date() }] *)
Definition retried (now : N) (record : BulkResultRecord) (data : FindData)
    (cur : BulkResultRecord) : BulkResultRecord :=
  {| firstName := firstName cur; lastName := lastName cur;
     linkedin := linkedin cur; companyName := companyName cur;
     foundEmail := email_or_null (data_email data);
     personalEmails := Some (emails_or_empty (data_personalEmails data));
     isVerified := JS.Undefined;
     emailQuality := JS.Undefined;
     retryCount := Some (default 0 (retryCount record) + 1);
     lastRetry := Some now |}.

Definition find_request (record : BulkResultRecord) : Body :=
  FindBody (firstName record) (lastName record) (linkedin record)
    (companyName record).

Definition retry_toast (data : FindData) : Effect :=
  match email_or_null (data_email data) with
  | Some e => Toast Success ("Found: " +:+ e)
  | None =>
      match data_personalEmails data with
      | JS.Def (p :: ps) =>
          Toast Success ("Found " +:+ pretty_nat (length (p :: ps))
                           +:+ " personal email(s)")
      | _ => Toast Failure "No email found on retry"
      end
  end.

(** [retryFindEmail(record, index)] *)
Definition retryFindEmail (net : Net) (results : option (list BulkResultRecord))
    (record : BulkResultRecord) (index : nat) : list Effect :=
  [SetRetryingEmail (Some index);
   Fetch "/api/find-email" (find_request record)] ++
  match findApi net (find_request record), results with
  | Responds true data, Some rs =>
      [publish_written rs index (retried (today net) record data);
       retry_toast data]
  | Responds _ _, _ => [Toast Failure "Failed to retry lookup"]
  | Throws, _ => [Toast Failure "Error during retry"]
  end ++
  [SetRetryingEmail None].

Inductive FilterStatus : Type :=
| FilterAll
| FilterVerified
| FilterUnverified
| FilterNotFound.

Definition is_false (o : JS.opt bool) : bool :=
  match o with JS.Def false => true | _ => false end.

Definition lower_includes (search : string) (s : string) : bool :=
  JS.includes (JS.toLowerCase s) search.

(** The predicate of [filteredResults]. *)
Definition shown (filterStatus : FilterStatus) (searchTerm : string)
    (record : BulkResultRecord) : bool :=
  match filterStatus with
  | FilterVerified => is_true (isVerified record)
  | FilterUnverified => is_false (isVerified record)
  | FilterNotFound => negb (truthy_email (foundEmail record))
  | FilterAll => true
  end &&
  if JS.truthy searchTerm then
    let search := JS.toLowerCase searchTerm in
    lower_includes search (firstName record)
    || lower_includes search (lastName record)
    || lower_includes search (companyName record)
    || match foundEmail record with
       | Some e => lower_includes search e
       | None => false
       end
    || match personalEmails record with
       | Some l => existsb (lower_includes search) l
       | None => false
       end
  else true.

Definition filteredResults (results : option (list BulkResultRecord))
    (filterStatus : FilterStatus) (searchTerm : string)
  : list BulkResultRecord :=
  match results with
  | None => []
  | Some rs => List.filter (shown filterStatus searchTerm) rs
  end.

(** The Retry button of table row [row]:
    [filteredResults().map((record, index) => ...
       onClick={() => retryFindEmail(record, index)})]. *)
Definition clickRetry (net : Net) (results : option (list BulkResultRecord))
    (filterStatus : FilterStatus) (searchTerm : string) (row : nat)
  : list Effect :=
  match filteredResults results filterStatus searchTerm !! row with
  | Some record => retryFindEmail net results record row
  | None => []
  end.

(** The Verify button of table row [row], shown when the row has an
    address. *)
Definition clickVerify (net : Net) (results : option (list BulkResultRecord))
    (filterStatus : FilterStatus) (searchTerm : string) (row : nat)
  : list Effect :=
  match filteredResults results filterStatus searchTerm !! row with
  | Some record =>
      match foundEmail record with
      | Some e => if JS.truthy e then verifyEmail net results e row else []
      | None => []
      end
  | None => []
  end.

(** The [results] state once the effects have been applied: the last
    array handed to [setResults], if any. *)
Definition apply_effect (st : option (list BulkResultRecord)) (e : Effect)
  : option (list BulkResultRecord) :=
  match e with
  | SetResults rs => Some rs
  | _ => st
  end.

Definition results_after (results : option (list BulkResultRecord))
    (effs : list Effect) : option (list BulkResultRecord) :=
  fold_left apply_effect effs results.

Definition is_fetch (e : Effect) : bool :=
  match e with Fetch _ _ => true | _ => false end.

Definition is_publish (e : Effect) : bool :=
  match e with SetResults _ | SetResultsBeyondEnd _ => true | _ => false end.

(** Number of remote calls among the effects. *)
Definition remote_calls (effs : list Effect) : nat :=
  length (List.filter is_fetch effs).

End BulkResults.

(** ** Pure readings of the oracles, inputs of the scenarios *)

Module Scenario.

Import AwsErrorHandler Server.

(** What [hasMxRecords] returns, read off the resolver's answer. *)
Definition has_mx (env : Env) (domain : string) : bool :=
  match resolveMx env domain with
  | inr records => (0 <? length records)%nat
  | inl _ => false
  end.

(** What [verifyEmailWithSES] returns for a well-formed address. *)
Definition ses_accepts (env : Env) (address : string) : bool :=
  match sesSend env address with
  | inr _ => true
  | inl _ => false
  end.

(** [auth()] gave a user id. *)
Definition signed_in (env : Env) : Prop :=
  exists c u, auth env = Some (String c u).

Definition all_chars (p : ascii -> bool) (s : string) : bool :=
  forallb p (list_ascii_of_string s).

Definition not_at (c : ascii) : bool := negb (JS.eqc c "@").
Definition not_dot (c : ascii) : bool := negb (JS.eqc c ".").

(** A signed-in user; every domain has one mail server unless listed in
    [dead]; SES accepts unless listed in [refused]. *)
Definition world (dead refused : list string) : Env :=
  {| auth := Some "user_1";
     resolveMx := fun d =>
       if JS.array_includes dead d then inr []
       else inr [{| exchange := "mx." +:+ d; priority := 10 |}];
     initSESClient := inr tt;
     sesSend := fun a =>
       if JS.array_includes refused a
       then inl {| name := "MessageRejected" |} else inr tt;
     clock := "2025-01-01T00:00:00.000Z" |}.

(** A resolver that fails for every domain. *)
Definition broken_dns : Env :=
  {| auth := Some "user_1";
     resolveMx := fun _ => inl {| name := "ENOTFOUND" |};
     initSESClient := inr tt;
     sesSend := fun _ => inr tt;
     clock := "2025-01-01T00:00:00.000Z" |}.

(** [A-Z] *)
Definition is_upper (c : ascii) : bool := JS.in_range "A" "Z" c.
Definition not_upper (c : ascii) : bool := negb (is_upper c).

(** The key is neither an own property of the table nor inherited. *)
Definition unknown_key (table : gmap string string) (key : string) : Prop :=
  table !! key = None /\ key <> "constructor" /\ key <> "__proto__".

(** The domain has no mail server: the lookup finds none, or fails. *)
Definition mx_absent (env : Env) (domain : string) : Prop :=
  resolveMx env domain = inr [] \/ exists e, resolveMx env domain = inl e.

Definition absent_or_false (o : option bool) : Prop :=
  o = None \/ o = Some false.

(** The response the specification promises for a malformed address:
    not valid, [format] false, every other detail false or absent, and
    no network call. *)
Definition malformed_as_specified
    (out : (VerifyEmail.Exit * VerifyEmail.Response) * list Event) : Prop :=
  VerifyEmail.valid (VerifyEmail.response_of out) = Some false /\
  (exists d,
      VerifyEmail.details (VerifyEmail.response_of out) = Some d /\
      VerifyEmail.format d = Some false /\
      absent_or_false (VerifyEmail.domain d) /\
      absent_or_false (VerifyEmail.disposable d) /\
      absent_or_false (VerifyEmail.mxRecords d) /\
      absent_or_false (VerifyEmail.roleBased d) /\
      absent_or_false (VerifyEmail.verified d)) /\
  VerifyEmail.calls_of out = [].

(** The response the specification promises when the domain has no mail
    server: not valid, confidence "low", the no-mail-servers message, and
    the provider not called. *)
Definition no_mx_as_specified
    (out : (VerifyEmail.Exit * VerifyEmail.Response) * list Event) : Prop :=
  VerifyEmail.valid (VerifyEmail.response_of out) = Some false /\
  VerifyEmail.confidence (VerifyEmail.response_of out) = Some "low" /\
  VerifyEmail.message (VerifyEmail.response_of out)
    = Some "Email domain does not have valid mail servers" /\
  (forall a, ~ In (SesSend a) (VerifyEmail.calls_of out)).

End Scenario.

(** ** Batches and servers of the scenarios *)

Module BulkScenario.

Import BulkResults.

Definition person (first : string) (address : option string)
    (checked : JS.opt bool) (retries : option nat) : BulkResultRecord :=
  {| firstName := first; lastName := "Doe"; linkedin := "";
     companyName := "Corp"; foundEmail := address; personalEmails := None;
     isVerified := checked; emailQuality := JS.Undefined;
     retryCount := retries; lastRetry := None |}.

(** The verification endpoint answers 200 with [isVerified: false]; the
    discovery endpoint finds "new@corp.com". *)
Definition rejecting : Net :=
  {| verifyApi := fun _ _ =>
       Responds true {| data_isVerified := JS.Def false;
                        data_emailQuality := JS.Def "business";
                        data_error := JS.Undefined |};
     findApi := fun _ =>
       Responds true {| data_email := JS.Def "new@corp.com";
                        data_personalEmails := JS.Undefined |};
     today := 1700000000%N |}.

(** Both endpoints are unreachable. *)
Definition offline : Net :=
  {| verifyApi := fun _ _ => Throws;
     findApi := fun _ => Throws;
     today := 1700000000%N |}.

Definition carol : BulkResultRecord :=
  person "Carol" (Some "team@corp.com") (JS.Def true) None.
Definition dave : BulkResultRecord :=
  person "Dave" (Some "team@corp.com") JS.Undefined None.

Definition alice : BulkResultRecord :=
  person "Alice" (Some "alice@corp.com") (JS.Def false) (Some 3).
Definition bob : BulkResultRecord :=
  person "Bob" (Some "bob@corp.com") (JS.Def true) None.

Definition erin : BulkResultRecord :=
  person "Erin" (Some "erin@corp.com") JS.Undefined None.

(** The answers the server gives during a run over [emails], the first
    of them being asked in iteration [i]. *)
Fixpoint answers (net : Net) (i : nat) (emails : list string)
  : list (Fetched VerifyData) :=
  match emails with
  | [] => []
  | email :: rest => verifyApi net i email :: answers net (S i) rest
  end.

Definition threw (a : Fetched VerifyData) : bool :=
  match a with Throws => true | Responds _ _ => false end.

(** The answer is a 200 with a true [isVerified]. *)
Definition confirmed (a : Fetched VerifyData) : bool :=
  match a with
  | Responds true data => is_true (data_isVerified data)
  | _ => false
  end.

Definition count {A} (p : A -> bool) (l : list A) : nat :=
  length (List.filter p l).

(** Number of network calls of a run over [rs] that throw. *)
Definition exceptions (net : Net) (rs : list BulkResultRecord) : nat :=
  count threw (answers net 0 (emailsToVerify rs)).

Definition verify_request (email : string) : Effect :=
  Fetch "/api/verify-email" (VerifyBody email).

(** The first request of a run throws; the later ones are answered 200 with
    [isVerified: true]. *)
Definition flaky : Net :=
  {| verifyApi := fun i _ =>
       match i with
       | O => Throws
       | S _ => Responds true {| data_isVerified := JS.Def true;
                                 data_emailQuality := JS.Def "business";
                                 data_error := JS.Undefined |}
       end;
     findApi := fun _ => Throws;
     today := 1700000000%N |}.

Definition frank : BulkResultRecord :=
  person "Frank" (Some "frank@corp.com") JS.Undefined None.

Definition unconfirmed (a : Fetched VerifyData) : bool := negb (confirmed a).

(** The remote calls among the effects, in order. *)
Definition fetches (effs : list Effect) : list Effect := List.filter is_fetch effs.

Definition tally (b : bool) : nat := if b then 1 else 0.

(** The loop variables of [verifyAllEmails] when the loop over [rs] ends. *)
Definition after_loop (net : Net) (rs : list BulkResultRecord) : Batch :=
  loop net rs (length (emailsToVerify rs)) 0 (emailsToVerify rs)
    {| updatedResults := rs; verifiedCount := 0; failedCount := 0;
       effects :=
         [SetVerifyingBatch true;
          Toast Info ("Verifying " +:+ pretty_nat (length (emailsToVerify rs))
                        +:+ " emails...")] |}.

(** [isVerified] is defined (not [undefined]). *)
Definition checked (r : BulkResultRecord) : bool :=
  negb (is_undefined (isVerified r)).

End BulkScenario.

(** ** [validateS3BucketConfig] (AWS error handler middleware) *)

Module S3Config.

Import Regex.

(** [r{0,n}] *)
Fixpoint UpTo (n : nat) (r : regex) : regex :=
  match n with
  | O => Eps
  | S n' => Alt Eps (Seq r (UpTo n' r))
  end.

(** [r{1,n}] for [n >= 1] *)
Definition OneTo (n : nat) (r : regex) : regex := Seq r (UpTo (n - 1) r).

Fixpoint drop (n : nat) (s : string) : string :=
  match n, s with
  | O, _ => s
  | S _, EmptyString => EmptyString
  | S n', String _ s' => drop n' s'
  end.

(** [s.replace(pat, '')] for a string pattern: the first occurrence of
    [pat] is removed. *)
Fixpoint remove_first (pat : string) (s : string) : string :=
  if JS.startsWith s pat then drop (String.length pat) s
  else match s with
       | EmptyString => EmptyString
       | String c s' => String c (remove_first pat s')
       end.

Definition lower_alnum (c : ascii) : bool :=
  JS.in_range "a" "z" c || JS.in_range "0" "9" c.

(** [[a-z0-9.-]] *)
Definition inner (c : ascii) : bool := lower_alnum c || JS.one_of ".-" c.

(** [/^[a-z0-9][a-z0-9.-]{1,61}[a-z0-9]$/] *)
Definition bucketNameRegex : regex :=
  Seq (Class lower_alnum) (Seq (OneTo 61 (Class inner)) (Class lower_alnum)).

Record Validation : Type := mkValidation { isValid : bool; message : string }.

(** The segment that is checked: the text before the first "/" once the
    first "s3://" has been removed. *)
Definition actualBucketName (bucketName : string) : string :=
  match JS.split "/" (remove_first "s3://" bucketName) with
  | first :: _ => first
  | [] => ""
  end.

(** [validateS3BucketConfig(bucketName)]; [None] is [undefined]. *)
Definition validateS3BucketConfig (bucketName : option string) : Validation :=
  match bucketName with
  | Some (String c b) =>
      let name := actualBucketName (String c b) in
      if negb (test bucketNameRegex name) then
        {| isValid := false;
           message := "Invalid S3 bucket name format: " +:+ name |}
      else
        {| isValid := true; message := "S3 bucket configuration is valid" |}
  | _ =>
      {| isValid := false;
         message := "S3 bucket name is not configured in environment variables" |}
  end.

End S3Config.

(** ** Further inputs and readings *)

Module Cases.

Import AwsErrorHandler Server.

(** The error names [handleAWSError] knows. *)
Definition knownErrorNames : list string :=
  [ "CredentialsProviderError"; "InvalidAccessKeyId";
    "AccessDenied"; "UnauthorizedOperation";
    "NoSuchBucket"; "NoSuchKey"; "ResourceNotFoundException";
    "ValidationException"; "InvalidParameter";
    "NetworkingError"; "TimeoutError";
    "ThrottlingException"; "TooManyRequestsException" ].


End Cases.

(** ** Readings of a batch *)

Module BulkCases.

Import BulkResults BulkScenario.

(** What a record becomes once the answer for its address is in. *)
Definition outcome (a : Fetched VerifyData) (r : BulkResultRecord)
  : BulkResultRecord :=
  match a with
  | Responds true data => with_verification data r
  | _ => r
  end.

(** Everything of a record that verification has no business with. *)
Definition core (r : BulkResultRecord) :=
  (firstName r, lastName r, linkedin r, companyName r,
   foundEmail r, personalEmails r, retryCount r, lastRetry r).

(** The effect publishes nothing but a list of records with the cores of
    [rs]. *)
Definition keeps_cores (rs : list BulkResultRecord) (e : Effect) : Prop :=
  match e with
  | SetResults l => map core l = map core rs
  | SetResultsBeyondEnd _ => False
  | _ => True
  end.

(** The answer settles the question: a 200 with a defined [isVerified]. *)
Definition settles (a : Fetched VerifyData) : bool :=
  match a with
  | Responds true data => negb (is_undefined (data_isVerified data))
  | _ => false
  end.

(** The verification endpoint accepts everything; the discovery endpoint
    answers 200 with a new address. *)
Definition accepting : Net :=
  {| verifyApi := fun _ _ =>
       Responds true {| data_isVerified := JS.Def true;
                        data_emailQuality := JS.Def "business";
                        data_error := JS.Undefined |};
     findApi := fun _ =>
       Responds true {| data_email := JS.Def "new@corp.com";
                        data_personalEmails := JS.Undefined |};
     today := 1700000000%N |}.

(** A record whose address has no top-level label. *)
Definition gina : BulkResultRecord :=
  person "Gina" (Some "gina@corp") JS.Undefined None.

End BulkCases.

(** ** Export of the table and preview of a dropped file *)

Module BulkExport.

Import BulkResults.

Definition quote : string := String "034" "".
Definition newline : string := String "010" "".

(** The column keys of the export. *)
Definition headers : list string :=
  [ "firstName"; "lastName"; "companyName"; "foundEmail";
    "personalEmails"; "isVerified"; "emailQuality"; "retryCount" ].

(** [String(value)] of a boolean. *)
Definition boolean_text (b : bool) : string := if b then "true" else "false".

(** [record.personalEmails?.join('; ') || ''] *)
Definition personalEmails_text (r : BulkResultRecord) : string :=
  match personalEmails r with
  | Some l => JS.join "; " l
  | None => ""
  end.

(** The text of each column of a row, [''] for null and undefined. *)
Definition values (r : BulkResultRecord) : list string :=
  [ firstName r;
    lastName r;
    companyName r;
    match foundEmail r with Some e => e | None => "" end;
    personalEmails_text r;
    match isVerified r with JS.Def b => boolean_text b | _ => "" end;
    match emailQuality r with JS.Def q => q | _ => "" end;
    match retryCount r with Some n => pretty_nat n | None => "" end ].

(** [String(value).includes(',') ? `"${value}"` : value] *)
Definition cell (text : string) : string :=
  if JS.includes text "," then quote +:+ text +:+ quote else text.

Definition row (r : BulkResultRecord) : string :=
  JS.join "," (map cell (values r)).

(** The text of the blob. *)
Definition csv (rs : list BulkResultRecord) : string :=
  JS.join "," headers +:+ newline +:+ JS.join newline (map row rs).

Record Download : Type := mkDownload { fileName : string; content : string }.

(** [downloadResults()]: the file handed to the browser, if any, and the
    toast.  [now] is [Date.now()]. *)
Definition downloadResults (now : N) (results : option (list BulkResultRecord))
  : option Download * list Effect :=
  match results with
  | None | Some [] => (None, [])
  | Some rs =>
      (Some {| fileName := "email-results-" +:+ pretty now +:+ ".csv";
               content := csv rs |},
       [Toast Success "Downloaded results"])
  end.

(** [s.endsWith(suffix)] *)
Fixpoint endsWith (s suffix : string) : bool :=
  JS.eqs s suffix ||
  match s with
  | EmptyString => false
  | String _ s' => endsWith s' suffix
  end.

(** The preview of the upload form:
    [text.split('\n').slice(0, 5).map(row => row.split(','))]. *)
Definition preview (text : string) : list (list string) :=
  map (JS.split ",") (take 5 (JS.split "010" text)).

(** The type of a dropped file: [name.split('.').pop()?.toLowerCase()]. *)
Definition fileType (name : string) : string :=
  match JS.pop (JS.split "." name) with
  | Some (ext, _) => JS.toLowerCase ext
  | None => ""
  end.

(** A dropped file is taken when its type is one of three. *)
Definition dropAccepts (name : string) : bool :=
  JS.array_includes ["csv"; "xlsx"; "xls"] (fileType name).

(** A dropped file is previewed when its type is "csv"; a selected file
    when its name ends with ".csv". *)
Definition dropPreviews (name : string) : bool := JS.eqs (fileType name) "csv".
Definition selectPreviews (name : string) : bool := endsWith name ".csv".

Definition no_comma (c : ascii) : bool := negb (JS.eqc c ",").
Definition no_newline (c : ascii) : bool := negb (JS.eqc c "010").

(** No column of the record contains the character. *)
Definition plain_record (p : ascii -> bool) (r : BulkResultRecord) : Prop :=
  Forall (fun text => Scenario.all_chars p text = true)
    [ firstName r; lastName r; companyName r;
      match foundEmail r with Some e => e | None => "" end;
      personalEmails_text r;
      match emailQuality r with JS.Def q => q | _ => "" end ].

End BulkExport.

(** ** The single-address form: [verifyEmail] of [find-email.tsx] *)

Module SingleVerify.

Import Server.

(** What the form shows after a verification: the [verified] flag
    ([None] is [undefined]) and the message. *)
Record Shown : Type := mkShown {
  verified : option bool;
  verificationMessage : string
}.

(** The response as the form receives it from [fetch]: thrown, or the
    JSON body with the [ok] flag of its status. *)
Inductive Answer : Type :=
| Unreachable
| Body (response : VerifyEmail.Response).

(** [response.ok]: a status from 200 to 299. *)
Definition ok (response : VerifyEmail.Response) : bool :=
  (200 <=? VerifyEmail.status response)%nat && (VerifyEmail.status response <=? 299)%nat.

Definition is_some_true (o : option bool) : bool :=
  match o with Some true => true | _ => false end.

(** [data.details?.field], as a condition. *)
Definition detail (field : VerifyEmail.Details -> option bool)
    (response : VerifyEmail.Response) : bool :=
  match VerifyEmail.details response with
  | Some d => is_some_true (field d)
  | None => false
  end.

(** [data.message || 'Email verification failed.'] *)
Definition message_or_default (response : VerifyEmail.Response) : string :=
  match VerifyEmail.message response with
  | Some (String c m) => String c m
  | _ => "Email verification failed."
  end.

(** [verifyEmail(emailToVerify)] once the answer is in; the form does
    nothing for an empty address. *)
Definition verifyEmail (emailToVerify : string) (answer : Answer) : option Shown :=
  if negb (JS.truthy emailToVerify) then None
  else
    Some
      match answer with
      | Unreachable =>
          {| verified := Some false;
             verificationMessage := "Error during verification." |}
      | Body data =>
          if ok data then
            {| verified := VerifyEmail.valid data;
               verificationMessage :=
                 if is_some_true (VerifyEmail.valid data) then
                   "Email verified successfully! (" +:+
                   (match VerifyEmail.emailQuality data with
                    | Some q => if JS.eqs q "business" then "Business email"
                                else "Personal email"
                    | None => "Personal email"
                    end) +:+ ")"
                 else if detail VerifyEmail.disposable data then
                   "This appears to be a disposable email address."
                 else if negb (detail VerifyEmail.mxRecords data) then
                   "This email domain does not have valid mail servers."
                 else message_or_default data |}
          else
            {| verified := Some false;
               verificationMessage := message_or_default data |}
      end.

(** The form in front of the full-pipeline route. *)
Definition verifyEmailOver (env : Env) (emailToVerify : string) : option Shown :=
  verifyEmail emailToVerify
    (Body (VerifyEmail.response_of (VerifyEmail.POST env emailToVerify))).

End SingleVerify.

(** ** The bulk table in front of the full-pipeline route *)

Module Wire.

Import Server BulkResults.

Definition defined {A} (o : option A) : JS.opt A :=
  match o with Some a => JS.Def a | None => JS.Undefined end.

(** What [fetch('/api/verify-email')] and [response.json()] give the table
    for a response of the route. *)
Definition received (response : VerifyEmail.Response) : Fetched VerifyData :=
  Responds (SingleVerify.ok response)
    {| data_isVerified := defined (VerifyEmail.isVerified response);
       data_emailQuality := defined (VerifyEmail.emailQuality response);
       data_error := defined (VerifyEmail.unauthorized response) |}.

(** The network of the table when the route runs in [env]. *)
Definition served (env : Env) (finder : Body -> Fetched FindData) (now : N) : Net :=
  {| verifyApi := fun _ address =>
       received (VerifyEmail.response_of (VerifyEmail.POST env address));
     findApi := finder;
     today := now |}.

End Wire.

(** ** The listing route of the bulk history *)

Module BulkHistory.

Import AwsErrorHandler.

(** An entry of [ListObjectsV2]'s [Contents]. *)
Record Item : Type := mkItem {
  Key : option string;
  LastModified : option N
}.

(** The parsed body of a stored search, as far as the route reads it. *)
Record SearchData : Type := mkSearchData {
  data_searchId : JS.opt string;
  data_fileName : JS.opt string;
  data_recordCount : JS.opt nat;
  data_successCount : JS.opt nat;
  data_timestamp : JS.opt string
}.

(** What fetching and parsing one object comes to. *)
Inductive Stored : Type :=
| GetFails (e : Error)
| NotReadable
| Unparsable (e : Error)
| Parsed (data : SearchData).

(** The object store and the configuration.  [parseS3BucketConfig] gives
    the bucket name and the prefix of the user's searches of one kind. *)
Record Env : Type := mkEnv {
  auth : option string;
  initS3Client : Error + unit;
  parseS3BucketConfig : string -> string -> Error + (string * string);
  listObjects : string -> string -> Error + option (list Item);
  getObject : string -> string -> Stored;
  clock : string
}.

Record Entry : Type := mkEntry {
  key : string;
  searchId : string;
  fileName : string;
  recordCount : nat;
  successCount : option nat;
  lastModified : option N;
  timestamp : JS.opt string
}.

Record Response : Type := mkResponse {
  status : nat;
  results : option (list Entry);
  error : option string;
  details : option string;
  errorType : option AWSErrorType;
  errorTimestamp : option string
}.

(** [value || fallback] for a string. *)
Definition string_or (o : JS.opt string) (fallback : string) : string :=
  match o with
  | JS.Def (String c s) => String c s
  | _ => fallback
  end.

(** [value || 0] *)
Definition number_or_zero (o : JS.opt nat) : nat :=
  match o with JS.Def n => n | _ => 0 end.

(** The entry built from a readable, parsable body. *)
Definition full_entry (k : string) (item : Item) (data : SearchData) : Entry :=
  {| key := k;
     searchId := string_or (data_searchId data) "unknown";
     fileName := string_or (data_fileName data) "unknown";
     recordCount := number_or_zero (data_recordCount data);
     successCount := Some (number_or_zero (data_successCount data));
     lastModified := LastModified item;
     timestamp := data_timestamp data |}.

(** The last element of [key.split('/')]. *)
Definition baseName (k : string) : string :=
  match JS.pop (JS.split "/" k) with
  | Some (name, _) => name
  | None => ""
  end.

(** The entry of the [catch] block: the id is the file name of the key
    without its first ".json". *)
Definition basic_entry (k : string) (item : Item) : Entry :=
  {| key := k;
     searchId :=
       string_or (JS.Def (S3Config.remove_first ".json" (baseName k))) "unknown";
     fileName := "Unknown file";
     recordCount := 0;
     successCount := None;
     lastModified := LastModified item;
     timestamp := JS.Undefined |}.

(** The callback of [Contents.map]; [None] is [null]. *)
Definition entry_of (env : Env) (bucket : string) (item : Item) : option Entry :=
  match Key item with
  | Some (String c k) =>
      match getObject env bucket (String c k) with
      | Parsed data => Some (full_entry (String c k) item data)
      | NotReadable => None
      | GetFails _ | Unparsable _ => Some (basic_entry (String c k) item)
      end
  | _ => None
  end.

(** [lastModified?.getTime() || 0] *)
Definition time (e : Entry) : N := default 0%N (lastModified e).

(** [Array.prototype.sort] with the comparator
    [(a, b) => time(b) - time(a)]: newest first, entries of equal time in
    their given order. *)
Fixpoint insert (x : Entry) (l : list Entry) : list Entry :=
  match l with
  | [] => [x]
  | y :: ys => if (time y <=? time x)%N then x :: y :: ys else y :: insert x ys
  end.

Definition sort (l : list Entry) : list Entry := foldr insert [] l.

Definition failure (now : string) (e : Error) : Response :=
  let handledError := handleAWSError now e "S3" in
  {| status := 500; results := None;
     error := Some "Failed to retrieve bulk search history.";
     details := Some (AwsErrorHandler.message handledError);
     errorType := Some (AwsErrorHandler.type handledError);
     errorTimestamp := Some (AwsErrorHandler.timestamp handledError) |}.

Definition success (l : list Entry) : Response :=
  {| status := 200; results := Some l; error := None; details := None;
     errorType := None; errorTimestamp := None |}.

(** [GET()] *)
Definition GET (env : Env) : Response :=
  match auth env with
  | Some (String c u) =>
      let userId := String c u in
      match initS3Client env with
      | inl e => failure (clock env) e
      | inr _ =>
          match parseS3BucketConfig env userId "bulk" with
          | inl e => failure (clock env) e
          | inr (bucket, prefix) =>
              match listObjects env bucket prefix with
              | inl e => failure (clock env) e
              | inr None | inr (Some []) => success []
              | inr (Some contents) =>
                  success (sort (omap (entry_of env bucket) contents))
              end
          end
      end
  | _ =>
      {| status := 401; results := None; error := Some "Unauthorized";
         details := None; errorType := None; errorTimestamp := None |}
  end.

(** Newest first. *)
Definition newer_first (a b : Entry) : Prop := (time b <= time a)%N.

(** A store with two objects: one fine, one that is no JSON. *)
Definition shelf : Env :=
  {| auth := Some "user_1";
     initS3Client := inr tt;
     parseS3BucketConfig := fun user kind => inr ("bucket", user +:+ "/" +:+ kind +:+ "/");
     listObjects := fun _ _ =>
       inr (Some [ {| Key := Some "user_1/bulk/old.json"; LastModified := Some 100%N |};
                   {| Key := Some "user_1/bulk/new.json"; LastModified := Some 200%N |};
                   {| Key := None; LastModified := Some 300%N |} ]);
     getObject := fun _ k =>
       if JS.eqs k "user_1/bulk/old.json"
       then Unparsable {| name := "SyntaxError" |}
       else Parsed {| data_searchId := JS.Def "s-2"; data_fileName := JS.Def "leads.csv";
                      data_recordCount := JS.Def 12; data_successCount := JS.Def 7;
                      data_timestamp := JS.Undefined |};
     clock := "2025-01-01T00:00:00.000Z" |}.

End BulkHistory.

(** * Properties *)

(** ** Strings *)

Section StringFacts.

Import Scenario.

Lemma append_cons c (s t : string) : String c s +:+ t = String c (s +:+ t).
Proof. reflexivity. Qed.

Lemma append_empty_l (t : string) : "" +:+ t = t.
Proof. reflexivity. Qed.

Lemma append_empty_r (s : string) : s +:+ "" = s.
Proof. induction s as [|c s IH]; [done|]. by rewrite append_cons, IH. Qed.

Lemma append_assoc' (s t u : string) : (s +:+ t) +:+ u = s +:+ (t +:+ u).
Proof. induction s as [|c s IH]; [done|]. by rewrite !append_cons, IH. Qed.

Lemma eqc_true a b : JS.eqc a b = true <-> a = b.
Proof. apply Ascii.eqb_eq. Qed.

Lemma eqc_refl a : JS.eqc a a = true.
Proof. by apply eqc_true. Qed.

Lemma eqs_true a b : JS.eqs a b = true <-> a = b.
Proof. apply String.eqb_eq. Qed.

Lemma array_includes_In arr x : JS.array_includes arr x = true <-> In x arr.
Proof.
  unfold JS.array_includes. rewrite existsb_exists. split.
  - intros (y & Hy & Heq). apply eqs_true in Heq. by subst.
  - intros Hx. exists x. split; [done|]. by apply eqs_true.
Qed.

Lemma all_chars_cons p c s :
  all_chars p (String c s) = p c && all_chars p s.
Proof. reflexivity. Qed.

Lemma all_chars_app p s t :
  all_chars p (s +:+ t) = all_chars p s && all_chars p t.
Proof.
  induction s as [|c s IH]; [done|].
  by rewrite append_cons, !all_chars_cons, IH, andb_assoc.
Qed.

Lemma all_chars_impl (p q : ascii -> bool) s :
  (forall c, p c = true -> q c = true) ->
  all_chars p s = true -> all_chars q s = true.
Proof.
  intros Hpq. induction s as [|c s IH]; [done|].
  rewrite !all_chars_cons, !andb_true_iff. intros [? ?]. auto.
Qed.

(** A string without the separator is one piece. *)
Lemma split_one sep s :
  all_chars (fun c => negb (JS.eqc c sep)) s = true -> JS.split sep s = [s].
Proof.
  induction s as [|c s IH]; [done|].
  rewrite all_chars_cons, andb_true_iff, negb_true_iff. intros [Hc Hs].
  simpl. by rewrite Hc, (IH Hs).
Qed.

(** The first separator ends the first piece. *)
Lemma split_first sep s t :
  all_chars (fun c => negb (JS.eqc c sep)) s = true ->
  JS.split sep (s +:+ String sep t) = s :: JS.split sep t.
Proof.
  induction s as [|c s IH].
  - intros _. rewrite append_empty_l. simpl. by rewrite eqc_refl.
  - rewrite all_chars_cons, andb_true_iff, negb_true_iff. intros [Hc Hs].
    rewrite append_cons. simpl. by rewrite Hc, (IH Hs).
Qed.

Lemma split_address l d :
  all_chars not_at l = true -> all_chars not_at d = true ->
  JS.split "@" (l +:+ "@" +:+ d) = [l; d].
Proof.
  intros Hl Hd. change ("@" +:+ d) with (String "@" d).
  rewrite (split_first "@" l d Hl). by rewrite (split_one "@" d Hd).
Qed.

End StringFacts.

(** ** The matcher is sound for the language *)

Section RegexFacts.

Import Regex Scenario.

Lemma nullable_sound r : nullable r = true -> Matches r "".
Proof.
  induction r as [| |p|r1 IH1 r2 IH2|r1 IH1 r2 IH2|r IH]; simpl; try done.
  - intros _. constructor.
  - rewrite andb_true_iff. intros [H1 H2].
    change "" with ("" +:+ ""). constructor; auto.
  - rewrite orb_true_iff. intros [H|H]; [apply MAltL|apply MAltR]; auto.
  - intros _. constructor.
Qed.

Lemma deriv_sound c r : forall s, Matches (deriv c r) s -> Matches r (String c s).
Proof.
  induction r as [| |p|r1 IH1 r2 IH2|r1 IH1 r2 IH2|r IH]; simpl; intros s H.
  - inversion H.
  - inversion H.
  - destruct (p c) eqn:Hp; inversion H; subst. by constructor.
  - destruct (nullable r1) eqn:Hn.
    + inversion H as [| | |? ? ? H1| ? ? ? H2| |]; subst.
      * inversion H1; subst. rewrite <- append_cons. constructor; auto.
      * rewrite <- (append_empty_l (String c s)).
        constructor; [by apply nullable_sound | auto].
    + inversion H; subst. rewrite <- append_cons. constructor; auto.
  - inversion H; subst; [apply MAltL | apply MAltR]; auto.
  - inversion H; subst. rewrite <- append_cons. constructor; auto.
Qed.

Lemma test_sound s : forall r, test r s = true -> Matches r s.
Proof.
  induction s as [|c s IH]; simpl; intros r H.
  - by apply nullable_sound.
  - by apply deriv_sound, IH.
Qed.

Lemma matches_class p s :
  Matches (Class p) s -> exists c, s = String c "" /\ p c = true.
Proof. inversion 1; subst. eauto. Qed.

Lemma matches_star_class p s :
  Matches (Star (Class p)) s -> all_chars p s = true.
Proof.
  intros H. remember (Star (Class p)) as r eqn:Hr.
  induction H as [| | | | | |r0 s1 s2 H1 _ H2 IH2]; try discriminate; [done|].
  injection Hr as ->. apply matches_class in H1 as (c & -> & Hc).
  rewrite append_cons, append_empty_l, all_chars_cons, Hc. by apply IH2.
Qed.

(** [[p]+] is a non-empty string of [p] characters. *)
Lemma matches_plus_class p s :
  Matches (Plus (Class p)) s ->
  exists c s', s = String c s' /\ all_chars p (String c s') = true.
Proof.
  unfold Plus. inversion 1 as [| |? ? s1 s2 H1 H2| | | |]; subst.
  apply matches_class in H1 as (c & -> & Hc).
  apply matches_star_class in H2.
  exists c, s2. split; [done|]. by rewrite all_chars_cons, Hc, H2.
Qed.

Lemma matches_chr c s : Matches (Chr c) s -> s = String c "".
Proof.
  unfold Chr. intros H. apply matches_class in H as (d & -> & Hd).
  by apply eqc_true in Hd as ->.
Qed.

End RegexFacts.

(** ** The primitives on concrete inputs *)

Section Examples.

Import Regex Scenario.

Example valid_addresses :
  forallb VerifyEmail.isValidEmail
    ["a@b.co"; "first.last+tag@sub.example.org"; "ADMIN@EXAMPLE.COM";
     "x_y%z@a-b.io"] = true.
Proof. vm_compute. reflexivity. Qed.

Example invalid_addresses :
  existsb VerifyEmail.isValidEmail
    [""; "admin"; "a@b"; "a@b.c"; "a@b.c0m"; "a b@c.com"; "a@b@c.com";
     "@b.com"; "a@.com"; "a@b_c.com"] = false.
Proof. vm_compute. reflexivity. Qed.

(** The basic route accepts more: one-letter and numeric top-level labels,
    underscores in the domain. *)
Example basic_route_accepts :
  forallb VerifyEmailBasic.isValidEmail ["a@b.c"; "a@b.c0m"; "a@b_c.com"] = true /\
  existsb VerifyEmailBasic.isValidEmail ["a b@c.com"; "a@b@c.com"; "a@b"] = false.
Proof. split; vm_compute; reflexivity. Qed.

Example whitespace_classes :
  map VerifyEmailBasic.is_space
    [ascii_of_nat 9; ascii_of_nat 13; ascii_of_nat 32; ascii_of_nat 160;
     ascii_of_nat 14; ascii_of_nat 65]
  = [true; true; true; true; false; false].
Proof. vm_compute. reflexivity. Qed.

Example lower_casing :
  JS.toLowerCase "Mixed.CASE-09@Example.COM" = "mixed.case-09@example.com".
Proof. vm_compute. reflexivity. Qed.

Example splitting :
  JS.split "@" "a@b@c" = ["a"; "b"; "c"] /\
  JS.split "." "mail.example.com" = ["mail"; "example"; "com"] /\
  JS.split "@" "" = [""] /\
  JS.split "." "trailing." = ["trailing"; ""].
Proof. split_and!; vm_compute; reflexivity. Qed.

Example role_accounts :
  map VerifyEmail.isRoleBasedEmail
    ["admin@example.com"; "Info.Desk@example.com"; "jane@example.com";
     "hrvoje@example.com"; "@example.com"]
  = [true; true; false; true; false].
Proof. vm_compute. reflexivity. Qed.

Example error_classes :
  AwsErrorHandler.type
    (AwsErrorHandler.handleAWSError "t" {| AwsErrorHandler.name := "ThrottlingException" |} "SES")
  = AwsErrorHandler.THROTTLING /\
  AwsErrorHandler.message
    (AwsErrorHandler.handleAWSError "t" {| AwsErrorHandler.name := "Oops" |} "SES")
  = "An unknown error occurred with AWS services This may affect email verification features.".
Proof. split; vm_compute; reflexivity. Qed.

End Examples.

(** ** The full verification route *)

Section VerifyEmailFacts.

Import AwsErrorHandler Server Regex VerifyEmail Scenario.

Ltac by_chars :=
  intros [[] [] [] [] [] [] [] []]; vm_compute; congruence.

Lemma local_class_not_at c : local_class c = true -> not_at c = true.
Proof. revert c. by_chars. Qed.

Lemma domain_class_not_at c : domain_class c = true -> not_at c = true.
Proof. revert c. by_chars. Qed.

Lemma is_alpha_not_at c : is_alpha c = true -> not_at c = true.
Proof. revert c. by_chars. Qed.

Lemma matches_at_least_2 p s :
  Matches (AtLeast2 (Class p)) s -> all_chars p s = true.
Proof.
  unfold AtLeast2. inversion 1 as [| |? ? s1 s2 H1 H2| | | |]; subst.
  apply matches_class in H1 as (c & -> & Hc).
  apply matches_plus_class in H2 as (c' & s' & -> & Hs).
  by rewrite append_cons, append_empty_l, all_chars_cons, Hc, Hs.
Qed.

(** An address that passes the syntax check is [local@domain] with
    exactly one "@" and a non-empty domain. *)
Lemma valid_address_shape address :
  isValidEmail address = true ->
  exists l c d,
    address = l +:+ "@" +:+ String c d /\
    all_chars not_at l = true /\ all_chars not_at (String c d) = true.
Proof.
  intros H. apply test_sound in H. unfold emailRegex in H.
  inversion H as [| |? ? l s2 Hl H2| | | |]; subst. clear H.
  inversion H2 as [| |? ? a s3 Ha H3| | | |]; subst. clear H2.
  inversion H3 as [| |? ? d s4 Hd H4| | | |]; subst. clear H3.
  inversion H4 as [| |? ? dot t Hdot Ht| | | |]; subst. clear H4.
  apply matches_chr in Ha as ->. apply matches_chr in Hdot as ->.
  apply matches_plus_class in Hl as (cl & l' & -> & Hl).
  apply matches_plus_class in Hd as (cd & d' & -> & Hd).
  apply matches_at_least_2 in Ht.
  exists (String cl l'), cd, (d' +:+ "." +:+ t). split; [done|]. split.
  - eapply all_chars_impl; [apply local_class_not_at | done].
  - rewrite <- append_cons, all_chars_app.
    apply andb_true_iff. split.
    + eapply all_chars_impl; [apply domain_class_not_at | done].
    + rewrite all_chars_app. apply andb_true_iff. split; [done|].
      eapply all_chars_impl; [apply is_alpha_not_at | done].
Qed.

Lemma valid_address_split address :
  isValidEmail address = true ->
  exists l c d, JS.split "@" address = [l; String c d].
Proof.
  intros H. apply valid_address_shape in H as (l & c & d & -> & Hl & Hd).
  exists l, c, d. by apply split_address.
Qed.

Lemma hasMxRecords_run env d tr :
  hasMxRecords env d tr = (Ok (has_mx env d), tr ++ [ResolveMx d]).
Proof.
  unfold hasMxRecords, try_catch, bind, call, ret, has_mx.
  by destruct (resolveMx env d).
Qed.

Lemma verifyEmailWithSES_run env address tr :
  isValidEmail address = true ->
  verifyEmailWithSES env address tr
  = (Ok (ses_accepts env address), tr ++ [SesSend address]).
Proof.
  intros Hv. unfold verifyEmailWithSES, try_catch, bind, call, ret, ses_accepts.
  rewrite Hv. simpl. by destruct (sesSend env address).
Qed.

(** The malformed-address return. *)
Lemma POST_invalid_format env address :
  signed_in env -> JS.truthy address = true -> isValidEmail address = false ->
  POST env address =
    ((InvalidFormat,
      {| status := 200; unauthorized := None; valid := Some false;
         message := Some "Invalid email format"; email := None;
         isVerified := None; emailQuality := None;
         suggestion := nullable_string (suggestEmailCorrection address);
         details := Some (checks false false false false
                            (Some (isRoleBasedEmail address)));
         verifiedAt := None; confidence := None |}), []).
Proof.
  intros (c & u & Hauth) Ht Hv. unfold POST, pipeline.
  by rewrite Hauth, Ht, Hv.
Qed.

(** The no-mail-servers return. *)
Lemma POST_no_mail_servers env address d :
  signed_in env -> isValidEmail address = true ->
  JS.split "@" address !! 1%nat = Some d -> has_mx env d = false ->
  POST env address =
    ((NoMailServers,
      {| status := 200; unauthorized := None; valid := Some false;
         message := Some "Email domain does not have valid mail servers";
         email := None; isVerified := Some false;
         emailQuality := Some (classifyQuality d);
         suggestion := nullable_string (suggestEmailCorrection address);
         details := Some (checks true true (isDisposableEmail address) false
                            (Some (isRoleBasedEmail address)));
         verifiedAt := None; confidence := None |}), [ResolveMx d]).
Proof.
  intros (c & u & Hauth) Hv Hd Hmx.
  destruct (valid_address_split address Hv) as (l & c' & d' & Hsplit).
  assert (d = String c' d') as -> by (rewrite Hsplit in Hd; by injection Hd).
  assert (JS.truthy address = true) as Ht.
  { destruct address; [discriminate Hv | done]. }
  unfold POST, pipeline. rewrite Hauth, Ht, Hv, Hd. cbn [negb].
  unfold bind. rewrite hasMxRecords_run, Hmx. done.
Qed.

(** The disposable-domain return. *)
Lemma POST_disposable env address d :
  signed_in env -> isValidEmail address = true ->
  JS.split "@" address !! 1%nat = Some d -> has_mx env d = true ->
  isDisposableEmail address = true ->
  POST env address =
    ((Disposable,
      {| status := 200; unauthorized := None; valid := Some false;
         message := Some "Disposable email addresses are not allowed";
         email := None; isVerified := Some false;
         emailQuality := Some (classifyQuality d);
         suggestion := nullable_string (suggestEmailCorrection address);
         details := Some (checks true true true true
                            (Some (isRoleBasedEmail address)));
         verifiedAt := None; confidence := None |}), [ResolveMx d]).
Proof.
  intros (c & u & Hauth) Hv Hd Hmx Hdisp.
  destruct (valid_address_split address Hv) as (l & c' & d' & Hsplit).
  assert (d = String c' d') as -> by (rewrite Hsplit in Hd; by injection Hd).
  assert (JS.truthy address = true) as Ht.
  { destruct address; [discriminate Hv | done]. }
  unfold POST, pipeline. rewrite Hauth, Ht, Hv, Hd. cbn [negb].
  unfold bind. rewrite hasMxRecords_run, Hmx, Hdisp. done.
Qed.

End VerifyEmailFacts.

Section VerifyEmailPaths.

Import AwsErrorHandler Server Regex VerifyEmail Scenario.

(** The return at the end of the pipeline. *)
Lemma POST_full_pipeline env address d :
  signed_in env -> isValidEmail address = true ->
  JS.split "@" address !! 1%nat = Some d -> has_mx env d = true ->
  isDisposableEmail address = false -> initSESClient env = inr tt ->
  POST env address =
    ((FullPipeline,
      {| status := 200; unauthorized := None;
         valid := Some (ses_accepts env address);
         message :=
           Some (if ses_accepts env address
                 then "Email appears to be valid and deliverable"
                 else "Email verification failed. The email address may not exist or may be unreachable.");
         email := Some address;
         isVerified := Some (ses_accepts env address);
         emailQuality := Some (classifyQuality d);
         suggestion := nullable_string (suggestEmailCorrection address);
         details :=
           Some {| format := Some true; domain := Some true;
                   disposable := Some false; mxRecords := Some true;
                   roleBased := Some (isRoleBasedEmail address);
                   verified := Some (ses_accepts env address);
                   quality := Some (classifyQuality d);
                   error := None; errorType := None; timestamp := None |};
         verifiedAt := Some (clock env);
         confidence :=
           Some (if ses_accepts env address then "high" else "medium") |}),
     [ResolveMx d; InitSES; SesSend address]).
Proof.
  intros (c & u & Hauth) Hv Hd Hmx Hdisp Hses.
  destruct (valid_address_split address Hv) as (l & c' & d' & Hsplit).
  assert (d = String c' d') as -> by (rewrite Hsplit in Hd; by injection Hd).
  assert (JS.truthy address = true) as Ht.
  { destruct address; [discriminate Hv | done]. }
  unfold POST, pipeline. rewrite Hauth, Ht, Hv, Hd. cbn [negb].
  unfold bind. rewrite hasMxRecords_run, Hmx, Hdisp. cbn [negb].
  unfold call. rewrite Hses, (verifyEmailWithSES_run _ _ _ Hv).
  unfold ret. by destruct (ses_accepts env address).
Qed.

(** The provider client cannot be created: the [catch] block answers. *)
Lemma POST_ses_unavailable env address d e :
  signed_in env -> isValidEmail address = true ->
  JS.split "@" address !! 1%nat = Some d -> has_mx env d = true ->
  isDisposableEmail address = false -> initSESClient env = inl e ->
  exit_of (POST env address) = ServerError /\
  status (response_of (POST env address)) = 500 /\
  confidence (response_of (POST env address)) = None /\
  calls_of (POST env address) = [ResolveMx d; InitSES].
Proof.
  intros (c & u & Hauth) Hv Hd Hmx Hdisp Hses.
  destruct (valid_address_split address Hv) as (l & c' & d' & Hsplit).
  assert (d = String c' d') as -> by (rewrite Hsplit in Hd; by injection Hd).
  assert (JS.truthy address = true) as Ht.
  { destruct address; [discriminate Hv | done]. }
  unfold POST, pipeline. rewrite Hauth, Ht, Hv, Hd. cbn [negb].
  unfold bind. rewrite hasMxRecords_run, Hmx, Hdisp. cbn [negb].
  unfold call. rewrite Hses. done.
Qed.

Lemma POST_unauthorized env address :
  ~ signed_in env ->
  exit_of (POST env address) = Unauthorized /\
  confidence (response_of (POST env address)) = None /\
  calls_of (POST env address) = [].
Proof.
  intros Hno. unfold POST.
  destruct (auth env) as [[|c u]|] eqn:Hauth; try done.
  destruct Hno. by exists c, u.
Qed.

Lemma POST_email_required env :
  signed_in env ->
  exit_of (POST env "") = EmailRequired /\
  valid (response_of (POST env "")) = Some false /\
  details (response_of (POST env "")) = None /\
  confidence (response_of (POST env "")) = None /\
  calls_of (POST env "") = [].
Proof. intros (c & u & Hauth). unfold POST. by rewrite Hauth. Qed.

Lemma signed_in_dec env : signed_in env \/ ~ signed_in env.
Proof.
  unfold signed_in. destruct (auth env) as [[|c u]|]; eauto.
  - right. intros (? & ? & ?). discriminate.
  - right. intros (? & ? & ?). discriminate.
Qed.

Lemma has_mx_false_absent env d : has_mx env d = false <-> mx_absent env d.
Proof.
  unfold has_mx, mx_absent. destruct (resolveMx env d) as [e|[|r rs]]; simpl.
  - split; [eauto | done].
  - split; [eauto | done].
  - split; [done|]. intros [?|(? & ?)]; discriminate.
Qed.

End VerifyEmailPaths.

Section VerifyEmailClaims.

Import AwsErrorHandler Server Regex VerifyEmail Scenario.

Lemma domain_of_valid address :
  isValidEmail address = true ->
  exists c d, JS.split "@" address !! 1%nat = Some (String c d).
Proof.
  intros Hv. destruct (valid_address_split address Hv) as (l & c & d & Hs).
  exists c, d. by rewrite Hs.
Qed.

(** C1. In the response at the end of the pipeline the confidence is
    "high" when [isVerified] is true and "medium" when it is false; the
    [mxRecords] detail is always true there, so the "low" row of the
    table is never needed.  Every other response carries no confidence,
    hence no response carries a value other than the three labels. *)
Theorem confidence_table env address :
  let out := POST env address in
  let r := response_of out in
  (exit_of out = FullPipeline ->
     exists v mx d,
       isVerified r = Some v /\ details r = Some d /\ mxRecords d = Some mx /\
       (v = true -> confidence r = Some "high") /\
       (v = false -> mx = true -> confidence r = Some "medium") /\
       (mx = false -> confidence r = Some "low") /\
       mx = true) /\
  (exit_of out <> FullPipeline -> confidence r = None) /\
  In (confidence r) [None; Some "high"; Some "medium"; Some "low"].
Proof.
  cbv zeta.
  destruct (signed_in_dec env) as [Hs|Hs].
  2: { destruct (POST_unauthorized env address Hs) as (He & Hc & _).
       rewrite He, Hc. simpl. split_and!; [done | done | auto]. }
  destruct (JS.truthy address) eqn:Ht.
  2: { destruct address; [|done].
       destruct (POST_email_required env Hs) as (He & _ & _ & Hc & _).
       rewrite He, Hc. simpl. split_and!; [done | done | auto]. }
  destruct (isValidEmail address) eqn:Hv.
  2: { rewrite (POST_invalid_format env address Hs Ht Hv). simpl.
       split_and!; [done | done | auto]. }
  destruct (domain_of_valid address Hv) as (c & d & Hd).
  destruct (has_mx env (String c d)) eqn:Hmx.
  2: { rewrite (POST_no_mail_servers env address _ Hs Hv Hd Hmx). simpl.
       split_and!; [done | done | auto]. }
  destruct (isDisposableEmail address) eqn:Hdisp.
  { rewrite (POST_disposable env address _ Hs Hv Hd Hmx Hdisp). simpl.
    split_and!; [done | done | auto]. }
  destruct (initSESClient env) as [e|[]] eqn:Hses.
  { destruct (POST_ses_unavailable env address _ e Hs Hv Hd Hmx Hdisp Hses)
      as (He & _ & Hc & _).
    rewrite He, Hc. simpl. split_and!; [done | done | auto]. }
  rewrite (POST_full_pipeline env address _ Hs Hv Hd Hmx Hdisp Hses).
  unfold exit_of, response_of. simpl. split_and!.
  - intros _. eexists _, true, _. split_and!; try done.
    + by intros ->.
    + by intros ->.
  - done.
  - destruct (ses_accepts env address); auto.
Qed.

Lemma confidence_table_witness :
  exit_of (POST (world [] []) "jane@example.com") = FullPipeline /\
  confidence (response_of (POST (world [] []) "jane@example.com")) = Some "high".
Proof.
  split; [vm_compute; reflexivity|].
  destruct (confidence_table (world [] []) "jane@example.com") as (H & _).
  destruct H as (v & mx & d & Hv & _ & _ & Hhigh & _); [vm_compute; reflexivity|].
  apply Hhigh. vm_compute in Hv. congruence.
Defined.

(** C2, as the code has it.  For a signed-in request with a non-empty
    address that fails the syntax check the response is not valid, its
    details have [format], [domain], [disposable] and [mxRecords] false
    and [roleBased] equal to the role-account classification of the
    address, and no network call is made. *)
Theorem malformed_address_response env address :
  signed_in env -> address <> "" -> isValidEmail address = false ->
  let out := POST env address in
  exit_of out = InvalidFormat /\
  valid (response_of out) = Some false /\
  (exists d,
      details (response_of out) = Some d /\
      format d = Some false /\ domain d = Some false /\
      disposable d = Some false /\ mxRecords d = Some false /\
      roleBased d = Some (isRoleBasedEmail address) /\
      verified d = None /\ quality d = None) /\
  calls_of out = [].
Proof.
  intros Hs Hne Hv. cbv zeta.
  assert (JS.truthy address = true) as Ht by (by destruct address).
  rewrite (POST_invalid_format env address Hs Ht Hv).
  unfold exit_of, response_of, calls_of. simpl.
  split_and!; try done. eexists. split_and!; done.
Qed.

Lemma malformed_address_response_witness :
  signed_in (world [] []) /\ "admin" <> "" /\ isValidEmail "admin" = false /\
  valid (response_of (POST (world [] []) "admin")) = Some false /\
  calls_of (POST (world [] []) "admin") = [].
Proof.
  assert (signed_in (world [] [])) as Hs by (by eexists _, _).
  assert ("admin" <> "") as Hne by discriminate.
  assert (isValidEmail "admin" = false) as Hv by (vm_compute; reflexivity).
  destruct (malformed_address_response (world [] []) "admin" Hs Hne Hv)
    as (_ & Hvalid & _ & Hcalls).
  exact (conj Hs (conj Hne (conj Hv (conj Hvalid Hcalls)))).
Defined.

(** C2 as stated fails: "admin" fails the syntax check, yet the response
    has [roleBased] true; and the empty string fails the syntax check,
    yet its response has no details at all. *)
Lemma malformed_role_account_counterexample :
  (isValidEmail "admin" = false /\
   ~ malformed_as_specified (POST (world [] []) "admin")) /\
  (isValidEmail "" = false /\
   ~ malformed_as_specified (POST (world [] []) "")).
Proof.
  split; (split; [vm_compute; reflexivity|]).
  - intros (_ & (d & Hd & _ & _ & _ & _ & [Hr|Hr] & _) & _);
      vm_compute in Hd; injection Hd as <-; discriminate Hr.
  - intros (_ & (d & Hd & _) & _). vm_compute in Hd. discriminate Hd.
Qed.

(** C3. A well-formed address whose domain is, after lower-casing, in
    the disposable set and has mail servers is answered with
    [disposable] true and [valid] false, and neither the provider client
    is created nor the provider called. *)
Theorem disposable_domain_rejected env address d :
  signed_in env -> isValidEmail address = true ->
  JS.split "@" address !! 1%nat = Some d ->
  In (JS.toLowerCase d) disposableDomains ->
  (exists r rs, resolveMx env d = inr (r :: rs)) ->
  let out := POST env address in
  exit_of out = Disposable /\
  valid (response_of out) = Some false /\
  (exists det, details (response_of out) = Some det /\
               disposable det = Some true) /\
  (forall a, ~ In (SesSend a) (calls_of out)) /\
  ~ In InitSES (calls_of out).
Proof.
  intros Hs Hv Hd Hin (r & rs & Hmx). cbv zeta.
  assert (has_mx env d = true) as Hhas by (unfold has_mx; by rewrite Hmx).
  assert (isDisposableEmail address = true) as Hdisp.
  { unfold isDisposableEmail. rewrite Hd. by apply array_includes_In. }
  rewrite (POST_disposable env address d Hs Hv Hd Hhas Hdisp).
  unfold exit_of, response_of, calls_of. simpl. split_and!; try done.
  - eexists. split; done.
  - intros a [Ha|[]]. discriminate Ha.
  - intros [Ha|[]]. discriminate Ha.
Qed.

Lemma disposable_domain_rejected_witness :
  signed_in (world [] []) /\
  isValidEmail "joe@Mailinator.COM" = true /\
  JS.split "@" "joe@Mailinator.COM" !! 1%nat = Some "Mailinator.COM" /\
  In (JS.toLowerCase "Mailinator.COM") disposableDomains /\
  valid (response_of (POST (world [] []) "joe@Mailinator.COM")) = Some false.
Proof.
  assert (signed_in (world [] [])) as Hs by (by eexists _, _).
  assert (isValidEmail "joe@Mailinator.COM" = true) as Hv
    by (vm_compute; reflexivity).
  assert (JS.split "@" "joe@Mailinator.COM" !! 1%nat = Some "Mailinator.COM")
    as Hd by (vm_compute; reflexivity).
  assert (In (JS.toLowerCase "Mailinator.COM") disposableDomains) as Hin
    by (vm_compute; auto).
  assert (exists r rs, resolveMx (world [] []) "Mailinator.COM" = inr (r :: rs))
    as Hmx by (eexists _, _; vm_compute; reflexivity).
  destruct (disposable_domain_rejected (world [] []) _ _ Hs Hv Hd Hin Hmx)
    as (_ & Hvalid & _).
  exact (conj Hs (conj Hv (conj Hd (conj Hin Hvalid)))).
Defined.

(** C4, as the code has it.  A well-formed address whose domain has no
    mail server (none found, or the lookup failed) is answered with
    status 200, [valid] and [isVerified] false, the no-mail-servers
    message and no confidence field; the only network call is the lookup
    itself. *)
Theorem no_mail_servers_response env address d :
  signed_in env -> isValidEmail address = true ->
  JS.split "@" address !! 1%nat = Some d -> mx_absent env d ->
  let out := POST env address in
  exit_of out = NoMailServers /\
  status (response_of out) = 200 /\
  valid (response_of out) = Some false /\
  isVerified (response_of out) = Some false /\
  message (response_of out)
    = Some "Email domain does not have valid mail servers" /\
  (exists det, details (response_of out) = Some det /\
               mxRecords det = Some false) /\
  confidence (response_of out) = None /\
  calls_of out = [ResolveMx d].
Proof.
  intros Hs Hv Hd Hmx. cbv zeta. apply has_mx_false_absent in Hmx.
  rewrite (POST_no_mail_servers env address d Hs Hv Hd Hmx).
  unfold exit_of, response_of, calls_of. simpl. split_and!; try done.
  eexists. split; done.
Qed.

Lemma no_mail_servers_response_witness :
  signed_in broken_dns /\
  isValidEmail "jane@example.org" = true /\
  mx_absent broken_dns "example.org" /\
  confidence (response_of (POST broken_dns "jane@example.org")) = None /\
  calls_of (POST broken_dns "jane@example.org") = [ResolveMx "example.org"].
Proof.
  assert (signed_in broken_dns) as Hs by (by eexists _, _).
  assert (isValidEmail "jane@example.org" = true) as Hv
    by (vm_compute; reflexivity).
  assert (JS.split "@" "jane@example.org" !! 1%nat = Some "example.org")
    as Hd by (vm_compute; reflexivity).
  assert (mx_absent broken_dns "example.org") as Hmx by (right; by eexists).
  destruct (no_mail_servers_response broken_dns _ _ Hs Hv Hd Hmx)
    as (_ & _ & _ & _ & _ & _ & Hc & Hcalls).
  exact (conj Hs (conj Hv (conj Hmx (conj Hc Hcalls)))).
Defined.

(** C4 as stated fails: for a domain without mail servers the response
    has no confidence field, so it is not "low". *)
Lemma no_mx_confidence_counterexample :
  isValidEmail "jane@example.org" = true /\
  resolveMx (world ["example.org"] []) "example.org" = inr [] /\
  confidence (response_of (POST (world ["example.org"] []) "jane@example.org"))
    = None /\
  ~ no_mx_as_specified (POST (world ["example.org"] []) "jane@example.org").
Proof.
  split_and!; try (vm_compute; reflexivity).
  intros (_ & Hc & _). vm_compute in Hc. discriminate Hc.
Qed.

End VerifyEmailClaims.

(** ** Typo suggestions and the quality label *)

Section SuggestionFacts.

Import Server VerifyEmail Scenario.

(** The scenario of the specification. *)
Lemma suggestion_gamil : suggestEmailCorrection "foo@gamil.com" = Some "foo@gmail.com".
Proof. vm_compute. reflexivity. Qed.

(** C8 fails on the code for a top-level label that names a property
    inherited by every object literal: neither the domain nor the label
    is a key of the two dictionaries, yet a suggestion is returned, made
    of the text of the inherited value.  The address passes the syntax
    check, so the endpoint hands this suggestion out. *)
Theorem suggestion_for_inherited_property :
  commonDomainTypos !! JS.toLowerCase "example.constructor" = None /\
  commonTldTypos !! JS.toLowerCase "constructor" = None /\
  suggestEmailCorrection "foo@example.constructor"
    = Some "foo@example.function Object() { [native code] }" /\
  isValidEmail "foo@example.constructor" = true /\
  suggestion (response_of (POST (world [] []) "foo@example.constructor"))
    = JS.Def "foo@example.function Object() { [native code] }".
Proof. split_and!; vm_compute; reflexivity. Qed.

(** The same through the domain dictionary. *)
Lemma suggestion_for_inherited_domain :
  suggestEmailCorrection "foo@__proto__" = Some "foo@[object Object]".
Proof. vm_compute. reflexivity. Qed.

(** The two routes classify alike up to lower-casing, which only the
    full pipeline applies. *)
Lemma classifyQuality_lower d :
  VerifyEmail.classifyQuality d
  = VerifyEmailBasic.classifyQuality (JS.toLowerCase d).
Proof. reflexivity. Qed.

(** C9 fails on the code: "user@Gmail.com" is accepted by both routes;
    the full pipeline labels it "personal", the basic route
    "business". *)
Theorem quality_label_differs_on_capitals :
  VerifyEmail.isValidEmail "user@Gmail.com" = true /\
  VerifyEmailBasic.isValidEmail "user@Gmail.com" = true /\
  VerifyEmail.emailQuality
    (VerifyEmail.response_of (VerifyEmail.POST (world [] []) "user@Gmail.com"))
    = Some "personal" /\
  VerifyEmailBasic.emailQuality
    (fst (VerifyEmailBasic.POST (world [] []) "user@Gmail.com"))
    = JS.Def "business".
Proof. split_and!; vm_compute; reflexivity. Qed.

End SuggestionFacts.

(** ** The bulk-result callbacks *)

Section BulkFacts.

Import BulkResults BulkScenario.

Lemma results_after_app results effs1 effs2 :
  results_after results (effs1 ++ effs2)
  = results_after (results_after results effs1) effs2.
Proof. apply fold_left_app. Qed.

(** C10. When the discovery request throws or answers with a non-ok
    status, [retryFindEmail] publishes nothing: the [results] state, and
    so every field of every record, is what it was. *)
Theorem failed_retry_changes_nothing net results record index :
  (findApi net (find_request record) = Throws \/
   exists data, findApi net (find_request record) = Responds false data) ->
  let effs := retryFindEmail net results record index in
  results_after results effs = results /\
  (forall e, In e effs -> is_publish e = false) /\
  (forall rs i r, results = Some rs -> rs !! i = Some r ->
     exists rs', results_after results effs = Some rs' /\ rs' !! i = Some r).
Proof.
  intros Hfail. cbv zeta.
  assert (results_after results (retryFindEmail net results record index) = results
          /\ forall e, In e (retryFindEmail net results record index) ->
                       is_publish e = false) as [Hsame Hnone].
  { unfold retryFindEmail.
    destruct Hfail as [-> | (data & ->)]; simpl;
      (split; [by destruct results|]);
      destruct results; simpl; intros e He;
      repeat (destruct He as [<- | He]; [done|]); done. }
  split_and!; [done | done |].
  intros rs i r -> Hr. rewrite Hsame. eauto.
Qed.

Lemma failed_retry_changes_nothing_witness :
  findApi offline (find_request alice) = Throws /\
  results_after (Some [alice; bob]) (retryFindEmail offline (Some [alice; bob]) alice 0)
    = Some [alice; bob].
Proof.
  assert (findApi offline (find_request alice) = Throws) as H by reflexivity.
  destruct (failed_retry_changes_nothing offline (Some [alice; bob]) alice 0
              (or_introl H)) as (Hsame & _).
  exact (conj H Hsame).
Defined.

(** C7 fails on the code.  With the "Verified" filter on, the table shows
    only Bob, in row 0; his Retry button calls [retryFindEmail(bob, 0)],
    which writes at index 0 of the unfiltered array: Alice's entry gets
    the new address and the retry count 1, down from 3, and Bob's retry
    count is not incremented. *)
Theorem retry_under_filter_lowers_retryCount :
  filteredResults (Some [alice; bob]) FilterVerified "" = [bob] /\
  retryCount alice = Some 3 /\
  exists alice',
    results_after (Some [alice; bob])
      (clickRetry rejecting (Some [alice; bob]) FilterVerified "" 0)
    = Some [alice'; bob] /\
    firstName alice' = "Alice" /\
    foundEmail alice' = Some "new@corp.com" /\
    retryCount alice' = Some 1.
Proof. split_and!; [done | done |]. eexists. vm_compute. done. Qed.

(** C5 fails on the code.  Carol is already verified, Dave is not, and
    both have the same address.  One call is made, as claimed, but its
    result is written to Carol, the first record with that address:
    her [isVerified] changes from true to false and Dave stays
    unchecked. *)
Theorem verifyAll_shared_address_updates_checked_record :
  emailsToVerify [carol; dave] = ["team@corp.com"] /\
  isVerified carol = JS.Def true /\
  exists b carol',
    snd (verifyAllEmails rejecting (Some [carol; dave])) = Some b /\
    fst (verifyAllEmails rejecting (Some [carol; dave])) = effects b /\
    remote_calls (effects b) = 1 /\
    updatedResults b = [carol'; dave] /\
    results_after (Some [carol; dave]) (effects b) = Some [carol'; dave] /\
    isVerified carol' = JS.Def false.
Proof.
  split_and!; [done | done |]. eexists _, _.
  split; [vm_compute; reflexivity|].
  split; [vm_compute; reflexivity|].
  split; [vm_compute; reflexivity|].
  split; [vm_compute; reflexivity|].
  split; vm_compute; reflexivity.
Qed.

End BulkFacts.

(** ** The loop of [verifyAllEmails] *)

Section BatchLoop.

Import BulkResults BulkScenario.

Variable net : Net.
Variable results : list BulkResultRecord.

Lemma findIndex_Some {A} (p : A -> bool) (l : list A) x :
  In x l -> p x = true ->
  exists k y, findIndex p l = Some k /\ l !! k = Some y /\ p y = true.
Proof.
  induction l as [|a l IH]; [done|]. intros Hin Hp. simpl.
  destruct (p a) eqn:Hpa; [by exists 0, a|].
  destruct Hin as [->|Hin]; [congruence|].
  destruct (IH Hin Hp) as (k & y & -> & Hk & Hy). by exists (S k), y.
Qed.

Lemma findIndex_first {A} (p : A -> bool) (l : list A) k :
  findIndex p l = Some k ->
  (exists y, l !! k = Some y /\ p y = true) /\
  (forall j z, j < k -> l !! j = Some z -> p z = false).
Proof.
  revert k. induction l as [|a l IH]; [done|]. intros k. simpl.
  destruct (p a) eqn:Hpa.
  - intros [= <-]. split; [by exists a | lia].
  - destruct (findIndex p l) as [k'|]; [|done]. intros [= <-].
    destruct (IH k' eq_refl) as [Hy Hbefore]. split; [done|].
    intros [|j] z Hj; simpl; [by intros [= <-]|].
    apply Hbefore. lia.
Qed.

(** Every address to verify is the address of a record that awaits
    verification. *)
Lemma emailsToVerify_In rs email :
  In email (emailsToVerify rs) <->
  exists r, In r rs /\ awaits_verification r = true /\ foundEmail r = Some email.
Proof.
  unfold emailsToVerify. rewrite <- list_elem_of_In, list_elem_of_omap.
  split.
  - intros (r & Hr & He). apply list_elem_of_In, List.filter_In in Hr.
    exists r. tauto.
  - intros (r & Hr & Ha & He). exists r. split; [|done].
    apply list_elem_of_In, List.filter_In. tauto.
Qed.

Lemma has_email_found r email : foundEmail r = Some email -> has_email email r = true.
Proof. unfold has_email. intros ->. by apply eqs_true. Qed.

Lemma has_email_true r email : has_email email r = true -> foundEmail r = Some email.
Proof.
  unfold has_email. destruct (foundEmail r); [|done].
  by intros ->%eqs_true.
Qed.

(** So [findIndex] never answers -1 inside the loop. *)
Lemma recordIndex_found email :
  In email (emailsToVerify results) ->
  exists k, findIndex (has_email email) results = Some k.
Proof.
  intros (r & Hr & _ & He)%emailsToVerify_In.
  destruct (findIndex_Some (has_email email) results r Hr (has_email_found _ _ He))
    as (k & _ & Hk & _).
  by exists k.
Qed.

Lemma fetches_app effs1 effs2 : fetches (effs1 ++ effs2) = fetches effs1 ++ fetches effs2.
Proof. apply List.filter_app. Qed.

(** One iteration: one request, one counter incremented, whatever the
    server does. *)
Lemma iteration_step total i email b k :
  findIndex (has_email email) results = Some k ->
  let b' := iteration net results total i email b in
  fetches (effects b') = fetches (effects b) ++ [verify_request email] /\
  failedCount b' = failedCount b + tally (unconfirmed (verifyApi net i email)) /\
  verifiedCount b' = verifiedCount b + tally (confirmed (verifyApi net i email)) /\
  length (updatedResults b') = length (updatedResults b) /\
  map retryCount (updatedResults b') = map retryCount (updatedResults b).
Proof.
  intros Hk. cbv zeta. unfold iteration. rewrite Hk.
  assert (forall data,
             let written :=
               match write_at (updatedResults b) k (with_verification data) with
               | Some rs' => rs'
               | None => updatedResults b
               end in
             length written = length (updatedResults b) /\
             map retryCount written = map retryCount (updatedResults b)) as Hstore.
  { intros data. unfold write_at. simpl.
    destruct (updatedResults b !! k) as [cur|] eqn:Hcur; [|done].
    split; [by rewrite length_insert|].
    rewrite list_fmap_insert. simpl. apply list_insert_id.
    by rewrite list_lookup_fmap, Hcur. }
  unfold unconfirmed, confirmed, verify_request in *.
  generalize ((i mod 5 =? 0)%nat || (i =? total - 1)%nat). intros publish.
  destruct (verifyApi net i email) as [|[] data];
    [| destruct (is_true (data_isVerified data)) |];
    destruct publish; simpl;
    rewrite ?fetches_app, ?app_nil_r; simpl;
    split_and!; try done; try lia; apply Hstore.
Qed.

Lemma count_cons {A} (p : A -> bool) a l :
  count p (a :: l) = tally (p a) + count p l.
Proof. unfold count. simpl. by destruct (p a). Qed.

Lemma loop_run total emails : forall i b,
  (forall email, In email emails -> In email (emailsToVerify results)) ->
  let b' := loop net results total i emails b in
  fetches (effects b') = fetches (effects b) ++ map verify_request emails /\
  failedCount b' = failedCount b + count unconfirmed (answers net i emails) /\
  verifiedCount b' = verifiedCount b + count confirmed (answers net i emails) /\
  length (updatedResults b') = length (updatedResults b) /\
  map retryCount (updatedResults b') = map retryCount (updatedResults b).
Proof.
  induction emails as [|email rest IH]; intros i b Hsel; cbv zeta.
  - simpl. rewrite app_nil_r. unfold count. simpl. split_and!; try done; lia.
  - destruct (recordIndex_found email) as (k & Hk); [apply Hsel; by left|].
    destruct (iteration_step total i email b k Hk) as (Hf & Hfail & Hver & Hlen & Hrc).
    destruct (IH (S i) (iteration net results total i email b)) as (Hf' & Hfail' & Hver' & Hlen' & Hrc').
    { intros e He. apply Hsel. by right. }
    simpl loop. rewrite Hf', Hfail', Hver', Hlen', Hrc', Hf, Hfail, Hver, Hlen, Hrc.
    simpl answers. rewrite !count_cons, <- app_assoc. simpl.
    split_and!; try done; lia.
Qed.

(** An iteration writes at the index [findIndex] gives, nowhere else. *)
Lemma iteration_frame total i email b j :
  (forall k, findIndex (has_email email) results = Some k -> k <> j) ->
  updatedResults (iteration net results total i email b) !! j
  = updatedResults b !! j.
Proof.
  intros Hne. unfold iteration.
  destruct (findIndex (has_email email) results) as [k|]; [|done].
  specialize (Hne k eq_refl).
  generalize ((i mod 5 =? 0)%nat || (i =? total - 1)%nat). intros publish.
  assert (forall data,
             match write_at (updatedResults b) k (with_verification data) with
             | Some rs' => rs'
             | None => updatedResults b
             end !! j = updatedResults b !! j) as Hstore.
  { intros data. unfold write_at.
    destruct (updatedResults b !! k); [|done]. by apply list_lookup_insert_ne. }
  destruct (verifyApi net i email) as [|[] data];
    [| destruct (is_true (data_isVerified data)) |];
    destruct publish; simpl; try done; apply Hstore.
Qed.

Lemma loop_frame total emails j : forall i b,
  (forall email k, In email emails ->
                   findIndex (has_email email) results = Some k -> k <> j) ->
  updatedResults (loop net results total i emails b) !! j
  = updatedResults b !! j.
Proof.
  induction emails as [|email rest IH]; intros i b Hne; [done|].
  simpl. rewrite IH.
  - apply iteration_frame. intros k. apply Hne. by left.
  - intros e k He. apply Hne. by right.
Qed.

End BatchLoop.

Section BatchClaims.

Import BulkResults BulkScenario.

Lemma answers_length net i emails : length (answers net i emails) = length emails.
Proof. revert i. induction emails as [|e es IH]; intros i; simpl; [done|]. by rewrite IH. Qed.

Lemma count_split {A} (p : A -> bool) l :
  count p l + count (fun a => negb (p a)) l = length l.
Proof.
  induction l as [|a l IH]; [done|]. rewrite !count_cons. simpl.
  destruct (p a); simpl; lia.
Qed.

Lemma count_le {A} (p q : A -> bool) l :
  (forall a, p a = true -> q a = true) -> count p l <= count q l.
Proof.
  intros Hpq. induction l as [|a l IH]; [done|]. rewrite !count_cons.
  destruct (p a) eqn:Hp; [rewrite (Hpq a Hp)|]; simpl; lia.
Qed.

Lemma threw_unconfirmed a : threw a = true -> unconfirmed a = true.
Proof. by destruct a. Qed.

(** What [verifyAllEmails] does once the loop has ended: publish, clear
    the flag, and at most one toast. *)
Lemma verifyAll_unfold net rs :
  emailsToVerify rs <> [] ->
  exists b post,
    verifyAllEmails net (Some rs) = (effects b, Some b) /\
    effects b = effects (after_loop net rs)
                ++ SetResults (updatedResults (after_loop net rs))
                   :: SetVerifyingBatch false :: post /\
    updatedResults b = updatedResults (after_loop net rs) /\
    verifiedCount b = verifiedCount (after_loop net rs) /\
    failedCount b = failedCount (after_loop net rs) /\
    fetches post = [] /\
    (forall st, results_after st post = st).
Proof.
  intros Hsome. destruct rs as [|r rs']; [done|].
  unfold verifyAllEmails, after_loop.
  destruct (emailsToVerify (r :: rs')) as [|e es] eqn:He; [done|].
  cbv zeta.
  set (bl := loop net (r :: rs') _ 0 (e :: es) _).
  change (verifiedCount (emit (SetVerifyingBatch false)
                           (emit (SetResults (updatedResults bl)) bl)))
    with (verifiedCount bl).
  change (failedCount (emit (SetVerifyingBatch false)
                         (emit (SetResults (updatedResults bl)) bl)))
    with (failedCount bl).
  destruct (0 <? verifiedCount bl)%nat; [|destruct (0 <? failedCount bl)%nat].
  - eexists _, [_]. split; [reflexivity|]. simpl. rewrite <- !app_assoc. done.
  - eexists _, [_]. split; [reflexivity|]. simpl. rewrite <- !app_assoc. done.
  - eexists _, []. split; [reflexivity|]. simpl. rewrite <- !app_assoc. done.
Qed.

Lemma after_loop_run net rs :
  fetches (effects (after_loop net rs)) = map verify_request (emailsToVerify rs) /\
  failedCount (after_loop net rs)
    = count unconfirmed (answers net 0 (emailsToVerify rs)) /\
  verifiedCount (after_loop net rs)
    = count confirmed (answers net 0 (emailsToVerify rs)) /\
  length (updatedResults (after_loop net rs)) = length rs /\
  map retryCount (updatedResults (after_loop net rs)) = map retryCount rs.
Proof.
  unfold after_loop.
  set (start := {| updatedResults := rs; verifiedCount := 0;
                   failedCount := 0; effects := _ |}).
  destruct (loop_run net rs (length (emailsToVerify rs)) (emailsToVerify rs) 0 start)
    as (Hf & Hfail & Hver & Hlen & Hrc); [done|].
  by rewrite Hf, Hfail, Hver, Hlen, Hrc.
Qed.

(** C6, as the code has it.  Whatever the server does, every selected
    address is requested once, in order; after the last request the final
    array is published and becomes the [results] state; the failure
    counter is the number of requests that did not come back as a 200 with
    a true [isVerified] (thrown, non-ok, or not verified), which is at
    least the number of exceptions; the two counters add up to the number
    of requests. *)
Theorem verifyAll_survives_exceptions net rs :
  emailsToVerify rs <> [] ->
  exists b pre post,
    verifyAllEmails net (Some rs) = (effects b, Some b) /\
    effects b = pre ++ SetResults (updatedResults b) :: SetVerifyingBatch false :: post /\
    fetches pre = map verify_request (emailsToVerify rs) /\
    fetches post = [] /\
    results_after (Some rs) (effects b) = Some (updatedResults b) /\
    failedCount b = count unconfirmed (answers net 0 (emailsToVerify rs)) /\
    verifiedCount b + failedCount b = length (emailsToVerify rs) /\
    exceptions net rs <= failedCount b.
Proof.
  intros Hsome.
  destruct (verifyAll_unfold net rs Hsome)
    as (b & post & Hrun & Heff & Hupd & Hver & Hfail & Hpost & Hstate).
  destruct (after_loop_run net rs) as (Hf & Hfail' & Hver' & _).
  exists b, (effects (after_loop net rs)), post.
  rewrite Hupd, Hfail, Hver, Hfail', Hver'. split_and!; try done.
  - rewrite Heff, results_after_app. unfold results_after in *. simpl.
    by rewrite Hstate.
  - unfold unconfirmed. rewrite count_split. apply answers_length.
  - unfold exceptions. apply count_le, threw_unconfirmed.
Qed.

Lemma verifyAll_survives_exceptions_witness :
  emailsToVerify [erin; frank] <> [] /\
  exceptions flaky [erin; frank] = 1 /\
  exists b,
    snd (verifyAllEmails flaky (Some [erin; frank])) = Some b /\
    fetches (effects b) = [verify_request "erin@corp.com"; verify_request "frank@corp.com"] /\
    failedCount b = 1 /\ verifiedCount b = 1.
Proof.
  assert (emailsToVerify [erin; frank] <> []) as Hsome by discriminate.
  destruct (verifyAll_survives_exceptions flaky [erin; frank] Hsome)
    as (b & pre & post & Hrun & Heff & Hpre & Hpost & _ & Hfail & Hsum & _).
  split; [exact Hsome|]. split; [vm_compute; reflexivity|].
  exists b. split; [by rewrite Hrun|].
  assert (failedCount b = 1) as Hone by (rewrite Hfail; vm_compute; reflexivity).
  split; [|split; [exact Hone|]].
  - rewrite Heff, fetches_app. simpl. by rewrite Hpre, Hpost.
  - rewrite Hone in Hsum. simpl in Hsum. lia.
Defined.

(** C6 as stated fails: one record, answered 200 with [isVerified: false];
    nothing is thrown, and the failure counter is 1. *)
Lemma failure_counter_counterexample :
  exceptions rejecting [erin] = 0 /\
  exists b,
    snd (verifyAllEmails rejecting (Some [erin])) = Some b /\
    failedCount b = 1 /\
    failedCount b <> exceptions rejecting [erin].
Proof.
  split; [vm_compute; reflexivity|]. eexists.
  split; [vm_compute; reflexivity|]. split; [vm_compute; reflexivity|].
  vm_compute. discriminate.
Qed.

End BatchClaims.

(** ** With pairwise distinct addresses the batch touches the selected
    records only *)

Section DistinctAddresses.

Import BulkResults BulkScenario.

Lemma omap_NoDup_index {A B} (f : A -> option B) (l : list A) :
  NoDup (omap f l) ->
  forall i j x y v,
    l !! i = Some x -> l !! j = Some y -> f x = Some v -> f y = Some v -> i = j.
Proof.
  induction l as [|a l IH]; [done|]. intros Hnd i j x y v Hi Hj Hx Hy.
  assert (NoDup (omap f l) /\ forall w, f a = Some w -> w ∉ omap f l) as [Hnd' Hfresh].
  { simpl in Hnd. fold (omap f l) in Hnd. destruct (f a) as [w|].
    - apply NoDup_cons in Hnd as [? ?]. split; [done|]. by intros ? [= <-].
    - split; [done|]. done. }
  destruct i as [|i], j as [|j]; simpl in Hi, Hj.
  - done.
  - injection Hi as ->. exfalso. apply (Hfresh v Hx).
    apply list_elem_of_omap. exists y. split; [|done].
    by eapply list_elem_of_lookup_2.
  - injection Hj as ->. exfalso. apply (Hfresh v Hy).
    apply list_elem_of_omap. exists x. split; [|done].
    by eapply list_elem_of_lookup_2.
  - f_equal. by eapply (IH Hnd' i j x y v).
Qed.

Lemma emailsToVerify_length rs :
  length (emailsToVerify rs) = count awaits_verification rs.
Proof.
  unfold emailsToVerify, count.
  induction rs as [|r rs IH]; [done|]. simpl.
  destruct (awaits_verification r) eqn:Ha; [|done].
  unfold awaits_verification, truthy_email in Ha.
  simpl. fold (omap foundEmail (List.filter awaits_verification rs)).
  destruct (foundEmail r); [|done]. simpl. by rewrite IH.
Qed.

(** When no two records share an address, the batch makes one call per
    record that awaits verification and leaves every other record as it
    was. *)
Lemma verifyAll_distinct_addresses net rs :
  NoDup (omap foundEmail rs) -> emailsToVerify rs <> [] ->
  exists b,
    verifyAllEmails net (Some rs) = (effects b, Some b) /\
    remote_calls (effects b) = count awaits_verification rs /\
    results_after (Some rs) (effects b) = Some (updatedResults b) /\
    length (updatedResults b) = length rs /\
    forall j r, rs !! j = Some r -> awaits_verification r = false ->
                updatedResults b !! j = Some r.
Proof.
  intros Hnd Hsome.
  destruct (verifyAll_unfold net rs Hsome)
    as (b & post & Hrun & Heff & Hupd & _ & _ & Hpost & Hstate).
  destruct (after_loop_run net rs) as (Hf & _ & _ & Hlen & _).
  exists b. split; [done|]. split_and!.
  - unfold remote_calls. fold (fetches (effects b)).
    rewrite Heff, fetches_app. simpl. fold (fetches post).
    by rewrite Hpost, app_nil_r, Hf, length_map, emailsToVerify_length.
  - rewrite Heff, results_after_app, Hupd. unfold results_after in *. simpl.
    by rewrite Hstate.
  - by rewrite Hupd.
  - intros j r Hj Hno. rewrite Hupd. unfold after_loop.
    rewrite loop_frame; [done|].
    intros email k (r0 & Hr0 & Ha0 & He0)%emailsToVerify_In Hk ->.
    destruct (findIndex_first _ _ _ Hk) as [(y & Hy & Hyes) _].
    assert (y = r) as -> by congruence.
    apply list_elem_of_In, list_elem_of_lookup in Hr0 as (j0 & Hj0).
    assert (j0 = j) as ->.
    { eapply (omap_NoDup_index foundEmail rs Hnd j0 j r0 r email); try done.
      by apply has_email_true. }
    congruence.
Qed.

(** If every unchecked record has an address, the records that await
    verification are the N - K unchecked ones. *)
Lemma awaiting_is_unchecked rs :
  (forall r, In r rs -> checked r = false -> truthy_email (foundEmail r) = true) ->
  count awaits_verification rs = length rs - count checked rs.
Proof.
  induction rs as [|r rs IH]; [done|]. intros Hall.
  rewrite !count_cons. simpl length.
  assert (count checked rs <= length rs) as Hle.
  { unfold count. apply List.filter_length_le. }
  rewrite IH by (intros; apply Hall; [by right | done]).
  unfold awaits_verification, checked in *.
  destruct (is_undefined (isVerified r)) eqn:Hu; simpl.
  - rewrite (Hall r); [simpl; lia | by left |].
    unfold checked. by rewrite Hu.
  - rewrite andb_false_r. simpl. lia.
Qed.

End DistinctAddresses.

(** ** The typo suggester away from inherited property names *)

Section SuggesterFacts.

Import Server VerifyEmail Scenario.

Lemma split_nonempty sep s : exists p ps, JS.split sep s = p :: ps.
Proof.
  destruct s as [|c s]; simpl; [by eexists _, _|].
  destruct (JS.eqc c sep); [by eexists _, _|].
  destruct (JS.split sep s); by eexists _, _.
Qed.

(** A last piece without separators is the last element. *)
Lemma split_last sep s t :
  all_chars (fun c => negb (JS.eqc c sep)) t = true ->
  JS.split sep (s +:+ String sep t) = JS.split sep s ++ [t].
Proof.
  intros Ht. induction s as [|c s IH].
  - rewrite append_empty_l. simpl. by rewrite eqc_refl, (split_one sep t Ht).
  - rewrite append_cons. simpl. rewrite IH.
    destruct (JS.eqc c sep); [done|].
    by destruct (split_nonempty sep s) as (p & ps & ->).
Qed.

Lemma pop_last xs t : JS.pop (xs ++ [t]) = Some (t, xs).
Proof.
  induction xs as [|x xs IH]; [done|]. simpl. rewrite IH.
  by destruct (xs ++ [t]) eqn:E; [destruct xs|].
Qed.

Lemma join_split sep s : JS.join (String sep "") (JS.split sep s) = s.
Proof.
  induction s as [|c s IH]; [done|]. simpl.
  destruct (split_nonempty sep s) as (p & ps & Hs). rewrite Hs in *.
  destruct (JS.eqc c sep) eqn:Hc.
  - apply eqc_true in Hc as ->. simpl in *. by rewrite IH.
  - destruct ps as [|q qs]; simpl in *; by rewrite <- IH.
Qed.

Lemma toLowerCase_char_not_upper c : not_upper (JS.toLowerCase_char c) = true.
Proof. revert c. intros [[] [] [] [] [] [] [] []]; vm_compute; reflexivity. Qed.

Lemma toLowerCase_not_upper s : all_chars not_upper (JS.toLowerCase s) = true.
Proof.
  induction s as [|c s IH]; [done|]. simpl.
  by rewrite all_chars_cons, toLowerCase_char_not_upper, IH.
Qed.

(** After lower-casing, only two inherited names can be hit. *)
Lemma inherited_lower_case s v :
  JS.object_prototype !! JS.toLowerCase s = Some v ->
  JS.toLowerCase s = "constructor" \/ JS.toLowerCase s = "__proto__".
Proof.
  intros H. pose proof (toLowerCase_not_upper s) as Hlow.
  unfold JS.object_prototype in H.
  apply elem_of_list_to_map_2 in H.
  repeat (apply elem_of_cons in H as [H|H];
          [injection H as Hk _; rewrite Hk in *; auto; discriminate Hlow|]).
  by apply elem_of_nil in H.
Qed.

Lemma domain_typo_truthy k v :
  commonDomainTypos !! k = Some v -> JS.truthy v = true.
Proof.
  intros H. unfold commonDomainTypos in H. apply elem_of_list_to_map_2 in H.
  repeat (apply elem_of_cons in H as [H|H]; [by injection H as _ ->|]).
  by apply elem_of_nil in H.
Qed.

Lemma tld_typo_truthy k v :
  commonTldTypos !! k = Some v -> JS.truthy v = true.
Proof.
  intros H. unfold commonTldTypos in H. apply elem_of_list_to_map_2 in H.
  repeat (apply elem_of_cons in H as [H|H]; [by injection H as _ ->|]).
  by apply elem_of_nil in H.
Qed.

Lemma truthy_entry_unknown table s :
  unknown_key table (JS.toLowerCase s) ->
  truthy_entry table (JS.toLowerCase s) = None.
Proof.
  intros (Hown & Hc & Hp). unfold truthy_entry, JS.get. rewrite Hown.
  destruct (JS.object_prototype !! JS.toLowerCase s) as [v|] eqn:Hv; [|done].
  by destruct (inherited_lower_case s v Hv).
Qed.

(** Step 1: a domain in the misspelling dictionary is replaced by its
    correction, whatever its last label. *)
Lemma suggest_domain_typo l d fixed :
  all_chars not_at l = true -> all_chars not_at d = true ->
  commonDomainTypos !! JS.toLowerCase d = Some fixed ->
  suggestEmailCorrection (l +:+ "@" +:+ d) = Some (l +:+ "@" +:+ fixed).
Proof.
  intros Hl Hd Hk. unfold suggestEmailCorrection.
  rewrite (split_address l d Hl Hd).
  unfold truthy_entry, JS.get. rewrite Hk. simpl.
  by rewrite (domain_typo_truthy _ _ Hk).
Qed.

(** Step 2: otherwise a last label in the TLD dictionary is replaced. *)
Lemma suggest_tld_typo l main tld fixed :
  all_chars not_at l = true ->
  all_chars not_at (main +:+ "." +:+ tld) = true ->
  all_chars not_dot tld = true ->
  unknown_key commonDomainTypos (JS.toLowerCase (main +:+ "." +:+ tld)) ->
  commonTldTypos !! JS.toLowerCase tld = Some fixed ->
  suggestEmailCorrection (l +:+ "@" +:+ main +:+ "." +:+ tld)
  = Some (l +:+ "@" +:+ main +:+ "." +:+ fixed).
Proof.
  intros Hl Hd Ht Hunknown Hk. unfold suggestEmailCorrection.
  rewrite (split_address l _ Hl Hd), (truthy_entry_unknown _ _ Hunknown).
  change ("." +:+ tld) with (String "." tld).
  rewrite (split_last "." main tld Ht), length_app, pop_last, join_split.
  destruct (split_nonempty "." main) as (p & ps & ->). simpl.
  rewrite Nat.add_1_r.
  unfold truthy_entry, JS.get. rewrite Hk. simpl.
  by rewrite (tld_typo_truthy _ _ Hk).
Qed.

(** Step 3: no suggestion for a domain with a single label ... *)
Lemma suggest_nothing_one_label l d :
  all_chars not_at l = true -> all_chars not_at d = true ->
  all_chars not_dot d = true ->
  unknown_key commonDomainTypos (JS.toLowerCase d) ->
  suggestEmailCorrection (l +:+ "@" +:+ d) = None.
Proof.
  intros Hl Hd Hdot Hunknown. unfold suggestEmailCorrection.
  rewrite (split_address l d Hl Hd), (truthy_entry_unknown _ _ Hunknown).
  by rewrite (split_one "." d Hdot).
Qed.

(** ... nor when the last label is not in the TLD dictionary. *)
Lemma suggest_nothing_unknown_tld l main tld :
  all_chars not_at l = true ->
  all_chars not_at (main +:+ "." +:+ tld) = true ->
  all_chars not_dot tld = true ->
  unknown_key commonDomainTypos (JS.toLowerCase (main +:+ "." +:+ tld)) ->
  unknown_key commonTldTypos (JS.toLowerCase tld) ->
  suggestEmailCorrection (l +:+ "@" +:+ main +:+ "." +:+ tld) = None.
Proof.
  intros Hl Hd Ht Hunknown Htld. unfold suggestEmailCorrection.
  rewrite (split_address l _ Hl Hd), (truthy_entry_unknown _ _ Hunknown).
  change ("." +:+ tld) with (String "." tld).
  rewrite (split_last "." main tld Ht), length_app, pop_last.
  destruct (split_nonempty "." main) as (p & ps & ->). simpl.
  by rewrite Nat.add_1_r, (truthy_entry_unknown _ _ Htld).
Qed.

(** An address with a second "@" gets no suggestion. *)
Lemma suggest_nothing_two_ats :
  suggestEmailCorrection "a@b@gamil.com" = None.
Proof. vm_compute. reflexivity. Qed.

End SuggesterFacts.

(** ** Retry and the retry count *)

Section RetryFacts.

Import BulkResults BulkScenario.

(** A successful retry of the record at [index], called with that very
    record: the checks are reset to undefined, the retry count goes up by
    one, the time is stamped, and the other entries stay. *)
Lemma retry_success_in_place net rs cur index data :
  rs !! index = Some cur ->
  findApi net (find_request cur) = Responds true data ->
  exists new,
    results_after (Some rs) (retryFindEmail net (Some rs) cur index)
    = Some (<[index := new]> rs) /\
    isVerified new = JS.Undefined /\
    emailQuality new = JS.Undefined /\
    retryCount new = Some (default 0 (retryCount cur) + 1) /\
    lastRetry new = Some (today net) /\
    firstName new = firstName cur /\ lastName new = lastName cur.
Proof.
  intros Hcur Hok. exists (retried (today net) cur data cur).
  unfold retryFindEmail, publish_written, write_at. rewrite Hok, Hcur.
  split; [|done]. unfold retry_toast.
  destruct (email_or_null (data_email data)); [done|].
  by destruct (data_personalEmails data) as [| |[|??]].
Qed.

(** Without filter and search term the table rows are the array entries,
    so the Retry button retries the record it is shown next to. *)
Lemma filteredResults_all rs : filteredResults (Some rs) FilterAll "" = rs.
Proof.
  unfold filteredResults. induction rs as [|r rs IH]; [done|].
  simpl. by rewrite IH.
Qed.

Lemma clickRetry_unfiltered net rs row :
  clickRetry net (Some rs) FilterAll "" row
  = match rs !! row with
    | Some record => retryFindEmail net (Some rs) record row
    | None => []
    end.
Proof. unfold clickRetry. by rewrite filteredResults_all. Qed.

(** Verification never touches a retry count. *)
Lemma with_verification_retryCount data r :
  retryCount (with_verification data r) = retryCount r.
Proof. reflexivity. Qed.

Lemma verifyAll_keeps_retryCount net rs b :
  snd (verifyAllEmails net (Some rs)) = Some b ->
  map retryCount (updatedResults b) = map retryCount rs.
Proof.
  intros Hb. destruct (emailsToVerify rs) as [|e es] eqn:He.
  - unfold verifyAllEmails in Hb. rewrite He in Hb. by destruct rs.
  - destruct (verifyAll_unfold net rs) as (b' & post & Hrun & _ & Hupd & _);
      [by rewrite He|].
    rewrite Hrun in Hb. injection Hb as <-. rewrite Hupd.
    apply after_loop_run.
Qed.

End RetryFacts.

(** * Further properties *)

(** ** The matcher is complete for the language *)

Section RegexComplete.

Import Regex Scenario.

Lemma append_empty s t : s +:+ t = "" -> s = "" /\ t = "".
Proof. by destruct s. Qed.

Lemma matches_nullable r s : Matches r s -> s = "" -> nullable r = true.
Proof.
  induction 1 as [|p c Hp|r1 r2 s1 s2 _ IH1 _ IH2|r1 r2 s _ IH|r1 r2 s _ IH| |];
    intros Hs; simpl; try done.
  - apply append_empty in Hs as [-> ->]. by rewrite IH1, IH2.
  - by rewrite IH.
  - rewrite IH by done. apply orb_true_r.
Qed.

Lemma deriv_complete r s0 :
  Matches r s0 -> forall c s, s0 = String c s -> Matches (deriv c r) s.
Proof.
  induction 1 as [|p c0 Hp|r1 r2 s1 s2 H1 IH1 H2 IH2|r1 r2 s' _ IH|r1 r2 s' _ IH
                 | |r s1 s2 H1 IH1 H2 IH2]; intros c s Hs; simpl.
  - discriminate.
  - injection Hs as -> <-. rewrite Hp. constructor.
  - destruct s1 as [|c1 s1'].
    + rewrite append_empty_l in Hs.
      rewrite (matches_nullable r1 "" H1 eq_refl). apply MAltR. by apply IH2.
    + rewrite append_cons in Hs. injection Hs as -> <-.
      destruct (nullable r1); [apply MAltL|]; constructor; auto.
  - apply MAltL. by apply IH.
  - apply MAltR. by apply IH.
  - discriminate.
  - destruct s1 as [|c1 s1'].
    + rewrite append_empty_l in Hs. by apply IH2.
    + rewrite append_cons in Hs. injection Hs as -> <-. constructor; auto.
Qed.

Lemma test_complete s : forall r, Matches r s -> test r s = true.
Proof.
  induction s as [|c s IH]; simpl; intros r H.
  - by eapply matches_nullable.
  - apply IH. by eapply deriv_complete.
Qed.

Lemma test_matches r s : test r s = true <-> Matches r s.
Proof. split; [apply test_sound | apply test_complete]. Qed.

Lemma star_class_matches p s : all_chars p s = true -> Matches (Star (Class p)) s.
Proof.
  induction s as [|c s IH]; [constructor|].
  rewrite all_chars_cons, andb_true_iff. intros [Hc Hs].
  change (String c s) with (String c "" +:+ s).
  constructor; [by constructor | auto].
Qed.

Lemma plus_class_matches p c s :
  all_chars p (String c s) = true -> Matches (Plus (Class p)) (String c s).
Proof.
  rewrite all_chars_cons, andb_true_iff. intros [Hc Hs].
  change (String c s) with (String c "" +:+ s).
  constructor; [by constructor | by apply star_class_matches].
Qed.

Lemma at_least_2_matches p c1 c2 s :
  all_chars p (String c1 (String c2 s)) = true ->
  Matches (AtLeast2 (Class p)) (String c1 (String c2 s)).
Proof.
  rewrite all_chars_cons, andb_true_iff. intros [Hc Hs].
  change (String c1 (String c2 s)) with (String c1 "" +:+ String c2 s).
  constructor; [by constructor | by apply plus_class_matches].
Qed.

Lemma matches_at_least_2_shape p s :
  Matches (AtLeast2 (Class p)) s ->
  exists c1 c2 s', s = String c1 (String c2 s') /\ all_chars p s = true.
Proof.
  unfold AtLeast2. inversion 1 as [| |? ? s1 s2 H1 H2| | | |]; subst.
  apply matches_class in H1 as (c & -> & Hc).
  apply matches_plus_class in H2 as (c' & s' & -> & Hs).
  exists c, c', s'. split; [done|].
  by rewrite append_cons, append_empty_l, all_chars_cons, Hc, Hs.
Qed.

End RegexComplete.

(** ** What the two syntax checks accept *)

Section Validators.

Import Regex Scenario.

Lemma chr_matches c : Matches (Chr c) (String c "").
Proof. unfold Chr. constructor. apply eqc_refl. Qed.

Lemma nonempty_cons (s : string) : s <> "" -> exists c s', s = String c s'.
Proof. destruct s as [|c s']; [done|]. eauto. Qed.

(** X1. The syntax check of the full pipeline accepts exactly the strings
    [l@d.t] with [l] a non-empty run of letters, digits and [._%+-], [d] a
    non-empty run of letters, digits, dots and hyphens, and [t] two or
    more letters. *)
Theorem isValidEmail_characterised address :
  VerifyEmail.isValidEmail address = true <->
  exists l d t,
    address = l +:+ "@" +:+ d +:+ "." +:+ t /\
    l <> "" /\ all_chars VerifyEmail.local_class l = true /\
    d <> "" /\ all_chars VerifyEmail.domain_class d = true /\
    2 <= String.length t /\ all_chars VerifyEmail.is_alpha t = true.
Proof.
  unfold VerifyEmail.isValidEmail. rewrite test_matches.
  unfold VerifyEmail.emailRegex. split.
  - intros H.
    inversion H as [| |? ? l s2 Hl H2| | | |]; subst. clear H.
    inversion H2 as [| |? ? a s3 Ha H3| | | |]; subst. clear H2.
    inversion H3 as [| |? ? d s4 Hd H4| | | |]; subst. clear H3.
    inversion H4 as [| |? ? dot t Hdot Ht| | | |]; subst. clear H4.
    apply matches_chr in Ha as ->. apply matches_chr in Hdot as ->.
    apply matches_plus_class in Hl as (cl & l' & -> & Hl).
    apply matches_plus_class in Hd as (cd & d' & -> & Hd).
    apply matches_at_least_2_shape in Ht as (c1 & c2 & t' & -> & Ht).
    exists (String cl l'), (String cd d'), (String c1 (String c2 t')).
    split_and!; try done. simpl. lia.
  - intros (l & d & t & -> & Hl & Hlc & Hd & Hdc & Hlen & Htc).
    apply nonempty_cons in Hl as (cl & l' & ->).
    apply nonempty_cons in Hd as (cd & d' & ->).
    destruct t as [|c1 [|c2 t']]; simpl in Hlen; try lia.
    constructor; [by apply plus_class_matches|].
    constructor; [apply chr_matches|].
    constructor; [by apply plus_class_matches|].
    constructor; [apply chr_matches|].
    by apply at_least_2_matches.
Qed.

Ltac by_chars :=
  intros [[] [] [] [] [] [] [] []]; vm_compute; congruence.

Lemma local_class_plain c :
  VerifyEmail.local_class c = true -> VerifyEmailBasic.plain c = true.
Proof. revert c. by_chars. Qed.

Lemma domain_class_plain c :
  VerifyEmail.domain_class c = true -> VerifyEmailBasic.plain c = true.
Proof. revert c. by_chars. Qed.

Lemma is_alpha_plain c :
  VerifyEmail.is_alpha c = true -> VerifyEmailBasic.plain c = true.
Proof. revert c. by_chars. Qed.

Lemma plain_not_at c : VerifyEmailBasic.plain c = true -> not_at c = true.
Proof. revert c. by_chars. Qed.

(** X2. Every address the full pipeline's syntax check accepts is accepted
    by the basic route's check. *)
Theorem strict_check_implies_basic_check address :
  VerifyEmail.isValidEmail address = true ->
  VerifyEmailBasic.isValidEmail address = true.
Proof.
  intros (l & d & t & -> & Hl & Hlc & Hd & Hdc & Hlen & Htc)%isValidEmail_characterised.
  apply nonempty_cons in Hl as (cl & l' & ->).
  apply nonempty_cons in Hd as (cd & d' & ->).
  destruct t as [|c1 t']; simpl in Hlen; [lia|].
  unfold VerifyEmailBasic.isValidEmail, VerifyEmailBasic.emailRegex.
  apply test_complete.
  constructor;
    [apply plus_class_matches; eapply all_chars_impl; [apply local_class_plain | done]|].
  constructor; [apply chr_matches|].
  constructor;
    [apply plus_class_matches; eapply all_chars_impl; [apply domain_class_plain | done]|].
  constructor; [apply chr_matches|].
  apply plus_class_matches. eapply all_chars_impl; [apply is_alpha_plain | done].
Qed.

Lemma strict_check_implies_basic_check_witness :
  VerifyEmail.isValidEmail "jane@example.com" = true /\
  VerifyEmailBasic.isValidEmail "jane@example.com" = true.
Proof.
  assert (VerifyEmail.isValidEmail "jane@example.com" = true) as H
    by (vm_compute; reflexivity).
  exact (conj H (strict_check_implies_basic_check _ H)).
Defined.

(** An address the basic check accepts has exactly one "@" and a non-empty
    domain after it. *)
Lemma basic_valid_address_split address :
  VerifyEmailBasic.isValidEmail address = true ->
  exists l c d, JS.split "@" address = [l; String c d].
Proof.
  intros H. apply test_sound in H. unfold VerifyEmailBasic.emailRegex in H.
  inversion H as [| |? ? l s2 Hl H2| | | |]; subst. clear H.
  inversion H2 as [| |? ? a s3 Ha H3| | | |]; subst. clear H2.
  inversion H3 as [| |? ? d s4 Hd H4| | | |]; subst. clear H3.
  inversion H4 as [| |? ? dot t Hdot Ht| | | |]; subst. clear H4.
  apply matches_chr in Ha as ->. apply matches_chr in Hdot as ->.
  apply matches_plus_class in Hl as (cl & l' & -> & Hl).
  apply matches_plus_class in Hd as (cd & d' & -> & Hd).
  apply matches_plus_class in Ht as (ct & t' & -> & Ht).
  exists (String cl l'), cd, (d' +:+ "." +:+ String ct t').
  rewrite <- append_cons. apply split_address.
  - eapply all_chars_impl; [apply plain_not_at | done].
  - rewrite all_chars_app. apply andb_true_iff. split.
    + eapply all_chars_impl; [apply plain_not_at | done].
    + rewrite all_chars_app. apply andb_true_iff. split; [done|].
      eapply all_chars_impl; [apply plain_not_at | done].
Qed.

End Validators.

(** ** The full pipeline: which return, which calls *)

Section PipelineOutcomes.

Import AwsErrorHandler Server Regex VerifyEmail Scenario.

Lemma POST_unauthorized_response env address :
  ~ signed_in env ->
  POST env address =
    ((Unauthorized,
      {| status := 401; unauthorized := Some "Unauthorized";
         valid := None; message := None; email := None;
         isVerified := None; emailQuality := None;
         suggestion := JS.Undefined; details := None;
         verifiedAt := None; confidence := None |}), []).
Proof.
  intros Hno. unfold POST.
  destruct (auth env) as [[|c u]|] eqn:Hauth; try done.
  destruct Hno. by exists c, u.
Qed.

Lemma POST_email_required_response env :
  signed_in env ->
  POST env "" =
    ((EmailRequired,
      {| status := 400; unauthorized := None;
         valid := Some false; message := Some "Email is required";
         email := None; isVerified := None; emailQuality := None;
         suggestion := JS.Undefined; details := None;
         verifiedAt := None; confidence := None |}), []).
Proof. intros (c & u & Hauth). unfold POST. by rewrite Hauth. Qed.

Lemma POST_ses_unavailable_response env address d e :
  signed_in env -> isValidEmail address = true ->
  JS.split "@" address !! 1%nat = Some d -> has_mx env d = true ->
  isDisposableEmail address = false -> initSESClient env = inl e ->
  POST env address =
    ((ServerError,
      {| status := 500; unauthorized := None; valid := Some false;
         message := Some "An error occurred while verifying the email";
         email := None; isVerified := None; emailQuality := None;
         suggestion := JS.Undefined;
         details :=
           Some {| format := Some true; domain := None; disposable := None;
                   mxRecords := None;
                   roleBased := Some (isRoleBasedEmail address);
                   verified := None; quality := None;
                   error := Some (AwsErrorHandler.message
                                    (handleAWSError (clock env) e "SES"));
                   errorType := Some (AwsErrorHandler.type
                                        (handleAWSError (clock env) e "SES"));
                   timestamp := Some (clock env) |};
         verifiedAt := None; confidence := None |}),
     [ResolveMx d; InitSES]).
Proof.
  intros (c & u & Hauth) Hv Hd Hmx Hdisp Hses.
  destruct (valid_address_split address Hv) as (l & c' & d' & Hsplit).
  assert (d = String c' d') as -> by (rewrite Hsplit in Hd; by injection Hd).
  assert (JS.truthy address = true) as Ht.
  { destruct address; [discriminate Hv | done]. }
  unfold POST, pipeline. rewrite Hauth, Ht, Hv, Hd. cbn [negb].
  unfold bind. rewrite hasMxRecords_run, Hmx, Hdisp. cbn [negb].
  unfold call. rewrite Hses. simpl.
  unfold handleAWSError. by destruct (classify e).
Qed.

(** Case analysis over the returns of [POST]: afterwards the goal speaks
    of the response each return builds. *)
Ltac post_cases env address :=
  let Hs := fresh "Hs" in let Ht := fresh "Ht" in let Hv := fresh "Hv" in
  let c := fresh "c" in let d := fresh "d" in let Hd := fresh "Hd" in
  let Hmx := fresh "Hmx" in let Hdisp := fresh "Hdisp" in
  let e := fresh "e" in let Hses := fresh "Hses" in
  destruct (signed_in_dec env) as [Hs|Hs];
    [|rewrite (POST_unauthorized_response env address Hs)];
    [destruct (JS.truthy address) eqn:Ht;
       [|destruct address; [|discriminate Ht];
         rewrite (POST_email_required_response env Hs)];
       [destruct (isValidEmail address) eqn:Hv;
          [|rewrite (POST_invalid_format env address Hs Ht Hv)];
          [destruct (domain_of_valid address Hv) as (c & d & Hd);
           destruct (has_mx env (String c d)) eqn:Hmx;
             [|rewrite (POST_no_mail_servers env address _ Hs Hv Hd Hmx)];
             [destruct (isDisposableEmail address) eqn:Hdisp;
                [rewrite (POST_disposable env address _ Hs Hv Hd Hmx Hdisp)|];
                [|destruct (initSESClient env) as [e|[]] eqn:Hses;
                    [rewrite (POST_ses_unavailable_response env address _ e
                                Hs Hv Hd Hmx Hdisp Hses)
                    |rewrite (POST_full_pipeline env address _
                                Hs Hv Hd Hmx Hdisp Hses)]]|]|]|]|];
  unfold exit_of, response_of, calls_of; cbn [fst snd].

(** X3. The "Invalid email domain" return is dead code: an address that
    passes the syntax check always has a non-empty domain. *)
Theorem POST_never_invalid_domain env address :
  exit_of (POST env address) <> InvalidDomain.
Proof. post_cases env address; done. Qed.

(** X4. A request makes at most one DNS lookup, then at most one creation
    of the provider client, then at most one provider request, in this
    order; the lookup is for the domain of the address and the provider is
    asked about the address itself. *)
Theorem POST_call_sequence env address :
  calls_of (POST env address) = [] \/
  exists d,
    JS.split "@" address !! 1%nat = Some d /\
    (calls_of (POST env address) = [ResolveMx d] \/
     calls_of (POST env address) = [ResolveMx d; InitSES] \/
     calls_of (POST env address) = [ResolveMx d; InitSES; SesSend address]).
Proof. post_cases env address; eauto 6. Qed.

(** X5. The provider is only ever asked about the address of the request,
    and only when that address passed the syntax check, is not disposable,
    and its domain has mail servers. *)
Theorem provider_only_for_eligible env address a :
  In (SesSend a) (calls_of (POST env address)) ->
  a = address /\
  isValidEmail address = true /\
  isDisposableEmail address = false /\
  exists d, JS.split "@" address !! 1%nat = Some d /\ has_mx env d = true.
Proof.
  post_cases env address; simpl; intros Hin;
    repeat (destruct Hin as [Hin|Hin]; try discriminate Hin); try done.
  injection Hin as <-. split_and!; try done. eauto.
Qed.

Lemma provider_only_for_eligible_witness :
  In (SesSend "jane@example.com")
     (calls_of (POST (world [] []) "jane@example.com")) /\
  isValidEmail "jane@example.com" = true.
Proof.
  assert (In (SesSend "jane@example.com")
             (calls_of (POST (world [] []) "jane@example.com"))) as Hin
    by (vm_compute; auto).
  destruct (provider_only_for_eligible _ _ _ Hin) as (_ & Hv & _).
  exact (conj Hin Hv).
Defined.

(** X6. A response says [valid: true] only at the end of the pipeline,
    with [isVerified] true, confidence "high", the deliverable message,
    and details that say well-formed, not disposable, mail servers
    present. *)
Theorem valid_means_verified env address :
  valid (response_of (POST env address)) = Some true ->
  exit_of (POST env address) = FullPipeline /\
  status (response_of (POST env address)) = 200 /\
  isVerified (response_of (POST env address)) = Some true /\
  confidence (response_of (POST env address)) = Some "high" /\
  message (response_of (POST env address))
    = Some "Email appears to be valid and deliverable" /\
  exists det,
    details (response_of (POST env address)) = Some det /\
    format det = Some true /\ disposable det = Some false /\
    mxRecords det = Some true /\ verified det = Some true.
Proof.
  post_cases env address; simpl; try discriminate.
  intros [= ->]. split_and!; try done. eexists. split_and!; done.
Qed.

Lemma valid_means_verified_witness :
  valid (response_of (POST (world [] []) "jane@example.com")) = Some true /\
  confidence (response_of (POST (world [] []) "jane@example.com")) = Some "high".
Proof.
  assert (valid (response_of (POST (world [] []) "jane@example.com")) = Some true)
    as Hv by (vm_compute; reflexivity).
  destruct (valid_means_verified _ _ Hv) as (_ & _ & _ & Hc & _).
  exact (conj Hv Hc).
Defined.

(** When the provider rejects the request, the route still answers
    200: not valid, [isVerified] false, confidence "medium", the
    verification-failed message. *)
Theorem provider_rejection_is_not_an_error env address d e :
  signed_in env -> isValidEmail address = true ->
  JS.split "@" address !! 1%nat = Some d -> has_mx env d = true ->
  isDisposableEmail address = false -> initSESClient env = inr tt ->
  sesSend env address = inl e ->
  exit_of (POST env address) = FullPipeline /\
  status (response_of (POST env address)) = 200 /\
  valid (response_of (POST env address)) = Some false /\
  isVerified (response_of (POST env address)) = Some false /\
  confidence (response_of (POST env address)) = Some "medium" /\
  message (response_of (POST env address))
    = Some "Email verification failed. The email address may not exist or may be unreachable." /\
  calls_of (POST env address) = [ResolveMx d; InitSES; SesSend address].
Proof.
  intros Hs Hv Hd Hmx Hdisp Hses Hrej.
  rewrite (POST_full_pipeline env address d Hs Hv Hd Hmx Hdisp Hses).
  unfold exit_of, response_of, calls_of, ses_accepts. simpl. by rewrite Hrej.
Qed.

Lemma provider_rejection_is_not_an_error_witness :
  sesSend (world [] ["jane@example.com"]) "jane@example.com"
    = inl {| name := "MessageRejected" |} /\
  status (response_of (POST (world [] ["jane@example.com"]) "jane@example.com")) = 200 /\
  confidence (response_of (POST (world [] ["jane@example.com"]) "jane@example.com"))
    = Some "medium".
Proof.
  assert (signed_in (world [] ["jane@example.com"])) as Hs by (by eexists _, _).
  assert (isValidEmail "jane@example.com" = true) as Hv by (vm_compute; reflexivity).
  assert (JS.split "@" "jane@example.com" !! 1%nat = Some "example.com") as Hd
    by (vm_compute; reflexivity).
  assert (has_mx (world [] ["jane@example.com"]) "example.com" = true) as Hmx
    by (vm_compute; reflexivity).
  assert (isDisposableEmail "jane@example.com" = false) as Hdisp
    by (vm_compute; reflexivity).
  assert (sesSend (world [] ["jane@example.com"]) "jane@example.com"
          = inl {| name := "MessageRejected" |}) as Hrej by (vm_compute; reflexivity).
  destruct (provider_rejection_is_not_an_error _ _ _ _ Hs Hv Hd Hmx Hdisp eq_refl Hrej)
    as (_ & Hst & _ & _ & Hc & _).
  exact (conj Hrej (conj Hst Hc)).
Defined.


End PipelineOutcomes.

(** ** Bucket names *)

Section BucketNames.

Import Regex Scenario S3Config.

Lemma length_append (s t : string) :
  String.length (s +:+ t) = String.length s + String.length t.
Proof. induction s as [|c s IH]; [done|]. rewrite append_cons. simpl. by rewrite IH. Qed.

Lemma matches_up_to p n : forall s,
  Matches (UpTo n (Class p)) s <-> all_chars p s = true /\ String.length s <= n.
Proof.
  induction n as [|n IH]; intros s; simpl.
  - split.
    + inversion 1. split; [done | simpl; lia].
    + intros [_ Hlen]. destruct s; [constructor | simpl in Hlen; lia].
  - split.
    + inversion 1 as [| | |? ? ? H1|? ? ? H2| |]; subst.
      * inversion H1. split; [done | simpl; lia].
      * inversion H2 as [| |? ? s1 s2 Hc Hrest| | | |]; subst.
        apply matches_class in Hc as (c & -> & Hc).
        apply IH in Hrest as [Hall Hlen].
        rewrite append_cons, append_empty_l, all_chars_cons, Hc, Hall.
        split; [done | simpl; lia].
    + intros [Hall Hlen]. destruct s as [|c s]; [apply MAltL; constructor|].
      rewrite all_chars_cons, andb_true_iff in Hall. destruct Hall as [Hc Hall].
      apply MAltR. change (String c s) with (String c "" +:+ s).
      constructor; [by constructor|]. apply IH. split; [done | simpl in Hlen; lia].
Qed.

Lemma matches_one_to p n s :
  Matches (OneTo (S n) (Class p)) s <->
  all_chars p s = true /\ 1 <= String.length s <= S n.
Proof.
  unfold OneTo. rewrite Nat.sub_1_r. cbn [Nat.pred]. split.
  - inversion 1 as [| |? ? s1 s2 Hm1 Hm2| | | |]; subst.
    apply matches_class in Hm1 as (m & -> & Hm).
    apply matches_up_to in Hm2 as [Hall Hlen].
    rewrite append_cons, append_empty_l, all_chars_cons, Hm, Hall.
    split; [done | simpl; lia].
  - intros [Hall [Hlen1 Hlen2]].
    destruct s as [|m mid]; [simpl in Hlen1; lia|].
    rewrite all_chars_cons, andb_true_iff in Hall. destruct Hall as [Hm Hall].
    change (String m mid) with (String m "" +:+ mid).
    constructor; [by constructor|].
    apply matches_up_to. split; [done | simpl in *; lia].
Qed.

Lemma matches_bucket_name name :
  test bucketNameRegex name = true <->
  exists a mid z,
    name = String a (mid +:+ String z "") /\
    lower_alnum a = true /\ lower_alnum z = true /\
    all_chars inner mid = true /\
    1 <= String.length mid <= 61.
Proof.
  rewrite test_matches. unfold bucketNameRegex.
  generalize (matches_one_to inner 60). generalize (OneTo 61 (Class inner)).
  intros body Hbody. split.
  - inversion 1 as [| |? ? s1 s2 Ha H2| | | |]; subst.
    inversion H2 as [| |? ? s3 s4 Hmid Hz| | | |]; subst.
    apply matches_class in Ha as (a & -> & Ha).
    apply matches_class in Hz as (z & -> & Hz).
    apply Hbody in Hmid as [Hall Hlen].
    by exists a, s3, z.
  - intros (a & mid & z & -> & Ha & Hz & Hall & Hlen).
    change (String a (mid +:+ String z ""))
      with (String a "" +:+ (mid +:+ String z "")).
    constructor; [by constructor|].
    constructor; [|by constructor].
    by apply Hbody.
Qed.

(** X8. A bucket configuration is valid exactly when it is a non-empty
    string whose checked segment (the text before the first "/", once the
    first "s3://" is removed) has 3 to 63 characters, all of them lower-case
    letters, digits, dots or hyphens, the first and the last a letter or a
    digit.  A missing or empty configuration is never valid. *)
Theorem validateS3BucketConfig_characterised bucketName :
  isValid (validateS3BucketConfig bucketName) = true <->
  exists b a mid z,
    bucketName = Some b /\ b <> "" /\
    actualBucketName b = String a (mid +:+ String z "") /\
    lower_alnum a = true /\ lower_alnum z = true /\
    all_chars inner mid = true /\
    3 <= String.length (actualBucketName b) <= 63.
Proof.
  unfold validateS3BucketConfig. destruct bucketName as [[|c b]|]; simpl.
  - split; [done|]. by intros (? & ? & ? & ? & [= <-] & ? & _).
  - destruct (test bucketNameRegex (actualBucketName (String c b))) eqn:Ht; simpl.
    + split; [intros _|done].
      apply matches_bucket_name in Ht as (a & mid & z & Hn & Ha & Hz & Hall & Hlen).
      exists (String c b), a, mid, z. split_and!; try done;
        rewrite Hn; simpl; rewrite length_append; simpl; lia.
    + split; [done|].
      intros (b' & a & mid & z & [= <-] & _ & Hn & Ha & Hz & Hall & Hlen).
      assert (test bucketNameRegex (actualBucketName (String c b)) = true) as Ht'.
      { apply matches_bucket_name. exists a, mid, z. split_and!; try done;
          rewrite Hn in Hlen; simpl in Hlen; rewrite length_append in Hlen;
          simpl in Hlen; lia. }
      congruence.
  - split; [done|]. by intros (? & ? & ? & ? & ? & _).
Qed.

End BucketNames.

(** ** Error classification *)

Section ErrorClasses.

Import AwsErrorHandler Scenario Cases.

(** [handleAWSError] classifies an error as UNKNOWN exactly when its
    name is none of the thirteen names it knows; the message is then the
    generic one followed by the sentence for the service, and the time
    stamp and the original error are handed through. *)
Theorem unknown_errors now e service :
  (type (handleAWSError now e service) = UNKNOWN <-> ~ In (name e) knownErrorNames) /\
  (type (handleAWSError now e service) = UNKNOWN ->
   message (handleAWSError now e service)
   = "An unknown error occurred with AWS services" +:+ service_context service) /\
  timestamp (handleAWSError now e service) = now /\
  originalError (handleAWSError now e service) = e /\
  AwsErrorHandler.service (handleAWSError now e service) = service.
Proof.
  unfold handleAWSError, classify, name_is, JS.array_includes, knownErrorNames.
  simpl existsb.
  repeat match goal with
         | |- context [JS.eqs (name e) ?k] =>
             let E := fresh "E" in
             destruct (JS.eqs (name e) k) eqn:E;
               [apply eqs_true in E; rewrite E; simpl;
                split_and!; try done; split; [done | intros Hn; exfalso; apply Hn; simpl; tauto]
               |simpl]
         end.
  split_and!; try done. split; [intros _|done].
  intros Hin. simpl in Hin.
  repeat (destruct Hin as [Hin|Hin];
          [symmetry in Hin; apply eqs_true in Hin; congruence|]).
  done.
Qed.

End ErrorClasses.

(** ** The basic route *)

Section BasicRoute.

Import AwsErrorHandler Server Regex Scenario Cases.

Lemma basic_verifyEmailWithSES_run env address tr :
  VerifyEmailBasic.isValidEmail address = true ->
  VerifyEmailBasic.verifyEmailWithSES env address tr
  = (Ok (ses_accepts env address), tr ++ [SesSend address]).
Proof.
  intros Hv.
  unfold VerifyEmailBasic.verifyEmailWithSES, try_catch, bind, call, ret, ses_accepts.
  rewrite Hv. simpl. by destruct (sesSend env address).
Qed.

(** X9. The basic route never consults DNS.  It answers 200 exactly for a
    signed-in request with an address that passes its syntax check when the
    provider client can be created; the response then carries the
    provider's verdict and a quality label that is "personal" or
    "business", never null, and the provider was asked once. *)
Theorem basic_route_outcome env address :
  (forall d, ~ In (ResolveMx d) (snd (VerifyEmailBasic.POST env address))) /\
  (VerifyEmailBasic.status (fst (VerifyEmailBasic.POST env address)) = 200 <->
   signed_in env /\ VerifyEmailBasic.isValidEmail address = true /\
   initSESClient env = inr tt) /\
  (VerifyEmailBasic.status (fst (VerifyEmailBasic.POST env address)) = 200 ->
   VerifyEmailBasic.isVerified (fst (VerifyEmailBasic.POST env address))
     = Some (ses_accepts env address) /\
   (VerifyEmailBasic.emailQuality (fst (VerifyEmailBasic.POST env address))
      = JS.Def "personal" \/
    VerifyEmailBasic.emailQuality (fst (VerifyEmailBasic.POST env address))
      = JS.Def "business") /\
   snd (VerifyEmailBasic.POST env address) = [InitSES; SesSend address]).
Proof.
  unfold VerifyEmailBasic.POST, signed_in.
  destruct (auth env) as [[|c u]|] eqn:Hauth; simpl.
  1,3: split_and!; [by intros d [] | | done];
       split; [done | by intros [(? & ? & ?) _]].
  unfold VerifyEmailBasic.pipeline.
  destruct (JS.truthy address) eqn:Ht; simpl.
  2: { split_and!; [by intros d [] | | done].
       split; [done|]. intros (_ & Hv & _). by destruct address. }
  destruct (VerifyEmailBasic.isValidEmail address) eqn:Hv; simpl.
  2: { split_and!; [by intros d [] | | done]. split; [done|]. by intros (_ & ? & _). }
  unfold bind, call.
  destruct (initSESClient env) as [e|[]] eqn:Hses; simpl.
  { split_and!; [ | | done].
    - intros d [Hin|[]]. discriminate Hin.
    - split; [done|]. by intros (_ & _ & ?). }
  rewrite (basic_verifyEmailWithSES_run env address _ Hv). unfold ret. simpl.
  destruct (basic_valid_address_split address Hv) as (l & c' & d' & Hsplit).
  rewrite Hsplit. simpl. split_and!.
  - intros d [Hin|[Hin|[]]]; discriminate Hin.
  - split; [intros _|done]. split_and!; eauto.
  - intros _. split_and!; try done.
    unfold VerifyEmailBasic.classifyQuality.
    destruct (JS.array_includes _ _); auto.
Qed.

Lemma basic_route_outcome_witness :
  VerifyEmailBasic.status (fst (VerifyEmailBasic.POST (world [] []) "a@b.c")) = 200 /\
  snd (VerifyEmailBasic.POST (world [] []) "a@b.c") = [InitSES; SesSend "a@b.c"].
Proof.
  assert (VerifyEmailBasic.status (fst (VerifyEmailBasic.POST (world [] []) "a@b.c")) = 200)
    as Hst by (vm_compute; reflexivity).
  destruct (basic_route_outcome (world [] []) "a@b.c") as (_ & _ & H).
  destruct (H Hst) as (_ & _ & Hcalls).
  exact (conj Hst Hcalls).
Defined.


End BasicRoute.

(** ** A batch, record by record *)

Section BatchPointwise.

Import BulkResults BulkScenario BulkCases.

Lemma loop_app net rs total xs : forall ys i b,
  loop net rs total i (xs ++ ys) b
  = loop net rs total (i + length xs) ys (loop net rs total i xs b).
Proof.
  induction xs as [|x xs IH]; intros ys i b; simpl.
  - by rewrite Nat.add_0_r.
  - rewrite IH. f_equal. lia.
Qed.

(** The iteration for an address writes the outcome at the index
    [findIndex] gives for it. *)
Lemma iteration_write net rs total i email b j :
  findIndex (has_email email) rs = Some j ->
  updatedResults (iteration net rs total i email b) !! j
  = outcome (verifyApi net i email) <$> updatedResults b !! j.
Proof.
  intros Hj. unfold iteration. rewrite Hj.
  generalize ((i mod 5 =? 0)%nat || (i =? total - 1)%nat). intros publish.
  assert (forall data,
             match write_at (updatedResults b) j (with_verification data) with
             | Some rs' => rs'
             | None => updatedResults b
             end !! j = with_verification data <$> updatedResults b !! j) as Hstore.
  { intros data. unfold write_at.
    destruct (updatedResults b !! j) as [cur|] eqn:Hcur; simpl.
    - apply list_lookup_insert_eq. by eapply lookup_lt_Some.
    - done. }
  assert (forall o : option BulkResultRecord, o = id <$> o) as Hid
    by (by intros []).
  unfold outcome.
  destruct (verifyApi net i email) as [|[] data];
    [| destruct (is_true (data_isVerified data)) |];
    destruct publish; simpl; try apply Hstore; by destruct (updatedResults b !! j).
Qed.

Lemma omap_filter_NoDup {A B} (f : A -> option B) (p : A -> bool) (l : list A) :
  NoDup (omap f l) -> NoDup (omap f (List.filter p l)).
Proof.
  induction l as [|a l IH]; [done|]. simpl.
  fold (omap f l). intros Hnd.
  assert (NoDup (omap f l)) as Hnd'.
  { destruct (f a); [by apply NoDup_cons in Hnd as [_ ?] | done]. }
  destruct (p a); simpl; [|by apply IH].
  fold (omap f (List.filter p l)).
  destruct (f a) as [v|]; [|by apply IH].
  apply NoDup_cons in Hnd as [Hfresh _]. apply NoDup_cons. split; [|by apply IH].
  intros (x & Hx & Hfx)%list_elem_of_omap. apply Hfresh.
  apply list_elem_of_omap. exists x. split; [|done].
  apply list_elem_of_In. apply list_elem_of_In, List.filter_In in Hx. tauto.
Qed.

(** With distinct addresses, [findIndex] finds the record the address
    came from. *)
Lemma findIndex_own rs j r email :
  NoDup (omap foundEmail rs) -> rs !! j = Some r -> foundEmail r = Some email ->
  findIndex (has_email email) rs = Some j.
Proof.
  intros Hnd Hj He.
  destruct (findIndex_Some (has_email email) rs r) as (k & y & Hk & Hy & Hhas).
  { apply list_elem_of_In. by eapply list_elem_of_lookup_2. }
  { by apply has_email_found. }
  rewrite Hk. f_equal.
  eapply (omap_NoDup_index foundEmail rs Hnd k j y r email); try done.
  by apply has_email_true.
Qed.

Lemma after_loop_pointwise net rs i email j r :
  NoDup (omap foundEmail rs) ->
  emailsToVerify rs !! i = Some email ->
  rs !! j = Some r -> foundEmail r = Some email ->
  updatedResults (after_loop net rs) !! j = Some (outcome (verifyApi net i email) r).
Proof.
  intros Hnd Hi Hj He.
  pose proof (omap_filter_NoDup foundEmail awaits_verification rs Hnd) as Hnd'.
  fold (emailsToVerify rs) in Hnd'.
  pose proof (findIndex_own rs j r email Hnd Hj He) as Hfind.
  assert (forall email' k, In email' (emailsToVerify rs) -> email' <> email ->
                           findIndex (has_email email') rs = Some k -> k <> j) as Hother.
  { intros email' k _ Hne Hk ->.
    destruct (findIndex_first _ _ _ Hk) as [(y & Hy & Hhas) _].
    apply has_email_true in Hhas. congruence. }
  unfold after_loop.
  rewrite <- (take_drop_middle (emailsToVerify rs) i email Hi) at 2.
  rewrite <- (take_drop_middle (emailsToVerify rs) i email Hi) in Hnd'.
  apply NoDup_app in Hnd' as (_ & Hpre & Hpost).
  apply NoDup_cons in Hpost as [Hpost _].
  rewrite loop_app. simpl.
  rewrite length_take_le by (apply lookup_lt_Some in Hi; lia).
  rewrite loop_frame.
  2: { intros e' k He' Hk. apply (Hother e' k); [|  |done].
       - apply list_elem_of_In, list_elem_of_In in He'.
         apply list_elem_of_In. rewrite <- (take_drop_middle _ i email Hi).
         apply list_elem_of_In. apply in_or_app. right. by right.
       - intros ->. apply Hpost. by apply list_elem_of_In. }
  rewrite (iteration_write _ _ _ _ _ _ j Hfind).
  rewrite loop_frame.
  2: { intros e' k He' Hk. apply (Hother e' k); [|  |done].
       - apply list_elem_of_In. rewrite <- (take_drop_middle _ i email Hi).
         apply list_elem_of_In. apply in_or_app. by left.
       - intros ->. apply (Hpre email); [by apply list_elem_of_In | by left]. }
  simpl. by rewrite Hj.
Qed.

Lemma verifyAll_records net rs :
  NoDup (omap foundEmail rs) -> emailsToVerify rs <> [] ->
  exists b,
    verifyAllEmails net (Some rs) = (effects b, Some b) /\
    results_after (Some rs) (effects b) = Some (updatedResults b) /\
    length (updatedResults b) = length rs /\
    forall j r, rs !! j = Some r ->
      (awaits_verification r = false -> updatedResults b !! j = Some r) /\
      (awaits_verification r = true ->
       exists i email,
         emailsToVerify rs !! i = Some email /\ foundEmail r = Some email /\
         updatedResults b !! j = Some (outcome (verifyApi net i email) r)).
Proof.
  intros Hnd Hsome.
  destruct (verifyAll_distinct_addresses net rs Hnd Hsome)
    as (b & Hrun & _ & Hstate & Hlen & Hframe).
  destruct (verifyAll_unfold net rs Hsome) as (b' & post & Hrun' & _ & Hupd & _).
  assert (b' = b) as -> by congruence.
  exists b. split_and!; try done.
  intros j r Hj. split; [by apply Hframe|].
  intros Ha.
  assert (exists email, foundEmail r = Some email) as [email He].
  { unfold awaits_verification, truthy_email in Ha.
    destruct (foundEmail r); [eauto | done]. }
  assert (In email (emailsToVerify rs)) as Hin.
  { apply emailsToVerify_In. exists r. split_and!; try done.
    apply list_elem_of_In. by eapply list_elem_of_lookup_2. }
  apply list_elem_of_In, list_elem_of_lookup in Hin as (i & Hi).
  exists i, email. split_and!; try done.
  rewrite Hupd. by apply after_loop_pointwise.
Qed.

(** X10. With pairwise distinct addresses, a batch run is what one would
    write down record by record: a record that does not await verification
    is left as it is, the others become the outcome of the answer to their
    own request (verification fields set on a 200, untouched otherwise),
    and the result is the published state. *)
Theorem verifyAll_pointwise net rs :
  NoDup (omap foundEmail rs) -> emailsToVerify rs <> [] ->
  exists b,
    verifyAllEmails net (Some rs) = (effects b, Some b) /\
    results_after (Some rs) (effects b) = Some (updatedResults b) /\
    length (updatedResults b) = length rs /\
    forall j r, rs !! j = Some r ->
      (awaits_verification r = false -> updatedResults b !! j = Some r) /\
      (awaits_verification r = true ->
       exists i email,
         emailsToVerify rs !! i = Some email /\ foundEmail r = Some email /\
         updatedResults b !! j = Some (outcome (verifyApi net i email) r)).
Proof. apply verifyAll_records. Qed.

Lemma verifyAll_pointwise_witness :
  NoDup (omap foundEmail [alice; erin; frank]) /\
  emailsToVerify [alice; erin; frank] <> [] /\
  exists b,
    snd (verifyAllEmails flaky (Some [alice; erin; frank])) = Some b /\
    updatedResults b !! 0 = Some alice /\
    updatedResults b !! 1 = Some erin.
Proof.
  assert (NoDup (omap foundEmail [alice; erin; frank])) as Hnd.
  { apply (bool_decide_unpack _). by vm_compute. }
  assert (emailsToVerify [alice; erin; frank] <> []) as Hsome by discriminate.
  destruct (verifyAll_pointwise flaky _ Hnd Hsome) as (b & Hrun & _ & _ & Hrec).
  split; [exact Hnd|]. split; [exact Hsome|]. exists b.
  split; [by rewrite Hrun|]. split.
  - by apply (Hrec 0 alice).
  - destruct (Hrec 1 erin eq_refl) as [_ H].
    destruct (H eq_refl) as (i & email & Hi & He & Hout).
    injection He as <-. destruct i as [|[|i]]; try discriminate Hi.
    exact Hout.
Defined.

(** Verification leaves the core of a record alone. *)
Lemma outcome_core a r : core (outcome a r) = core r.
Proof. by destruct a as [|[] data]. Qed.

Lemma write_at_cores (l : list BulkResultRecord) k data :
  map core match write_at l k (with_verification data) with
           | Some rs' => rs'
           | None => l
           end = map core l.
Proof.
  unfold write_at. destruct (l !! k) as [cur|] eqn:Hcur; [|done].
  rewrite list_fmap_insert. apply list_insert_id.
  by rewrite list_lookup_fmap, Hcur.
Qed.

Lemma iteration_cores net rs total i email b :
  map core (updatedResults b) = map core rs ->
  Forall (keeps_cores rs) (effects b) ->
  map core (updatedResults (iteration net rs total i email b)) = map core rs /\
  Forall (keeps_cores rs) (effects (iteration net rs total i email b)).
Proof.
  intros Hc Hf. unfold iteration.
  destruct (findIndex (has_email email) rs) as [k|]; [|done].
  generalize ((i mod 5 =? 0)%nat || (i =? total - 1)%nat). intros publish.
  pose proof (write_at_cores (updatedResults b) k) as Hw.
  destruct (verifyApi net i email) as [|[] data];
    [| destruct (is_true (data_isVerified data)) |];
    destruct publish; simpl; rewrite ?Hw;
    (split; [done|]);
    repeat (apply Forall_app; split); try done;
    repeat (apply Forall_cons; split); simpl; rewrite ?Hw; done.
Qed.

Lemma loop_cores net rs total emails : forall i b,
  map core (updatedResults b) = map core rs ->
  Forall (keeps_cores rs) (effects b) ->
  map core (updatedResults (loop net rs total i emails b)) = map core rs /\
  Forall (keeps_cores rs) (effects (loop net rs total i emails b)).
Proof.
  induction emails as [|email rest IH]; intros i b Hc Hf; [done|].
  simpl. destruct (iteration_cores net rs total i email b Hc Hf) as [Hc' Hf'].
  by apply IH.
Qed.

(** After the loop: the final publish, the flag, and at most one toast. *)
Lemma verifyAll_tail net rs :
  emailsToVerify rs <> [] ->
  exists post,
    fst (verifyAllEmails net (Some rs))
    = effects (after_loop net rs)
      ++ SetResults (updatedResults (after_loop net rs))
         :: SetVerifyingBatch false :: post /\
    (post = [] \/ exists kind text, post = [Toast kind text]).
Proof.
  intros Hsome. destruct rs as [|r rs']; [done|].
  unfold verifyAllEmails, after_loop.
  destruct (emailsToVerify (r :: rs')) as [|e es] eqn:He; [done|].
  cbv zeta.
  set (bl := loop net (r :: rs') _ 0 (e :: es) _).
  change (verifiedCount (emit (SetVerifyingBatch false)
                           (emit (SetResults (updatedResults bl)) bl)))
    with (verifiedCount bl).
  change (failedCount (emit (SetVerifyingBatch false)
                         (emit (SetResults (updatedResults bl)) bl)))
    with (failedCount bl).
  destruct (0 <? verifiedCount bl)%nat; [|destruct (0 <? failedCount bl)%nat].
  - eexists [_]. simpl. rewrite <- !app_assoc. split; [done|]. right. eauto.
  - eexists [_]. simpl. rewrite <- !app_assoc. split; [done|]. right. eauto.
  - exists []. simpl. rewrite <- !app_assoc. split; [done|]. by left.
Qed.

(** X11. Whatever the server answers, every array a batch run hands to
    [setResults] has, entry by entry, the names, company, profile, found
    and personal addresses, retry count and retry time of the array it
    started from: verification changes [isVerified] and [emailQuality]
    only, never the length or the order. *)
Theorem verifyAll_publishes_same_cores net rs :
  Forall (keeps_cores rs) (fst (verifyAllEmails net (Some rs))).
Proof.
  destruct (emailsToVerify rs) as [|e es] eqn:He.
  - unfold verifyAllEmails. rewrite He. destruct rs; simpl; [done|].
    by repeat constructor.
  - destruct (verifyAll_tail net rs) as (post & -> & Hpost); [by rewrite He|].
    destruct (loop_cores net rs (length (emailsToVerify rs)) (emailsToVerify rs) 0
                {| updatedResults := rs; verifiedCount := 0; failedCount := 0;
                   effects :=
                     [SetVerifyingBatch true;
                      Toast Info ("Verifying " +:+ pretty_nat (length (emailsToVerify rs))
                                    +:+ " emails...")] |})
      as [Hc Hf]; [done | by repeat constructor |].
    fold (after_loop net rs) in Hc, Hf.
    apply Forall_app. split; [done|].
    apply Forall_cons. split; [done|]. apply Forall_cons. split; [done|].
    destruct Hpost as [-> | (kind & text & ->)]; by repeat constructor.
Qed.

End BatchPointwise.

(** ** What a batch leaves for the next run *)

Section NextRun.

Import BulkResults BulkScenario BulkCases.

Lemma outcome_awaits a r :
  awaits_verification r = true ->
  awaits_verification (outcome a r) = negb (settles a).
Proof.
  unfold awaits_verification, settles, outcome.
  intros [He Hu]%andb_true_iff.
  destruct a as [|[] data]; simpl; rewrite ?He, ?Hu; try done.
  by destruct (is_undefined (data_isVerified data)).
Qed.

Lemma verifyAll_unsettled net rs email :
  NoDup (omap foundEmail rs) -> emailsToVerify rs <> [] ->
  exists b,
    snd (verifyAllEmails net (Some rs)) = Some b /\
    (In email (emailsToVerify (updatedResults b)) <->
     exists i, emailsToVerify rs !! i = Some email /\
               settles (verifyApi net i email) = false).
Proof.
  intros Hnd Hsome.
  destruct (verifyAll_records net rs Hnd Hsome) as (b & Hrun & _ & Hlen & Hrec).
  exists b. split; [by rewrite Hrun|]. split.
  - intros (x & Hx & Ha & He)%emailsToVerify_In.
    apply list_elem_of_In, list_elem_of_lookup in Hx as (j & Hj).
    destruct (rs !! j) as [r|] eqn:Hr.
    2: { apply lookup_ge_None in Hr. apply lookup_lt_Some in Hj. lia. }
    destruct (Hrec j r Hr) as [Hframe Hout].
    destruct (awaits_verification r) eqn:Har.
    + destruct (Hout eq_refl) as (i & e & Hi & Hfe & Hupd).
      rewrite Hj in Hupd. injection Hupd as ->.
      pose proof (outcome_core (verifyApi net i e) r) as Hcore.
      assert (e = email) as ->.
      { unfold core in Hcore. injection Hcore as _ _ _ _ Hf _ _ _. congruence. }
      exists i. split; [done|].
      rewrite (outcome_awaits _ r Har) in Ha. by apply negb_true_iff.
    + rewrite (Hframe eq_refl) in Hj. injection Hj as ->. congruence.
  - intros (i & Hi & Hset).
    assert (In email (emailsToVerify rs)) as Hin.
    { apply list_elem_of_In. by eapply list_elem_of_lookup_2. }
    apply emailsToVerify_In in Hin as (r & Hr & Ha & He).
    apply list_elem_of_In, list_elem_of_lookup in Hr as (j & Hj).
    destruct (Hrec j r Hj) as [_ Hout].
    destruct (Hout Ha) as (i' & e & Hi' & Hfe & Hupd).
    assert (e = email) as -> by congruence.
    assert (i' = i) as ->.
    { pose proof (omap_filter_NoDup foundEmail awaits_verification rs Hnd) as Hnd'.
      fold (emailsToVerify rs) in Hnd'.
      by eapply (NoDup_lookup _ i' i email Hnd'). }
    apply emailsToVerify_In. exists (outcome (verifyApi net i email) r).
    split_and!.
    + apply list_elem_of_In. by eapply list_elem_of_lookup_2.
    + by rewrite (outcome_awaits _ r Ha), Hset.
    + pose proof (outcome_core (verifyApi net i email) r) as Hcore.
      unfold core in Hcore. injection Hcore as _ _ _ _ Hf _ _ _. congruence.
Qed.

(** X12. With pairwise distinct addresses, the addresses a later batch run
    would select are exactly those whose request did not come back as a
    200 with a defined [isVerified]: a thrown request, a non-ok answer or
    an answer without verdict leaves the record unchecked, every other
    answer settles it. *)
Theorem verifyAll_leaves_unsettled net rs email :
  NoDup (omap foundEmail rs) -> emailsToVerify rs <> [] ->
  exists b,
    snd (verifyAllEmails net (Some rs)) = Some b /\
    (In email (emailsToVerify (updatedResults b)) <->
     exists i, emailsToVerify rs !! i = Some email /\
               settles (verifyApi net i email) = false).
Proof. apply verifyAll_unsettled. Qed.

Lemma verifyAll_leaves_unsettled_witness :
  NoDup (omap foundEmail [alice; erin; frank]) /\
  emailsToVerify [alice; erin; frank] <> [] /\
  exists b,
    snd (verifyAllEmails flaky (Some [alice; erin; frank])) = Some b /\
    In "erin@corp.com" (emailsToVerify (updatedResults b)).
Proof.
  assert (NoDup (omap foundEmail [alice; erin; frank])) as Hnd.
  { apply (bool_decide_unpack _). by vm_compute. }
  assert (emailsToVerify [alice; erin; frank] <> []) as Hsome by discriminate.
  destruct (verifyAll_leaves_unsettled flaky _ "erin@corp.com" Hnd Hsome)
    as (b & Hrun & Hiff).
  split; [exact Hnd|]. split; [exact Hsome|]. exists b. split; [exact Hrun|].
  apply Hiff. exists 0. split; reflexivity.
Defined.

End NextRun.

(** ** Single verification, retry, and the table *)

Section RowActions.

Import BulkResults BulkScenario BulkCases.

(** X13. When the request of [verifyEmail] throws or is answered with a
    non-ok status, nothing is published: the [results] state is what it
    was. *)
Theorem verifyEmail_failure_changes_nothing net results email index :
  (verifyApi net 0 email = Throws \/
   exists data, verifyApi net 0 email = Responds false data) ->
  results_after results (verifyEmail net results email index) = results /\
  (forall e, In e (verifyEmail net results email index) -> is_publish e = false).
Proof.
  intros Hfail. unfold verifyEmail.
  destruct (JS.truthy email); simpl; [|by split].
  destruct Hfail as [-> | (data & ->)]; simpl;
    (split; [by destruct results|]);
    destruct results; simpl; intros e He;
    repeat (destruct He as [<- | He]; [done|]); done.
Qed.

Lemma verifyEmail_failure_changes_nothing_witness :
  verifyApi offline 0 "alice@corp.com" = Throws /\
  results_after (Some [alice; bob]) (verifyEmail offline (Some [alice; bob]) "alice@corp.com" 0)
    = Some [alice; bob].
Proof.
  assert (verifyApi offline 0 "alice@corp.com" = Throws) as H by reflexivity.
  destruct (verifyEmail_failure_changes_nothing offline (Some [alice; bob])
              "alice@corp.com" 0 (or_introl H)) as (Hsame & _).
  exact (conj H Hsame).
Defined.

(** X14. A successful [verifyEmail] replaces the entry at the given index
    and no other: the entry gets the answer's [isVerified], keeps its own
    [emailQuality] when the answer carries none, and keeps its names,
    addresses and retry bookkeeping. *)
Theorem verifyEmail_success net rs email index cur data :
  email <> "" -> rs !! index = Some cur ->
  verifyApi net 0 email = Responds true data ->
  exists new,
    results_after (Some rs) (verifyEmail net (Some rs) email index)
    = Some (<[index := new]> rs) /\
    core new = core cur /\
    isVerified new = data_isVerified data /\
    (truthy_opt (data_emailQuality data) = true ->
     emailQuality new = data_emailQuality data) /\
    (truthy_opt (data_emailQuality data) = false ->
     emailQuality new = emailQuality cur) /\
    (forall j, j <> index -> <[index := new]> rs !! j = rs !! j).
Proof.
  intros Hne Hcur Hok. exists (with_verification data cur).
  unfold verifyEmail, publish_written, write_at. rewrite Hok, Hcur.
  destruct email; [done|]. simpl.
  split_and!; try done.
  - unfold or_else. by intros ->.
  - unfold or_else. by intros ->.
  - intros j Hj. by apply list_lookup_insert_ne.
Qed.

Lemma verifyEmail_success_witness :
  "erin@corp.com" <> "" /\
  [alice; erin] !! 1 = Some erin /\
  exists new,
    results_after (Some [alice; erin])
      (verifyEmail accepting (Some [alice; erin]) "erin@corp.com" 1)
    = Some [alice; new] /\
    isVerified new = JS.Def true.
Proof.
  assert ("erin@corp.com" <> "") as Hne by discriminate.
  assert ([alice; erin] !! 1 = Some erin) as Hcur by reflexivity.
  destruct (verifyEmail_success accepting [alice; erin] "erin@corp.com" 1 erin _
              Hne Hcur eq_refl) as (new & Hst & _ & Hv & _).
  split; [exact Hne|]. split; [exact Hcur|]. exists new. split; [exact Hst|exact Hv].
Defined.



Lemma filteredResults_length rs filterStatus searchTerm :
  length (filteredResults (Some rs) filterStatus searchTerm) <= length rs.
Proof. apply List.filter_length_le. Qed.

(** X16. The buttons of the table never write beyond the end of the
    array: a row index is an index of the filtered list, which is never
    longer than the array. *)
Theorem buttons_stay_in_range net results filterStatus searchTerm row e :
  In e (clickRetry net results filterStatus searchTerm row) \/
  In e (clickVerify net results filterStatus searchTerm row) ->
  forall k, e <> SetResultsBeyondEnd k.
Proof.
  unfold clickRetry, clickVerify.
  destruct results as [rs|]; [|by intros [[]|[]]].
  destruct (filteredResults (Some rs) filterStatus searchTerm !! row)
    as [record|] eqn:Hrow; [|by intros [[]|[]]].
  assert (exists cur, rs !! row = Some cur) as [cur Hcur].
  { apply lookup_lt_is_Some. apply lookup_lt_Some in Hrow.
    pose proof (filteredResults_length rs filterStatus searchTerm). lia. }
  intros [Hin|Hin] k ->.
  - unfold retryFindEmail, publish_written, write_at in Hin. rewrite Hcur in Hin.
    destruct (findApi net (find_request record)) as [|[] data]; simpl in Hin;
      repeat (destruct Hin as [Hin|Hin]; try discriminate Hin); try done.
    unfold retry_toast in Hin.
    destruct (email_or_null (data_email data)); [done|].
    by destruct (data_personalEmails data) as [| |[|??]].
  - destruct (foundEmail record) as [em|]; [|done].
    destruct (JS.truthy em) eqn:Ht; [|done].
    unfold verifyEmail, publish_written, write_at in Hin. rewrite Ht, Hcur in Hin.
    destruct (verifyApi net 0 em) as [|[] data]; simpl in Hin;
      repeat (destruct Hin as [Hin|Hin]; try discriminate Hin); done.
Qed.

Lemma buttons_stay_in_range_witness :
  In (SetRetryingEmail None)
     (clickRetry accepting (Some [alice; bob]) FilterVerified "" 0) /\
  SetRetryingEmail None <> SetResultsBeyondEnd 0.
Proof.
  assert (In (SetRetryingEmail None)
             (clickRetry accepting (Some [alice; bob]) FilterVerified "" 0)) as Hin
    by (vm_compute; tauto).
  exact (conj Hin (buttons_stay_in_range _ _ _ _ _ _ (or_introl Hin) 0)).
Defined.

(** Without filter and search term, the Retry button of a row
    retries the record of that row: after a successful answer the record
    at that index has its checks reset and its retry count raised by
    one, and the other records are untouched. *)
Theorem unfiltered_retry_counts_up net rs row cur data :
  rs !! row = Some cur ->
  findApi net (find_request cur) = Responds true data ->
  exists new,
    results_after (Some rs) (clickRetry net (Some rs) FilterAll "" row)
    = Some (<[row := new]> rs) /\
    firstName new = firstName cur /\ lastName new = lastName cur /\
    isVerified new = JS.Undefined /\ emailQuality new = JS.Undefined /\
    retryCount new = Some (default 0 (retryCount cur) + 1) /\
    default 0 (retryCount cur) < default 0 (retryCount new).
Proof.
  intros Hcur Hok. rewrite clickRetry_unfiltered, Hcur.
  destruct (retry_success_in_place net rs cur row data Hcur Hok)
    as (new & Hst & Hv & Hq & Hrc & _ & Hfn & Hln).
  exists new. split_and!; try done. rewrite Hrc. simpl. lia.
Qed.

Lemma unfiltered_retry_counts_up_witness :
  [alice; bob] !! 1 = Some bob /\
  exists new,
    results_after (Some [alice; bob])
      (clickRetry accepting (Some [alice; bob]) FilterAll "" 1)
    = Some [alice; new] /\
    retryCount new = Some 1.
Proof.
  assert ([alice; bob] !! 1 = Some bob) as Hcur by reflexivity.
  destruct (unfiltered_retry_counts_up accepting [alice; bob] 1 bob _ Hcur eq_refl)
    as (new & Hst & _ & _ & _ & _ & Hrc & _).
  split; [exact Hcur|]. exists new. split; [exact Hst | exact Hrc].
Defined.

Lemma List_filter_sublist {A} (p : A -> bool) (l : list A) :
  sublist (List.filter p l) l.
Proof.
  induction l as [|a l IH]; simpl; [constructor|].
  destruct (p a); by constructor.
Qed.

(** X17. The rows of the table are records of the array, in the array's
    order.  Under "Verified" every row has [isVerified] true, under
    "Unverified" false, under "Not Found" no (or an empty) address; so no
    record is shown under both "Verified" and "Unverified", and a record
    that was never checked is shown under neither. *)
Theorem table_views rs searchTerm :
  (forall filterStatus,
      sublist (filteredResults (Some rs) filterStatus searchTerm) rs) /\
  (forall r, In r (filteredResults (Some rs) FilterVerified searchTerm) ->
             isVerified r = JS.Def true) /\
  (forall r, In r (filteredResults (Some rs) FilterUnverified searchTerm) ->
             isVerified r = JS.Def false) /\
  (forall r, In r (filteredResults (Some rs) FilterNotFound searchTerm) ->
             foundEmail r = None \/ foundEmail r = Some "").
Proof.
  split_and!.
  - intros f. apply List_filter_sublist.
  - intros r [_ Hs]%List.filter_In. unfold shown in Hs.
    apply andb_true_iff in Hs as [Hs _].
    by destruct (isVerified r) as [| |[]].
  - intros r [_ Hs]%List.filter_In. unfold shown in Hs.
    apply andb_true_iff in Hs as [Hs _].
    by destruct (isVerified r) as [| |[]].
  - intros r [_ Hs]%List.filter_In. unfold shown in Hs.
    apply andb_true_iff in Hs as [Hs _].
    destruct (foundEmail r) as [[|]|]; auto. done.
Qed.

Lemma toLowerCase_char_idem c :
  JS.toLowerCase_char (JS.toLowerCase_char c) = JS.toLowerCase_char c.
Proof. revert c. intros [[] [] [] [] [] [] [] []]; vm_compute; reflexivity. Qed.

Lemma toLowerCase_idem s : JS.toLowerCase (JS.toLowerCase s) = JS.toLowerCase s.
Proof.
  induction s as [|c s IH]; [done|]. simpl. by rewrite toLowerCase_char_idem, IH.
Qed.

Lemma truthy_toLowerCase s : JS.truthy (JS.toLowerCase s) = JS.truthy s.
Proof. by destruct s. Qed.

(** X18. The search of the table ignores the case of the search term: two
    terms that agree after lower-casing show the same rows. *)
Theorem search_ignores_case results filterStatus term1 term2 :
  JS.toLowerCase term1 = JS.toLowerCase term2 ->
  filteredResults results filterStatus term1
  = filteredResults results filterStatus term2.
Proof.
  intros Hsame. destruct results as [rs|]; [|done]. unfold filteredResults.
  assert (forall r, shown filterStatus term1 r = shown filterStatus term2 r) as Hshown.
  { intros r. unfold shown.
    rewrite <- (truthy_toLowerCase term1), <- (truthy_toLowerCase term2), Hsame.
    done. }
  induction rs as [|r rs IH]; [done|]. simpl. by rewrite Hshown, IH.
Qed.

Lemma search_ignores_case_witness :
  JS.toLowerCase "CORP" = JS.toLowerCase "corp" /\
  filteredResults (Some [alice; bob]) FilterAll "CORP"
  = filteredResults (Some [alice; bob]) FilterAll "corp".
Proof.
  assert (JS.toLowerCase "CORP" = JS.toLowerCase "corp") as H by reflexivity.
  exact (conj H (search_ignores_case (Some [alice; bob]) FilterAll _ _ H)).
Defined.

End RowActions.

(** ** Suggestions and role accounts *)

Section SuggestionsAndRoles.

Import VerifyEmail Scenario.

(** X19. A suggestion is only ever made for an address with exactly one
    "@", and it is the untouched local part, "@", and a new domain. *)
Theorem suggestion_shape email s :
  suggestEmailCorrection email = Some s ->
  exists l d d', JS.split "@" email = [l; d] /\ s = l +:+ "@" +:+ d'.
Proof.
  unfold suggestEmailCorrection.
  destruct (JS.split "@" email) as [|l [|d [|? ?]]]; try done.
  destruct (truthy_entry commonDomainTypos (JS.toLowerCase d)) as [v|].
  { intros [= <-]. by eexists _, _, _. }
  destruct (2 <=? length (JS.split "." d))%nat; [|done].
  destruct (JS.pop (JS.split "." d)) as [[tld rest]|]; [|done].
  destruct (truthy_entry commonTldTypos (JS.toLowerCase tld)) as [v|]; [|done].
  intros [= <-]. by eexists _, _, _.
Qed.

Lemma suggestion_shape_witness :
  suggestEmailCorrection "Jo.Ann@yaho.com" = Some "Jo.Ann@yahoo.com" /\
  exists l d d', JS.split "@" "Jo.Ann@yaho.com" = [l; d] /\
                 "Jo.Ann@yahoo.com" = l +:+ "@" +:+ d'.
Proof.
  assert (suggestEmailCorrection "Jo.Ann@yaho.com" = Some "Jo.Ann@yahoo.com") as H
    by (vm_compute; reflexivity).
  exact (conj H (suggestion_shape _ _ H)).
Defined.

Lemma domain_fix_values k v :
  commonDomainTypos !! k = Some v ->
  v = "gmail.com" \/ v = "hotmail.com" \/ v = "outlook.com" \/ v = "yahoo.com".
Proof.
  intros H. unfold commonDomainTypos in H. apply elem_of_list_to_map_2 in H.
  repeat (apply elem_of_cons in H as [H|H]; [injection H as _ Hv; subst v; tauto|]).
  by apply elem_of_nil in H.
Qed.

(** X20. A domain found in the misspelling dictionary (after lower-casing)
    is replaced by its correction whatever its last label is, and the
    corrected address gets no further suggestion. *)
Theorem domain_correction_is_final l d fixed :
  all_chars not_at l = true -> all_chars not_at d = true ->
  commonDomainTypos !! JS.toLowerCase d = Some fixed ->
  suggestEmailCorrection (l +:+ "@" +:+ d) = Some (l +:+ "@" +:+ fixed) /\
  suggestEmailCorrection (l +:+ "@" +:+ fixed) = None.
Proof.
  intros Hl Hd Hk. split; [by apply suggest_domain_typo|].
  unfold suggestEmailCorrection.
  destruct (domain_fix_values _ _ Hk) as [-> | [-> | [-> | ->]]].
  - rewrite (split_address l "gmail.com" Hl eq_refl). vm_compute. reflexivity.
  - rewrite (split_address l "hotmail.com" Hl eq_refl). vm_compute. reflexivity.
  - rewrite (split_address l "outlook.com" Hl eq_refl). vm_compute. reflexivity.
  - rewrite (split_address l "yahoo.com" Hl eq_refl). vm_compute. reflexivity.
Qed.

Lemma domain_correction_is_final_witness :
  commonDomainTypos !! JS.toLowerCase "GMIAL.com" = Some "gmail.com" /\
  suggestEmailCorrection ("ann" +:+ "@" +:+ "GMIAL.com")
    = Some ("ann" +:+ "@" +:+ "gmail.com") /\
  suggestEmailCorrection ("ann" +:+ "@" +:+ "gmail.com") = None.
Proof.
  assert (commonDomainTypos !! JS.toLowerCase "GMIAL.com" = Some "gmail.com") as Hk
    by (vm_compute; reflexivity).
  exact (conj Hk (domain_correction_is_final "ann" "GMIAL.com" "gmail.com"
                    eq_refl eq_refl Hk)).
Defined.

(** X21. When the domain is not in the misspelling dictionary and its last
    label (after lower-casing) is in the dictionary of top-level labels,
    the suggestion is the address with that label replaced; the rest of
    the domain keeps its spelling and case. *)
Theorem tld_correction l main tld fixed :
  all_chars not_at l = true ->
  all_chars not_at (main +:+ "." +:+ tld) = true ->
  all_chars not_dot tld = true ->
  unknown_key commonDomainTypos (JS.toLowerCase (main +:+ "." +:+ tld)) ->
  commonTldTypos !! JS.toLowerCase tld = Some fixed ->
  suggestEmailCorrection (l +:+ "@" +:+ main +:+ "." +:+ tld)
  = Some (l +:+ "@" +:+ main +:+ "." +:+ fixed).
Proof. apply suggest_tld_typo. Qed.

Lemma tld_correction_witness :
  unknown_key commonDomainTypos (JS.toLowerCase ("Mail.Example" +:+ "." +:+ "CON")) /\
  commonTldTypos !! JS.toLowerCase "CON" = Some "com" /\
  suggestEmailCorrection ("Ann" +:+ "@" +:+ "Mail.Example" +:+ "." +:+ "CON")
  = Some ("Ann" +:+ "@" +:+ "Mail.Example" +:+ "." +:+ "com").
Proof.
  assert (unknown_key commonDomainTypos
            (JS.toLowerCase ("Mail.Example" +:+ "." +:+ "CON"))) as Hu.
  { split_and!; [vm_compute; reflexivity | discriminate | discriminate]. }
  assert (commonTldTypos !! JS.toLowerCase "CON" = Some "com") as Hk
    by (vm_compute; reflexivity).
  exact (conj Hu (conj Hk (tld_correction "Ann" "Mail.Example" "CON" "com"
                             eq_refl eq_refl eq_refl Hu Hk))).
Defined.

(** No suggestion is made when neither the domain nor its last label
    is in a dictionary or names an inherited property. *)
Theorem no_suggestion_for_unknown l main tld :
  all_chars not_at l = true ->
  all_chars not_at (main +:+ "." +:+ tld) = true ->
  all_chars not_dot tld = true ->
  unknown_key commonDomainTypos (JS.toLowerCase (main +:+ "." +:+ tld)) ->
  unknown_key commonTldTypos (JS.toLowerCase tld) ->
  suggestEmailCorrection (l +:+ "@" +:+ main +:+ "." +:+ tld) = None.
Proof. apply suggest_nothing_unknown_tld. Qed.

Lemma no_suggestion_for_unknown_witness :
  unknown_key commonDomainTypos (JS.toLowerCase ("example" +:+ "." +:+ "org")) /\
  unknown_key commonTldTypos (JS.toLowerCase "org") /\
  suggestEmailCorrection ("ann" +:+ "@" +:+ "example" +:+ "." +:+ "org") = None.
Proof.
  assert (unknown_key commonDomainTypos
            (JS.toLowerCase ("example" +:+ "." +:+ "org"))) as Hu.
  { split_and!; [vm_compute; reflexivity | discriminate | discriminate]. }
  assert (unknown_key commonTldTypos (JS.toLowerCase "org")) as Ht.
  { split_and!; [vm_compute; reflexivity | discriminate | discriminate]. }
  exact (conj Hu (conj Ht (no_suggestion_for_unknown "ann" "example" "org"
                             eq_refl eq_refl eq_refl Hu Ht))).
Defined.

Lemma toLowerCase_app s t :
  JS.toLowerCase (s +:+ t) = JS.toLowerCase s +:+ JS.toLowerCase t.
Proof. induction s as [|c s IH]; [done|]. rewrite append_cons. simpl. by rewrite IH. Qed.

Lemma startsWith_app s t p :
  JS.startsWith s p = true -> JS.startsWith (s +:+ t) p = true.
Proof.
  revert s. induction p as [|a p IH]; intros s.
  { intros _. by destruct (s +:+ t). }
  destruct s as [|b s]; [done|]. rewrite append_cons. simpl.
  rewrite !andb_true_iff. intros [? ?]. auto.
Qed.

Lemma local_part l rest :
  all_chars not_at l = true ->
  JS.split "@" (l +:+ "@" +:+ rest) !! 0%nat = Some l.
Proof.
  intros Hl. change ("@" +:+ rest) with (String "@" rest).
  by rewrite (split_first "@" l rest Hl).
Qed.

(** X22. The role-account test is a prefix test on the lower-cased text
    before the first "@": once an address is judged role-based, so is every
    address whose local part continues it, whatever follows the "@". *)
Theorem role_accounts_by_prefix l more rest rest' :
  all_chars not_at l = true -> all_chars not_at more = true ->
  isRoleBasedEmail (l +:+ "@" +:+ rest) = true ->
  isRoleBasedEmail ((l +:+ more) +:+ "@" +:+ rest') = true.
Proof.
  intros Hl Hm. unfold isRoleBasedEmail.
  rewrite (local_part l rest Hl).
  rewrite (local_part (l +:+ more) rest') by (by rewrite all_chars_app, Hl, Hm).
  destruct l as [|c l]; [done|].
  rewrite toLowerCase_app. simpl JS.truthy. cbv iota.
  rewrite !existsb_exists. intros (prefix & Hin & Hp).
  exists prefix. split; [done|]. cbn [JS.toLowerCase] in *.
  by apply startsWith_app.
Qed.

Lemma role_accounts_by_prefix_witness :
  isRoleBasedEmail ("info" +:+ "@" +:+ "example.com") = true /\
  isRoleBasedEmail (("info" +:+ "rmatics.lab") +:+ "@" +:+ "uni.edu") = true.
Proof.
  assert (isRoleBasedEmail ("info" +:+ "@" +:+ "example.com") = true) as H
    by (vm_compute; reflexivity).
  exact (conj H (role_accounts_by_prefix "info" "rmatics.lab" "example.com" "uni.edu"
                   eq_refl eq_refl H)).
Defined.

End SuggestionsAndRoles.

(** ** Export and preview *)

Section ExportFacts.

Import BulkResults BulkScenario BulkExport Scenario.

Lemma split_join sep parts :
  parts <> [] ->
  Forall (fun t => all_chars (fun c => negb (JS.eqc c sep)) t = true) parts ->
  JS.split sep (JS.join (String sep "") parts) = parts.
Proof.
  induction parts as [|p ps IH]; [done|]. intros _ Hall.
  apply Forall_cons in Hall as [Hp Hps].
  destruct ps as [|q qs].
  - simpl. by apply split_one.
  - change (JS.join (String sep "") (p :: q :: qs))
      with (p +:+ String sep "" +:+ JS.join (String sep "") (q :: qs)).
    rewrite append_cons, append_empty_l, (split_first sep p _ Hp).
    by rewrite IH.
Qed.

Lemma all_chars_join p sep parts :
  all_chars p sep = true ->
  Forall (fun t => all_chars p t = true) parts ->
  all_chars p (JS.join sep parts) = true.
Proof.
  intros Hsep. induction parts as [|x xs IH]; [done|].
  intros [Hx Hxs]%Forall_cons. destruct xs as [|y ys]; [done|].
  change (JS.join sep (x :: y :: ys)) with (x +:+ sep +:+ JS.join sep (y :: ys)).
  by rewrite !all_chars_app, Hx, Hsep, IH.
Qed.

Lemma startsWith_empty s : JS.startsWith s "" = true.
Proof. by destruct s. Qed.

Lemma includes_char s c :
  all_chars (fun x => negb (JS.eqc x c)) s = true ->
  JS.includes s (String c "") = false.
Proof.
  induction s as [|b s IH]; [done|].
  rewrite all_chars_cons, andb_true_iff, negb_true_iff. intros [Hb Hs].
  simpl. rewrite startsWith_empty, andb_true_r, (IH Hs), orb_false_r.
  unfold JS.eqc in *. by rewrite Ascii.eqb_sym.
Qed.

Lemma pretty_N_go_chars (p : ascii -> bool) :
  (forall d, p (pretty_N_char d) = true) ->
  forall x s, all_chars p s = true -> all_chars p (pretty_N_go x s) = true.
Proof.
  intros Hd x. induction (N.lt_wf_0 x) as [x _ IH]. intros s Hs.
  destruct (decide (x = 0%N)) as [->|Hx].
  - by rewrite pretty_N_go_0.
  - rewrite pretty_N_go_step by lia. apply IH.
    + apply N.div_lt; lia.
    + by rewrite all_chars_cons, Hd, Hs.
Qed.

Lemma pretty_nat_chars (p : ascii -> bool) n :
  (forall d, p (pretty_N_char d) = true) -> all_chars p (pretty_nat n) = true.
Proof.
  intros Hd. unfold pretty_nat, pretty, pretty.pretty_nat, pretty, pretty_N.
  destruct (decide (N.of_nat n = 0%N)); [|by apply pretty_N_go_chars].
  change "0" with (String (pretty_N_char 0) ""). by rewrite all_chars_cons, Hd.
Qed.

Ltac by_digits :=
  let d := fresh "d" in
  intros d; destruct d as [|d]; [done|];
  do 4 (try (destruct d as [d|d|]; try done)).

Lemma digit_no_comma : forall d, no_comma (pretty_N_char d) = true.
Proof. by_digits. Qed.

Lemma digit_no_newline : forall d, no_newline (pretty_N_char d) = true.
Proof. by_digits. Qed.

Lemma boolean_text_chars (p : ascii -> bool) b :
  all_chars p "true" = true -> all_chars p "false" = true ->
  all_chars p (boolean_text b) = true.
Proof. by destruct b. Qed.

(** The two columns that are not free text never contain a comma or a
    line break. *)
Lemma values_plain (p : ascii -> bool) r :
  (forall d, p (pretty_N_char d) = true) ->
  all_chars p "true" = true -> all_chars p "false" = true ->
  plain_record p r ->
  Forall (fun t => all_chars p t = true) (values r).
Proof.
  intros Hd Ht Hf Hr. unfold plain_record in Hr. unfold values.
  repeat (apply Forall_cons in Hr as [? Hr]).
  repeat (apply Forall_cons; split); try done.
  - destruct (isVerified r); try done. by apply boolean_text_chars.
  - destruct (retryCount r); [|done]. by apply pretty_nat_chars.
Qed.

Lemma cell_plain text :
  all_chars no_comma text = true -> cell text = text.
Proof. intros H. unfold cell. by rewrite (includes_char text "," H). Qed.

Lemma cell_no_newline text :
  all_chars no_newline text = true -> all_chars no_newline (cell text) = true.
Proof.
  intros H. unfold cell. destruct (JS.includes text ","); [|done].
  by rewrite !all_chars_app, H.
Qed.

Lemma row_round_trip r :
  plain_record no_comma r -> JS.split "," (row r) = values r.
Proof.
  intros Hr.
  pose proof (values_plain no_comma r digit_no_comma eq_refl eq_refl Hr) as Hv.
  unfold row.
  assert (map cell (values r) = values r) as ->.
  { clear Hr. induction Hv as [|t ts Ht _ IH]; [done|].
    simpl. by rewrite (cell_plain t Ht), IH. }
  by apply (split_join "," (values r)).
Qed.

Lemma row_no_newline r :
  plain_record no_newline r -> all_chars no_newline (row r) = true.
Proof.
  intros Hr.
  pose proof (values_plain no_newline r digit_no_newline eq_refl eq_refl Hr) as Hv.
  unfold row. apply all_chars_join; [done|].
  apply Forall_fmap. eapply Forall_impl; [exact Hv|].
  intros t Ht. by apply cell_no_newline.
Qed.

(** X23. Export and preview compose: when no text column of the records
    contains a comma or a line break, the preview of the exported text is
    the header row followed by the columns of the records, cell by cell,
    cut after five rows. *)
Theorem export_then_preview rs :
  rs <> [] ->
  Forall (plain_record no_comma) rs -> Forall (plain_record no_newline) rs ->
  preview (csv rs) = take 5 (headers :: map values rs).
Proof.
  intros Hne Hc Hn. unfold preview, csv.
  assert (JS.join "," headers +:+ newline +:+ JS.join newline (map row rs)
          = JS.join newline (JS.join "," headers :: map row rs)) as ->.
  { destruct rs as [|r rs]; [done|]. done. }
  unfold newline. rewrite split_join; [|done|].
  2: { apply Forall_cons. split; [done|].
       apply Forall_fmap. eapply Forall_impl; [exact Hn|].
       intros r Hr. by apply row_no_newline. }
  rewrite fmap_take. f_equal. simpl. f_equal.
  clear Hne Hn. induction Hc as [|r rs' Hr _ IH]; [done|].
  simpl. by rewrite (row_round_trip r Hr), IH.
Qed.

Lemma export_then_preview_witness :
  [alice; bob] <> [] /\
  Forall (plain_record no_comma) [alice; bob] /\
  preview (csv [alice; bob]) = take 5 (headers :: map values [alice; bob]).
Proof.
  assert ([alice; bob] <> []) as Hne by discriminate.
  assert (Forall (plain_record no_comma) [alice; bob]) as Hc
    by (repeat constructor).
  assert (Forall (plain_record no_newline) [alice; bob]) as Hn
    by (repeat constructor).
  exact (conj Hne (conj Hc (export_then_preview _ Hne Hc Hn))).
Defined.

Lemma endsWith_app s t : endsWith (s +:+ t) t = true.
Proof.
  induction s as [|c s IH].
  - rewrite append_empty_l.
    assert (JS.eqs t t = true) as Hrefl by (by apply eqs_true).
    destruct t; cbn [endsWith]; by rewrite Hrefl.
  - rewrite append_cons. simpl. rewrite IH. apply orb_true_r.
Qed.

(** X24. [downloadResults] hands over a file exactly when there is at
    least one record; the file holds the header row and one row per
    record, and its name is one the upload form takes back: the drop
    handler accepts and previews it, and so does the file picker. *)
Theorem download_is_accepted_back now results :
  match fst (downloadResults now results) with
  | Some file =>
      exists rs, results = Some rs /\ rs <> [] /\
                 content file = csv rs /\
                 dropAccepts (fileName file) = true /\
                 dropPreviews (fileName file) = true /\
                 selectPreviews (fileName file) = true
  | None => results = None \/ results = Some []
  end.
Proof.
  destruct results as [[|r rs]|]; simpl; auto.
  exists (r :: rs). split_and!; try done.
  - unfold dropAccepts, fileType.
    change ("email-results-" +:+ pretty now +:+ ".csv")
      with ("email-results-" +:+ pretty now +:+ String "." "csv").
    rewrite <- append_assoc', (split_last "." _ "csv" eq_refl), pop_last. done.
  - unfold dropPreviews, fileType.
    change ("email-results-" +:+ pretty now +:+ ".csv")
      with ("email-results-" +:+ pretty now +:+ String "." "csv").
    rewrite <- append_assoc', (split_last "." _ "csv" eq_refl), pop_last. done.
  - unfold selectPreviews. rewrite <- append_assoc'. apply endsWith_app.
Qed.

End ExportFacts.

(** ** The clients in front of the route *)

Section Composition.

Import AwsErrorHandler Server Regex VerifyEmail Scenario Cases.
Import SingleVerify.

Lemma POST_invalid_format_response env address :
  signed_in env -> address <> "" -> isValidEmail address = false ->
  response_of (POST env address) =
    {| status := 200; unauthorized := None; valid := Some false;
       message := Some "Invalid email format"; email := None;
       isVerified := None; emailQuality := None;
       suggestion := nullable_string (suggestEmailCorrection address);
       details := Some (checks false false false false
                          (Some (isRoleBasedEmail address)));
       verifiedAt := None; confidence := None |}.
Proof.
  intros Hs Hne Hv.
  assert (JS.truthy address = true) as Ht by (by destruct address).
  by rewrite (POST_invalid_format env address Hs Ht Hv).
Qed.

(** X25. What the single-address form shows for a signed-in user and a
    non-empty address, in front of the full-pipeline route.  A malformed
    address is reported as a domain without mail servers (the route's
    "Invalid email format" message is not shown); a disposable domain is
    reported as such whether or not it has mail servers; a rejection by
    the provider shows the route's own message; and the form says
    "verified" exactly when the route answers [valid: true]. *)
Theorem single_verify_over_pipeline env address :
  signed_in env -> address <> "" ->
  exists shown,
    verifyEmailOver env address = Some shown /\
    (isValidEmail address = false ->
     verified shown = Some false /\
     verificationMessage shown = "This email domain does not have valid mail servers.") /\
    (isValidEmail address = true -> isDisposableEmail address = true ->
     verified shown = Some false /\
     verificationMessage shown = "This appears to be a disposable email address.") /\
    (forall d, isValidEmail address = true -> isDisposableEmail address = false ->
     JS.split "@" address !! 1%nat = Some d -> has_mx env d = false ->
     verified shown = Some false /\
     verificationMessage shown = "This email domain does not have valid mail servers.") /\
    (forall d, isValidEmail address = true -> isDisposableEmail address = false ->
     JS.split "@" address !! 1%nat = Some d -> has_mx env d = true ->
     initSESClient env = inr tt -> ses_accepts env address = false ->
     verified shown = Some false /\
     verificationMessage shown
     = "Email verification failed. The email address may not exist or may be unreachable.") /\
    (verified shown = Some true <->
     valid (response_of (POST env address)) = Some true).
Proof.
  intros Hs Hne. unfold verifyEmailOver, SingleVerify.verifyEmail.
  assert (JS.truthy address = true) as Ht by (by destruct address).
  rewrite Ht. cbn [negb]. eexists. split; [reflexivity|].
  destruct (isValidEmail address) eqn:Hv.
  2: { rewrite (POST_invalid_format_response env address Hs Hne Hv). simpl.
       split_and!; try done. }
  destruct (domain_of_valid address Hv) as (c & d & Hd).
  destruct (has_mx env (String c d)) eqn:Hmx.
  2: { rewrite (POST_no_mail_servers env address _ Hs Hv Hd Hmx).
       unfold response_of. simpl.
       destruct (isDisposableEmail address) eqn:Hdisp; simpl;
         split_and!; try done; intros d' _ _ Hd'; congruence. }
  destruct (isDisposableEmail address) eqn:Hdisp.
  { rewrite (POST_disposable env address _ Hs Hv Hd Hmx Hdisp).
    unfold response_of. simpl. split_and!; try done. }
  destruct (initSESClient env) as [e|[]] eqn:Hses.
  { rewrite (POST_ses_unavailable_response env address _ e Hs Hv Hd Hmx Hdisp Hses).
    unfold response_of. simpl. split_and!; try done.
    intros d' _ _ Hd'. congruence. }
  rewrite (POST_full_pipeline env address _ Hs Hv Hd Hmx Hdisp Hses).
  unfold response_of. simpl.
  destruct (ses_accepts env address) eqn:Hacc; simpl; split_and!; try done.
  - intros d' _ _ Hd'. congruence.
  - intros d' _ _ Hd'. congruence.
Qed.

Lemma single_verify_over_pipeline_witness :
  signed_in (world [] []) /\ "not-an-address" <> "" /\
  isValidEmail "not-an-address" = false /\
  exists shown,
    verifyEmailOver (world [] []) "not-an-address" = Some shown /\
    verificationMessage shown = "This email domain does not have valid mail servers.".
Proof.
  assert (signed_in (world [] [])) as Hs by (by eexists _, _).
  assert ("not-an-address" <> "") as Hne by discriminate.
  assert (isValidEmail "not-an-address" = false) as Hv by (vm_compute; reflexivity).
  destruct (single_verify_over_pipeline (world [] []) "not-an-address" Hs Hne)
    as (shown & Hshown & Hbad & _).
  split; [exact Hs|]. split; [exact Hne|]. split; [exact Hv|].
  exists shown. split; [exact Hshown|]. exact (proj2 (Hbad Hv)).
Defined.

End Composition.

Section TableOverPipeline.

Import AwsErrorHandler Server Regex Scenario Cases.
Import BulkResults BulkScenario BulkCases Wire.

Lemma received_invalid_format env address :
  signed_in env -> address <> "" -> VerifyEmail.isValidEmail address = false ->
  received (VerifyEmail.response_of (VerifyEmail.POST env address))
  = Responds true {| data_isVerified := JS.Undefined;
                     data_emailQuality := JS.Undefined;
                     data_error := JS.Undefined |}.
Proof.
  intros Hs Hne Hv. by rewrite (POST_invalid_format_response env address Hs Hne Hv).
Qed.

Lemma received_valid env address d :
  signed_in env -> VerifyEmail.isValidEmail address = true ->
  JS.split "@" address !! 1%nat = Some d -> initSESClient env = inr tt ->
  received (VerifyEmail.response_of (VerifyEmail.POST env address))
  = Responds true
      {| data_isVerified :=
           JS.Def (has_mx env d && negb (VerifyEmail.isDisposableEmail address)
                   && ses_accepts env address);
         data_emailQuality := JS.Def (VerifyEmail.classifyQuality d);
         data_error := JS.Undefined |}.
Proof.
  intros Hs Hv Hd Hses.
  destruct (has_mx env d) eqn:Hmx.
  2: { by rewrite (POST_no_mail_servers env address d Hs Hv Hd Hmx). }
  destruct (VerifyEmail.isDisposableEmail address) eqn:Hdisp.
  { by rewrite (POST_disposable env address d Hs Hv Hd Hmx Hdisp). }
  rewrite (POST_full_pipeline env address d Hs Hv Hd Hmx Hdisp Hses).
  by destruct (ses_accepts env address).
Qed.




Lemma settles_over_pipeline env finder now i address :
  signed_in env -> address <> "" -> initSESClient env = inr tt ->
  settles (verifyApi (served env finder now) i address)
  = VerifyEmail.isValidEmail address.
Proof.
  intros Hs Hne Hses. unfold served. cbn [verifyApi].
  destruct (VerifyEmail.isValidEmail address) eqn:Hv.
  - destruct (domain_of_valid address Hv) as (c & d & Hd).
    by rewrite (received_valid env address _ Hs Hv Hd Hses).
  - by rewrite (received_invalid_format env address Hs Hne Hv).
Qed.

Lemma emailsToVerify_nonempty rs i email :
  emailsToVerify rs !! i = Some email -> email <> "".
Proof.
  intros Hi.
  assert (In email (emailsToVerify rs)) as Hin.
  { apply list_elem_of_In. by eapply list_elem_of_lookup_2. }
  apply emailsToVerify_In in Hin as (r & _ & Ha & He).
  unfold awaits_verification, truthy_email in Ha. rewrite He in Ha.
  by destruct email.
Qed.

(** X27. A batch run in front of the full-pipeline route (signed-in user,
    provider client available, pairwise distinct addresses) settles every
    selected record whose address passes the syntax check; the records
    with a malformed address stay unchecked, and they are exactly what a
    later run would select again. *)
Theorem batch_over_pipeline_retries_malformed env finder now rs email :
  signed_in env -> initSESClient env = inr tt ->
  NoDup (omap foundEmail rs) -> emailsToVerify rs <> [] ->
  exists b,
    snd (verifyAllEmails (served env finder now) (Some rs)) = Some b /\
    (In email (emailsToVerify (updatedResults b)) <->
     In email (emailsToVerify rs) /\ VerifyEmail.isValidEmail email = false).
Proof.
  intros Hs Hses Hnd Hsome.
  destruct (verifyAll_unsettled (served env finder now) rs email Hnd Hsome)
    as (b & Hrun & Hiff).
  exists b. split; [done|]. rewrite Hiff. split.
  - intros (i & Hi & Hset).
    rewrite (settles_over_pipeline env finder now i email Hs
               (emailsToVerify_nonempty rs i email Hi) Hses) in Hset.
    split; [|done]. apply list_elem_of_In. by eapply list_elem_of_lookup_2.
  - intros [Hin Hv].
    apply list_elem_of_In, list_elem_of_lookup in Hin as (i & Hi).
    exists i. split; [done|].
    by rewrite (settles_over_pipeline env finder now i email Hs
                  (emailsToVerify_nonempty rs i email Hi) Hses).
Qed.

Lemma batch_over_pipeline_retries_malformed_witness :
  signed_in (world [] []) /\
  NoDup (omap foundEmail [erin; gina]) /\ emailsToVerify [erin; gina] <> [] /\
  exists b,
    snd (verifyAllEmails (served (world [] []) (fun _ => Throws) 0%N)
           (Some [erin; gina])) = Some b /\
    In "gina@corp" (emailsToVerify (updatedResults b)) /\
    ~ In "erin@corp.com" (emailsToVerify (updatedResults b)).
Proof.
  assert (signed_in (world [] [])) as Hs by (by eexists _, _).
  assert (NoDup (omap foundEmail [erin; gina])) as Hnd.
  { apply (bool_decide_unpack _). by vm_compute. }
  assert (emailsToVerify [erin; gina] <> []) as Hsome by discriminate.
  destruct (batch_over_pipeline_retries_malformed (world [] []) (fun _ => Throws) 0%N
              [erin; gina] "gina@corp" Hs eq_refl Hnd Hsome) as (b & Hrun & Hiff).
  destruct (batch_over_pipeline_retries_malformed (world [] []) (fun _ => Throws) 0%N
              [erin; gina] "erin@corp.com" Hs eq_refl Hnd Hsome) as (b' & Hrun' & Hiff').
  assert (b' = b) as -> by congruence.
  split; [exact Hs|]. split; [exact Hnd|]. split; [exact Hsome|].
  exists b. split; [exact Hrun|]. split.
  - apply Hiff. split; [simpl; tauto | vm_compute; reflexivity].
  - intros Hin. apply Hiff' in Hin as [_ Hv]. vm_compute in Hv. discriminate Hv.
Defined.

End TableOverPipeline.

(** ** The history listing *)

Section History.

Import AwsErrorHandler BulkHistory Scenario.

Lemma insert_perm x l : insert x l ≡ₚ x :: l.
Proof.
  induction l as [|y ys IH]; [done|]. simpl.
  destruct (time y <=? time x)%N; [done|].
  rewrite IH. apply Permutation_swap.
Qed.

Lemma sort_perm l : sort l ≡ₚ l.
Proof.
  induction l as [|x l IH]; [done|]. simpl.
  by rewrite insert_perm, IH.
Qed.

Lemma insert_sorted x l :
  StronglySorted newer_first l -> StronglySorted newer_first (insert x l).
Proof.
  induction 1 as [|y ys Hs IH Hall]; simpl.
  - by repeat constructor.
  - destruct (time y <=? time x)%N eqn:Hle.
    + apply N.leb_le in Hle. constructor; [by constructor|].
      constructor; [done|].
      eapply Forall_impl; [exact Hall|]. unfold newer_first. intros; simpl in *; lia.
    + apply N.leb_gt in Hle. constructor; [done|].
      rewrite insert_perm. constructor; [unfold newer_first; lia | done].
Qed.

Lemma sort_sorted l : StronglySorted newer_first (sort l).
Proof.
  induction l as [|x l IH]; [constructor|]. by apply insert_sorted.
Qed.

Lemma filter_insert t x l :
  filter (fun e => time e = t) (insert x l)
  = filter (fun e => time e = t) (x :: l).
Proof.
  induction l as [|y ys IH]; [done|]. simpl.
  destruct (time y <=? time x)%N eqn:Hle; [done|].
  apply N.leb_gt in Hle.
  rewrite (filter_cons _ y), IH, !(filter_cons _ x), (filter_cons _ y).
  repeat case_decide; try done; lia.
Qed.

Lemma GET_listed env user bucket prefix contents :
  auth env = Some user -> user <> "" ->
  initS3Client env = inr tt ->
  parseS3BucketConfig env user "bulk" = inr (bucket, prefix) ->
  listObjects env bucket prefix = inr (Some contents) ->
  GET env = success (sort (omap (entry_of env bucket) contents)).
Proof.
  intros Ha Hu Hi Hp Hl. unfold GET. rewrite Ha.
  destruct user as [|c u]; [done|]. rewrite Hi, Hp, Hl.
  by destruct contents.
Qed.



Lemma sort_stable t l :
  filter (fun e => time e = t) (sort l) = filter (fun e => time e = t) l.
Proof.
  induction l as [|x l IH]; [done|]. simpl.
  by rewrite filter_insert, !(filter_cons _ x), IH.
Qed.

Lemma entry_of_some env bucket item e :
  entry_of env bucket item = Some e ->
  Key item = Some (key e) /\ key e <> "" /\
  lastModified e = LastModified item /\
  getObject env bucket (key e) <> NotReadable.
Proof.
  unfold entry_of. destruct (Key item) as [[|c k]|]; [done| |done].
  destruct (getObject env bucket (String c k)) eqn:Hg; [|done| |];
    intros [= <-]; simpl; by rewrite Hg.
Qed.

Lemma entry_of_defined env bucket item k :
  Key item = Some k -> k <> "" ->
  getObject env bucket k <> NotReadable ->
  exists e, entry_of env bucket item = Some e /\ key e = k /\
            lastModified e = LastModified item.
Proof.
  intros Hk Hne Hg. unfold entry_of. rewrite Hk.
  destruct k as [|c k]; [done|].
  destruct (getObject env bucket (String c k)); [|done| |]; by eexists.
Qed.

(** X28. One object that cannot be fetched or parsed never fails the
    listing of the bulk history: once the client, the configuration and
    the list request have succeeded, [GET] answers 200 whatever the single
    objects hold; its results are ordered newest first, every listed
    object with a key has an entry with its key and date, unless its
    request succeeds without a readable body; and every entry comes from
    such an object. *)
Theorem listing_survives_unreadable_objects env user bucket prefix contents :
  auth env = Some user -> user <> "" ->
  initS3Client env = inr tt ->
  parseS3BucketConfig env user "bulk" = inr (bucket, prefix) ->
  listObjects env bucket prefix = inr (Some contents) ->
  exists l,
    GET env = success l /\
    StronglySorted newer_first l /\
    (forall item k, item ∈ contents -> Key item = Some k -> k <> "" ->
       getObject env bucket k <> NotReadable ->
       exists e, e ∈ l /\ key e = k /\ lastModified e = LastModified item) /\
    (forall e, e ∈ l ->
       exists item, item ∈ contents /\ Key item = Some (key e) /\
         lastModified e = LastModified item /\
         getObject env bucket (key e) <> NotReadable).
Proof.
  intros Ha Hu Hi Hp Hl. eexists. split; [by eapply GET_listed|].
  split; [apply sort_sorted|]. split.
  - intros item k Hin Hk Hne Hg.
    destruct (entry_of_defined env bucket item k Hk Hne Hg) as (e & He & ? & ?).
    exists e. split; [|done]. rewrite sort_perm.
    apply list_elem_of_omap. by exists item.
  - intros e. rewrite sort_perm. intros (item & Hin & He)%list_elem_of_omap.
    exists item. split; [done|].
    by destruct (entry_of_some env bucket item e He) as (? & _ & ? & ?).
Qed.

Lemma listing_survives_unreadable_objects_witness :
  exists l, GET shelf = success l /\ length l = 2.
Proof.
  destruct (listing_survives_unreadable_objects shelf "user_1" "bucket"
              "user_1/bulk/" _ eq_refl ltac:(done) eq_refl eq_refl eq_refl)
    as (l & Hl & _).
  exists l. split; [exact Hl|].
  injection Hl as <-. reflexivity.
Defined.

(** X29. The listing is ordered by a stable sort: among the entries of
    one modification time (or of none) the order of the store's list is
    kept. *)
Theorem listing_order_is_stable env user bucket prefix contents t :
  auth env = Some user -> user <> "" ->
  initS3Client env = inr tt ->
  parseS3BucketConfig env user "bulk" = inr (bucket, prefix) ->
  listObjects env bucket prefix = inr (Some contents) ->
  exists l,
    results (GET env) = Some l /\
    filter (fun e => time e = t) l
    = filter (fun e => time e = t) (omap (entry_of env bucket) contents).
Proof.
  intros Ha Hu Hi Hp Hl. eexists.
  rewrite (GET_listed env user bucket prefix contents Ha Hu Hi Hp Hl).
  split; [reflexivity|]. apply sort_stable.
Qed.

Lemma listing_order_is_stable_witness :
  exists l, results (GET shelf) = Some l /\
    key <$> filter (fun e => time e = 100%N) l = ["user_1/bulk/old.json"].
Proof.
  destruct (listing_order_is_stable shelf "user_1" "bucket" "user_1/bulk/" _
              100%N eq_refl ltac:(done) eq_refl eq_refl eq_refl)
    as (l & Hl & Hf).
  exists l. split; [exact Hl|]. rewrite Hf. reflexivity.
Defined.



End History.
